(** * Credential resolution of dynamightea (package [config])

    A shallow embedding of [LoadConfig], [Config.GetCredentials] and the three
    metadata strategies [getECSCredentials], [getIMDSv1Credentials] and
    [getIMDSv2Credentials], together with the properties of the credential
    resolver that the specification states.

    The process environment is a finite map from names to values, the
    network is an oracle that answers each request (possibly never), and the
    resolver runs in a state-and-error monad over the world: the clock, the
    log of the exchanges started so far, and the oracle. *)

From Stdlib Require Import ZArith String Ascii List Bool Lia.
From stdpp Require Import base option gmap strings list.

Local Open Scope string_scope.
Local Open Scope list_scope.
Local Open Scope Z_scope.

(** ** Time, as package [time] has it *)

(** An instant: nanoseconds since the Unix epoch (the location of a
    [time.Time] is not modelled). *)
Definition Time := Z.

(** A [time.Duration]: a number of nanoseconds. *)
Definition Duration := Z.

Definition Second : Duration := 1000000000.
Definition Hour : Duration := 3600 * Second.

(** The zero value of [time.Time]: January 1, year 1, 00:00:00 UTC. *)
Definition time_zero : Time := -62135596800 * Second.

Definition time_Add (t : Time) (d : Duration) : Time := t + d.

(** ** The process environment *)

Abbreviation Env := (gmap string string).

(** [os.Getenv]: the value of the variable, empty when it is not set. *)
Definition Getenv (env : Env) (key : string) : string :=
  default "" (env !! key).

(** ** The data model *)

Record Config := mkConfig {
  Region : string;
  Profile : string;
  Endpoint : string;
  ConfigFile : string;
  CredentialsFile : string;
  UseIMDS : bool;
  IMDSVersion : string;
  UseECSMetadata : bool
}.

Record Credentials := mkCredentials {
  AccessKeyID : string;
  SecretAccessKey : string;
  SessionToken : string;
  Expiration : Time
}.

(** The anonymous struct [credResponse] that the three strategies decode
    the JSON body into. *)
Record credResponse := mkCredResponse {
  resp_AccessKeyID : string;
  resp_SecretAccessKey : string;
  resp_Token : string;
  resp_Expiration : string
}.

(** ** HTTP requests, responses and the network *)

(** A request: [ctx] is the time the request's context allows
    ([None] for [context.Background]). *)
Record Request := mkRequest {
  Method : string;
  URL : string;
  Header : list (string * string);
  ctx : option Duration
}.

(** A response: [Body] is [None] when reading the body stream fails. *)
Record Response := mkResponse {
  StatusCode : Z;
  Body : option string
}.

(** An [http.Client]; a [Timeout] of zero means no timeout. *)
Record Client := mkClient { Timeout : Duration }.

(** What the network does with a request: it never answers, it fails after
    some time, or it answers after some time. *)
Inductive Reply :=
| Hang
| Refuse (after : N)
| Answer (after : N) (resp : Response).

(** One exchange started by the program: the request, and the time the
    client and the request's context allow for it ([None]: unbounded). *)
Record Exchange := mkExchange {
  ex_request : Request;
  ex_limit : option Duration
}.

Record World := mkWorld {
  now : Time;
  sent : list Exchange;
  network : list Exchange -> Request -> Reply
}.

(** ** Results and the resolver's monad *)

(** A call returns a value, returns an error, or never returns. *)
Inductive result (A : Type) :=
| Ok (a : A)
| Err (msg : string)
| Hung.
Arguments Ok {A} a.
Arguments Err {A} msg.
Arguments Hung {A}.

Definition M (A : Type) : Type := World -> result A * World.

Definition ret {A} (a : A) : M A := fun w => (Ok a, w).

Definition bind {A B} (m : M A) (k : A -> M B) : M B :=
  fun w =>
    match m w with
    | (Ok a, w') => k a w'
    | (Err e, w') => (Err e, w')
    | (Hung, w') => (Hung, w')
    end.

(** [fmt.Errorf]: only the fixed part of the message is kept. *)
Definition fail {A} (msg : string) : M A := fun w => (Err msg, w).

(** [x, err := m; if err != nil { return nil, fmt.Errorf(msg, err) }] *)
Definition try {A} (m : M A) (msg : string) : M A :=
  fun w =>
    match m w with
    | (Err _, w') => (Err msg, w')
    | r => r
    end.

Definition lift {A} (r : result A) : M A := fun w => (r, w).

Declare Scope go_scope.
Delimit Scope go_scope with go.
Notation "x <- m ;; k" := (bind m (fun x => k))
  (at level 100, m at next level, right associativity) : go_scope.
Local Open Scope go_scope.

(** ** The transport *)

(** The time an exchange may take: the smaller of the client's timeout and
    of what the request's context allows. *)
Definition limit (c : Client) (req : Request) : option Duration :=
  match (if Timeout c =? 0 then None else Some (Timeout c)), ctx req with
  | None, d => d
  | Some t, None => Some t
  | Some t, Some d => Some (Z.min t d)
  end.

Definition expired (lim : option Duration) (after : N) : bool :=
  match lim with
  | Some t => t <=? Z.of_N after
  | None => false
  end.

(** The outcome of one exchange: the time it takes and the response, if
    any; [None] when it never ends. *)
Definition roundTrip (lim : option Duration) (rep : Reply)
  : option (Duration * option Response) :=
  match rep with
  | Hang =>
      match lim with
      | Some t => Some (t, None)
      | None => None
      end
  | Refuse after =>
      if expired lim after then Some (default 0 lim, None)
      else Some (Z.of_N after, None)
  | Answer after resp =>
      if expired lim after then Some (default 0 lim, None)
      else Some (Z.of_N after, Some resp)
  end.

(** [client.Do(req)] *)
Definition Do (c : Client) (req : Request) : M Response :=
  fun w =>
    let ex := mkExchange req (limit c req) in
    let log := sent w ++ [ex] in
    match roundTrip (limit c req) (network w (sent w) req) with
    | None => (Hung, mkWorld (now w) log (network w))
    | Some (d, Some resp) => (Ok resp, mkWorld (now w + d) log (network w))
    | Some (d, None) => (Err "transport", mkWorld (now w + d) log (network w))
    end.

(** [time.Now()] *)
Definition Now : M Time := fun w => (Ok (now w), w).

(** [io.ReadAll(resp.Body)] *)
Definition ReadAll (resp : Response) : result string :=
  match Body resp with
  | Some s => Ok s
  | None => Err "read"
  end.

(** ** Reading the log of exchanges *)

(** [strings.HasPrefix] *)
Fixpoint HasPrefix (s prefix : string) {struct prefix} : bool :=
  match prefix with
  | EmptyString => true
  | String a prefix' =>
      match s with
      | String b s' => Ascii.eqb a b && HasPrefix s' prefix'
      | EmptyString => false
      end
  end.

(** The exchange goes to the container-metadata host. *)
Definition toECS (ex : Exchange) : bool :=
  HasPrefix (URL (ex_request ex)) "http://169.254.170.2".

(** The exchange goes to the instance-metadata host. *)
Definition toIMDS (ex : Exchange) : bool :=
  HasPrefix (URL (ex_request ex)) "http://169.254.169.254/".

(** The exchange belongs to the secured flow: it asks for a session token,
    or it carries one. *)
Definition secured (ex : Exchange) : bool :=
  String.eqb (Method (ex_request ex)) "PUT"
  || existsb (fun kv => String.eqb (fst kv) "X-aws-ec2-metadata-token")
       (Header (ex_request ex)).

(** The exchange belongs to the legacy flow. *)
Definition legacy (ex : Exchange) : bool :=
  toIMDS ex && negb (secured ex).

(** The time the exchanges of a log are allowed, in all. *)
Definition total (log : list Exchange) : Duration :=
  foldr (fun ex acc => default 0 (ex_limit ex) + acc) 0 log.

(** A computation that starts at most [n] exchanges, each satisfying [P]
    and each under a limit, leaves the network as it is, and returns. *)
Definition runs {A} (P : Exchange -> Prop) (n : nat) (m : M A) : Prop :=
  forall w,
    network (m w).2 = network w
    /\ (m w).1 <> Hung
    /\ exists log,
         sent (m w).2 = sent w ++ log
         /\ Forall P log
         /\ (length log <= n)%nat
         /\ now w <= now (m w).2 <= now w + total log.

Section Resolver.

(** *** What the Go libraries provide *)

(** [url.Parse] accepts the string ([http.NewRequest] fails otherwise). *)
Variable valid_url : string -> bool.

(** [json.NewDecoder(body).Decode(&credResponse)]: the decoded struct, or
    [None] when decoding returns an error. *)
Variable json_Decode : string -> option credResponse.

(** [time.Parse(time.RFC3339, s)]: the instant, or [None] on error. *)
Variable time_Parse_RFC3339 : string -> option Time.

(** [os.UserHomeDir()], which reads the process environment (its error is
    dropped: the directory is then the empty string), and [filepath.Join]. *)
Variable os_UserHomeDir : Env -> string.
Variable filepath_Join : string -> string -> string.

(** [http.NewRequestWithContext(ctx, method, url, nil)] *)
Definition NewRequestWithContext (c : option Duration) (method url : string)
  : result Request :=
  if valid_url url then Ok (mkRequest method url [] c)
  else Err "parse".

(** [http.NewRequest(method, url, nil)] *)
Definition NewRequest (method url : string) : result Request :=
  NewRequestWithContext None method url.

(** [req.Header.Set(key, value)] *)
Definition Header_Set (req : Request) (key value : string) : Request :=
  mkRequest (Method req) (URL req)
    ((key, value) :: filter (fun kv => negb (String.eqb (fst kv) key)) (Header req))
    (ctx req).

(** [client.Get(url)]: build the request, then [client.Do]. *)
Definition client_Get (c : Client) (url : string) : M Response :=
  req <- lift (NewRequest "GET" url) ;;
  Do c req.

(** [json.NewDecoder(resp.Body).Decode(&credResponse)] on a response. *)
Definition Decode (body : option string) : result credResponse :=
  match body with
  | Some s =>
      match json_Decode s with
      | Some r => Ok r
      | None => Err "decode"
      end
  | None => Err "read"
  end.

(** *** [LoadConfig] *)

(** The error [LoadConfig] returns is always nil: only the configuration
    is modelled. *)
Definition LoadConfig (env : Env) : Config :=
  let region := Getenv env "AWS_REGION" in
  let region :=
    if String.eqb region "" then Getenv env "AWS_DEFAULT_REGION" else region in
  let region := if String.eqb region "" then "us-east-1" else region in
  let profile := Getenv env "AWS_PROFILE" in
  let profile := if String.eqb profile "" then "default" else profile in
  let endpoint := Getenv env "AWS_DYNAMODB_ENDPOINT" in
  let homeDir := os_UserHomeDir env in
  let awsConfigDir := filepath_Join homeDir ".aws" in
  let configFile := filepath_Join awsConfigDir "config" in
  let credentialsFile := filepath_Join awsConfigDir "credentials" in
  let useIMDS := negb (String.eqb (Getenv env "AWS_USE_IMDS") "false") in
  let imdsVersion := Getenv env "AWS_IMDS_VERSION" in
  let imdsVersion := if String.eqb imdsVersion "" then "v2" else imdsVersion in
  let useECSMetadata :=
    negb (String.eqb (Getenv env "AWS_ECS_METADATA_ENDPOINT") "") in
  {| Region := region;
     Profile := profile;
     Endpoint := endpoint;
     ConfigFile := configFile;
     CredentialsFile := credentialsFile;
     UseIMDS := useIMDS;
     IMDSVersion := imdsVersion;
     UseECSMetadata := useECSMetadata |}.

(** *** The endpoints *)

Definition imdsTokenURL : string :=
  "http://169.254.169.254/latest/api/token".
Definition imdsRoleURL : string :=
  "http://169.254.169.254/latest/meta-data/iam/security-credentials/".
Definition ecsHost : string := "http://169.254.170.2".

(** *** [getIMDSv1Credentials] *)

Definition getIMDSv1Credentials : M Credentials :=
  let client := mkClient (5 * Second) in
  resp <- try (client_Get client imdsRoleURL)
            "failed to get IAM role from IMDS" ;;
  if negb (StatusCode resp =? 200) then
    fail "failed to get IAM role from IMDS"
  else
  roleName <- try (lift (ReadAll resp)) "failed to read role name from IMDS" ;;
  resp <- try (client_Get client (imdsRoleURL +:+ roleName))
            "failed to get credentials from IMDS" ;;
  if negb (StatusCode resp =? 200) then
    fail "failed to get credentials from IMDS"
  else
  credResponse <- try (lift (Decode (Body resp)))
                    "failed to decode credentials from IMDS" ;;
  expiration <-
    match time_Parse_RFC3339 (resp_Expiration credResponse) with
    | Some t => ret t
    | None => t <- Now ;; ret (time_Add t (1 * Hour))
    end ;;
  ret {| AccessKeyID := resp_AccessKeyID credResponse;
         SecretAccessKey := resp_SecretAccessKey credResponse;
         SessionToken := resp_Token credResponse;
         Expiration := expiration |}.

(** *** [getIMDSv2Credentials] *)

Definition getIMDSv2Credentials : M Credentials :=
  let client := mkClient (5 * Second) in
  (* Step 1: get a session token *)
  tokenReq <- try (lift (NewRequest "PUT" imdsTokenURL))
                "failed to create token request" ;;
  let tokenReq :=
    Header_Set tokenReq "X-aws-ec2-metadata-token-ttl-seconds" "21600" in
  tokenResp <- try (Do client tokenReq) "failed to get token from IMDSv2" ;;
  if negb (StatusCode tokenResp =? 200) then
    fail "failed to get token from IMDSv2"
  else
  token <- try (lift (ReadAll tokenResp)) "failed to read token from IMDSv2" ;;
  (* Step 2: get the role name using the token *)
  roleReq <- try (lift (NewRequest "GET" imdsRoleURL))
               "failed to create role request" ;;
  let roleReq := Header_Set roleReq "X-aws-ec2-metadata-token" token in
  roleResp <- try (Do client roleReq) "failed to get IAM role from IMDSv2" ;;
  if negb (StatusCode roleResp =? 200) then
    fail "failed to get IAM role from IMDSv2"
  else
  roleName <- try (lift (ReadAll roleResp))
                "failed to read role name from IMDSv2" ;;
  (* Step 3: get the credentials using the role name and token *)
  credsReq <- try (lift (NewRequest "GET" (imdsRoleURL +:+ roleName)))
                "failed to create credentials request" ;;
  let credsReq := Header_Set credsReq "X-aws-ec2-metadata-token" token in
  credsResp <- try (Do client credsReq)
                 "failed to get credentials from IMDSv2" ;;
  if negb (StatusCode credsResp =? 200) then
    fail "failed to get credentials from IMDSv2"
  else
  credResponse <- try (lift (Decode (Body credsResp)))
                    "failed to decode credentials from IMDSv2" ;;
  expiration <-
    match time_Parse_RFC3339 (resp_Expiration credResponse) with
    | Some t => ret t
    | None => t <- Now ;; ret (time_Add t (1 * Hour))
    end ;;
  ret {| AccessKeyID := resp_AccessKeyID credResponse;
         SecretAccessKey := resp_SecretAccessKey credResponse;
         SessionToken := resp_Token credResponse;
         Expiration := expiration |}.

(** *** [getECSCredentials] *)

Definition getECSCredentials (env : Env) : M Credentials :=
  let metadataEndpoint := Getenv env "AWS_CONTAINER_CREDENTIALS_RELATIVE_URI" in
  if String.eqb metadataEndpoint "" then
    fail "AWS_CONTAINER_CREDENTIALS_RELATIVE_URI not set"
  else
  let ecsEndpoint := ecsHost +:+ metadataEndpoint in
  let ctx := Some (5 * Second) in
  req <- try (lift (NewRequestWithContext ctx "GET" ecsEndpoint))
           "failed to create request for ECS credentials" ;;
  let client := mkClient 0 in
  resp <- try (Do client req) "failed to get credentials from ECS metadata" ;;
  if negb (StatusCode resp =? 200) then
    fail "failed to get credentials from ECS metadata"
  else
  credResponse <- try (lift (Decode (Body resp)))
                    "failed to decode credentials from ECS metadata" ;;
  expiration <-
    match time_Parse_RFC3339 (resp_Expiration credResponse) with
    | Some t => ret t
    | None => t <- Now ;; ret (time_Add t (1 * Hour))
    end ;;
  ret {| AccessKeyID := resp_AccessKeyID credResponse;
         SecretAccessKey := resp_SecretAccessKey credResponse;
         SessionToken := resp_Token credResponse;
         Expiration := expiration |}.

(** *** [Config.GetCredentials] *)

(** [if x, err := m; err == nil { return x, nil }] followed by [rest]:
    an error of [m] is dropped and [rest] runs in the world [m] left. *)
Definition orElse {A} (m rest : M A) : M A :=
  fun w =>
    match m w with
    | (Err _, w') => rest w'
    | r => r
    end.

Definition GetCredentials (c : Config) (env : Env) : M Credentials :=
  (* First check environment variables (highest precedence) *)
  let creds :=
    {| AccessKeyID := Getenv env "AWS_ACCESS_KEY_ID";
       SecretAccessKey := Getenv env "AWS_SECRET_ACCESS_KEY";
       SessionToken := Getenv env "AWS_SESSION_TOKEN";
       Expiration := time_zero |} in
  if negb (String.eqb (AccessKeyID creds) "")
     && negb (String.eqb (SecretAccessKey creds) "")
  then ret creds
  else
  (* Try ECS metadata service if configured *)
  (if UseECSMetadata c then orElse (getECSCredentials env) else id)
  (* Try IMDS if configured *)
  ((if UseIMDS c then
      orElse
        (if String.eqb (IMDSVersion c) "v1" then getIMDSv1Credentials
         else if String.eqb (IMDSVersion c) "v2" then getIMDSv2Credentials
         else
           (* Try v2 first, fall back to v1 *)
           orElse getIMDSv2Credentials getIMDSv1Credentials)
    else id)
  (fail "unable to locate AWS credentials")).

(** *** The vocabulary of the specification *)

(** The environment strategy of [GetCredentials]: the credentials it reads,
    and its test. *)
Definition environmentCredentials (env : Env) : Credentials :=
  {| AccessKeyID := Getenv env "AWS_ACCESS_KEY_ID";
     SecretAccessKey := Getenv env "AWS_SECRET_ACCESS_KEY";
     SessionToken := Getenv env "AWS_SESSION_TOKEN";
     Expiration := time_zero |}.

Definition hasEnvironmentCredentials (env : Env) : bool :=
  negb (String.eqb (Getenv env "AWS_ACCESS_KEY_ID") "")
  && negb (String.eqb (Getenv env "AWS_SECRET_ACCESS_KEY") "").

(** The credentials a strategy builds from the decoded struct [dec] when it
    returns at the instant [t]. *)
Definition credentialsOf (dec : credResponse) (t : Time) : Credentials :=
  {| AccessKeyID := resp_AccessKeyID dec;
     SecretAccessKey := resp_SecretAccessKey dec;
     SessionToken := resp_Token dec;
     Expiration :=
       match time_Parse_RFC3339 (resp_Expiration dec) with
       | Some e => e
       | None => time_Add t (1 * Hour)
       end |}.

(** One HTTP step goes through: the request is built, the exchange, started
    in [w], ends in [w'] with a response of status 200 whose body reads as
    [body]. *)
Definition exchange200 (c : Client) (req : result Request)
    (w : World) (body : string) (w' : World) : Prop :=
  exists r resp,
    req = Ok r /\ Do c r w = (Ok resp, w')
    /\ StatusCode resp = 200 /\ Body resp = Some body.

Definition withHeader (req : result Request) (key value : string)
  : result Request :=
  match req with
  | Ok r => Ok (Header_Set r key value)
  | Err e => Err e
  | Hung => Hung
  end.

(** Every step of a strategy goes through, from [w] to [w'], and the body of
    the last response decodes to [dec]. *)
Definition ecs_decodes (env : Env) (w : World) (dec : credResponse) (w' : World)
  : Prop :=
  let rel := Getenv env "AWS_CONTAINER_CREDENTIALS_RELATIVE_URI" in
  rel <> "" /\
  exists body,
    exchange200 (mkClient 0)
      (NewRequestWithContext (Some (5 * Second)) "GET" (ecsHost +:+ rel)) w body w'
    /\ json_Decode body = Some dec.

Definition v1_decodes (w : World) (dec : credResponse) (w' : World) : Prop :=
  exists role w1 body,
    exchange200 (mkClient (5 * Second)) (NewRequest "GET" imdsRoleURL) w role w1
    /\ exchange200 (mkClient (5 * Second))
         (NewRequest "GET" (imdsRoleURL +:+ role)) w1 body w'
    /\ json_Decode body = Some dec.

Definition v2_decodes (w : World) (dec : credResponse) (w' : World) : Prop :=
  exists token w1 role w2 body,
    exchange200 (mkClient (5 * Second))
      (withHeader (NewRequest "PUT" imdsTokenURL)
         "X-aws-ec2-metadata-token-ttl-seconds" "21600") w token w1
    /\ exchange200 (mkClient (5 * Second))
         (withHeader (NewRequest "GET" imdsRoleURL)
            "X-aws-ec2-metadata-token" token) w1 role w2
    /\ exchange200 (mkClient (5 * Second))
         (withHeader (NewRequest "GET" (imdsRoleURL +:+ role))
            "X-aws-ec2-metadata-token" token) w2 body w'
    /\ json_Decode body = Some dec.

(** The resolver of the specification: the strategies, each with the flag
    that makes it applicable, tried in order up to the first success. *)
Definition envStrategy (env : Env) : M Credentials :=
  if hasEnvironmentCredentials env then ret (environmentCredentials env)
  else fail "no credentials in the environment".

Definition imdsStrategy (c : Config) : M Credentials :=
  if String.eqb (IMDSVersion c) "v1" then getIMDSv1Credentials
  else if String.eqb (IMDSVersion c) "v2" then getIMDSv2Credentials
  else orElse getIMDSv2Credentials getIMDSv1Credentials.

Fixpoint firstSuccess (strategies : list (bool * M Credentials))
  : M Credentials :=
  match strategies with
  | [] => fail "unable to locate AWS credentials"
  | (applicable, strategy) :: rest =>
      if applicable then orElse strategy (firstSuccess rest)
      else firstSuccess rest
  end.

Definition Resolve (c : Config) (env : Env) : M Credentials :=
  firstSuccess
    [ (true, envStrategy env);
      (UseECSMetadata c, getECSCredentials env);
      (UseIMDS c, imdsStrategy c) ].

(** The world in which the instance-metadata stage of [GetCredentials]
    starts: the environment has no credentials, and the container stage is
    skipped or has failed, leaving [w1]. *)
Definition reachesIMDS (c : Config) (env : Env) (w w1 : World) : Prop :=
  hasEnvironmentCredentials env = false /\
  (UseECSMetadata c = false /\ w1 = w
   \/ UseECSMetadata c = true /\ exists e, getECSCredentials env w = (Err e, w1)).

(** Every applicable strategy has failed or is inapplicable. *)
Definition exhausted (c : Config) (env : Env) (w w' : World) : Prop :=
  exists w1,
    reachesIMDS c env w w1 /\
    (UseIMDS c = false /\ w' = w1
     \/ UseIMDS c = true /\ exists e, imdsStrategy c w1 = (Err e, w')).

(** The three metadata strategies, what each runs, and when each gets its
    credentials response decoded. *)
Inductive Strategy :=
| ContainerMetadata
| InstanceMetadataV1
| InstanceMetadataV2.

Definition fetch (s : Strategy) (env : Env) : M Credentials :=
  match s with
  | ContainerMetadata => getECSCredentials env
  | InstanceMetadataV1 => getIMDSv1Credentials
  | InstanceMetadataV2 => getIMDSv2Credentials
  end.

Definition decodes (s : Strategy) (env : Env)
    (w : World) (dec : credResponse) (w' : World) : Prop :=
  match s with
  | ContainerMetadata => ecs_decodes env w dec w'
  | InstanceMetadataV1 => v1_decodes w dec w'
  | InstanceMetadataV2 => v2_decodes w dec w'
  end.

(** [GetCredentials], started in [w0], runs the strategy [s] in the world
    [w]: the strategies before it are inapplicable or have failed. *)
Definition selects (c : Config) (env : Env) (w0 : World)
    (s : Strategy) (w : World) : Prop :=
  match s with
  | ContainerMetadata =>
      hasEnvironmentCredentials env = false /\ UseECSMetadata c = true /\ w = w0
  | InstanceMetadataV2 =>
      reachesIMDS c env w0 w /\ UseIMDS c = true /\ IMDSVersion c <> "v1"
  | InstanceMetadataV1 =>
      UseIMDS c = true /\
      exists w1,
        reachesIMDS c env w0 w1 /\
        (IMDSVersion c = "v1" /\ w = w1
         \/ IMDSVersion c <> "v1" /\ IMDSVersion c <> "v2"
            /\ exists e, getIMDSv2Credentials w1 = (Err e, w))
  end.

End Resolver.

(** ** The exchanges of each strategy *)

Definition fiveSeconds (ex : Exchange) : Prop :=
  ex_limit ex = Some (5 * Second).

(** The one exchange of the container strategy. *)
Definition ecsExchange (env : Env) : Exchange :=
  {| ex_request :=
       {| Method := "GET";
          URL := ecsHost +:+ Getenv env "AWS_CONTAINER_CREDENTIALS_RELATIVE_URI";
          Header := [];
          ctx := Some (5 * Second) |};
     ex_limit := Some (5 * Second) |}.

(** An exchange of the legacy flow: a plain GET under the role listing. *)
Definition v1Exchange (suffix : string) : Exchange :=
  {| ex_request :=
       {| Method := "GET"; URL := imdsRoleURL +:+ suffix;
          Header := []; ctx := None |};
     ex_limit := Some (5 * Second) |}.

(** The exchanges of the secured flow: the request for a token, and a GET
    under the role listing that carries the token. *)
Definition tokenExchange : Exchange :=
  {| ex_request :=
       {| Method := "PUT"; URL := imdsTokenURL;
          Header := [("X-aws-ec2-metadata-token-ttl-seconds", "21600")];
          ctx := None |};
     ex_limit := Some (5 * Second) |}.

Definition v2Exchange (token suffix : string) : Exchange :=
  {| ex_request :=
       {| Method := "GET"; URL := imdsRoleURL +:+ suffix;
          Header := [("X-aws-ec2-metadata-token", token)]; ctx := None |};
     ex_limit := Some (5 * Second) |}.

Definition ofECS (env : Env) (ex : Exchange) : Prop := ex = ecsExchange env.

Definition ofV1 (ex : Exchange) : Prop := exists suffix, ex = v1Exchange suffix.

Definition ofV2 (ex : Exchange) : Prop :=
  ex = tokenExchange \/ exists token suffix, ex = v2Exchange token suffix.

(** ** A reference model of the JSON decoder

    [encoding/json], as far as [Decode] into [credResponse] goes: the
    decoder reads the first JSON value of the stream and ignores what
    follows it; [null] leaves the struct as it is; an object sets the four
    string fields, matching member names without regard to case; a value of
    another kind, or a member of a field that is neither a string nor
    [null], is an error.  The limit on nesting depth is not modelled. *)

Module Json.

#[local] Unset Elimination Schemes.
Inductive value :=
| Null
| Bool (b : bool)
| Number (lit : string)
| Str (s : string)
| Array (items : list value)
| Object (members : list (string * value)).
#[local] Set Elimination Schemes.

Definition byte (c : ascii) : N := N_of_ascii c.
Definition chr (n : N) : ascii := ascii_of_N n.

Definition isSpace (c : ascii) : bool :=
  let b := byte c in
  ((b =? 32) || (b =? 9) || (b =? 13) || (b =? 10))%N.

Definition isDigit (c : ascii) : bool :=
  ((48 <=? byte c) && (byte c <=? 57))%N.

Fixpoint skip_space (s : string) : string :=
  match s with
  | String c r => if isSpace c then skip_space r else s
  | EmptyString => s
  end.

(** The longest prefix of digits, and the rest. *)
Fixpoint digits (s : string) : string * string :=
  match s with
  | String c r =>
      if isDigit c then let (ds, r') := digits r in (String c ds, r')
      else (EmptyString, s)
  | EmptyString => (EmptyString, s)
  end.

Fixpoint strip (p s : string) : option string :=
  match p, s with
  | EmptyString, _ => Some s
  | String a p', String b s' => if Ascii.eqb a b then strip p' s' else None
  | String _ _, EmptyString => None
  end.

(** A number: an optional minus sign, an integer part without leading
    zero, an optional fraction and an optional exponent. *)
Definition number (s : string) : option (string * string) :=
  let '(sign, s) :=
    match s with
    | String c r => if (byte c =? 45)%N then (String c "", r) else ("", s)
    | EmptyString => ("", s)
    end in
  match s with
  | String c r =>
      if isDigit c then
        let '(int, s) :=
          if (byte c =? 48)%N then (String c "", r)
          else let (ds, r') := digits r in (String c ds, r') in
        let frac :=
          match s with
          | String d r =>
              if (byte d =? 46)%N then
                match digits r with
                | (EmptyString, _) => None
                | (ds, r') => Some (String d ds, r')
                end
              else Some ("", s)
          | EmptyString => Some ("", s)
          end in
        match frac with
        | None => None
        | Some (fr, s) =>
            let exp :=
              match s with
              | String e r =>
                  if ((byte e =? 101) || (byte e =? 69))%N then
                    let '(sg, r) :=
                      match r with
                      | String g r' =>
                          if ((byte g =? 43) || (byte g =? 45))%N
                          then (String g "", r') else ("", r)
                      | EmptyString => ("", r)
                      end in
                    match digits r with
                    | (EmptyString, _) => None
                    | (ds, r') => Some (String e (sg +:+ ds), r')
                    end
                  else Some ("", s)
              | EmptyString => Some ("", s)
              end in
            match exp with
            | None => None
            | Some (ex, s) => Some (sign +:+ int +:+ fr +:+ ex, s)
            end
        end
      else None
  | EmptyString => None
  end.

Definition hexval (c : ascii) : option N :=
  let b := byte c in
  (if (48 <=? b) && (b <=? 57) then Some (b - 48)
   else if (97 <=? b) && (b <=? 102) then Some (b - 87)
   else if (65 <=? b) && (b <=? 70) then Some (b - 55)
   else None)%N.

(** [getu4]: the code unit of four hexadecimal digits. *)
Definition hex4 (a b c d : ascii) : option N :=
  match hexval a, hexval b, hexval c, hexval d with
  | Some x, Some y, Some z, Some t => Some (((x * 16 + y) * 16 + z) * 16 + t)%N
  | _, _, _, _ => None
  end.

(** [utf8.EncodeRune] *)
Definition utf8_encode (r : N) : string :=
  (if r <? 128 then String (chr r) ""
   else if r <? 2048 then
     String (chr (192 + r / 64)) (String (chr (128 + r mod 64)) "")
   else if r <? 65536 then
     String (chr (224 + r / 4096))
       (String (chr (128 + (r / 64) mod 64)) (String (chr (128 + r mod 64)) ""))
   else
     String (chr (240 + r / 262144))
       (String (chr (128 + (r / 4096) mod 64))
          (String (chr (128 + (r / 64) mod 64))
             (String (chr (128 + r mod 64)) ""))))%N.

Definition replacement : string := utf8_encode 65533.

Definition between (lo hi : N) (c : ascii) : bool :=
  ((lo <=? byte c) && (byte c <=? hi))%N.

(** The length of the well-formed UTF-8 sequence [s] starts with, for a
    first byte [c] of 128 or more; [0] when there is none. *)
Definition utf8_len (c : ascii) (s : string) : nat :=
  match s with
  | String c1 s1 =>
      if between 194 223 c && between 128 191 c1 then 2%nat
      else
        match s1 with
        | String c2 s2 =>
            if (between 224 224 c && between 160 191 c1
                || (between 225 236 c || between 238 239 c) && between 128 191 c1
                || between 237 237 c && between 128 159 c1)
               && between 128 191 c2 then 3%nat
            else
              match s2 with
              | String c3 _ =>
                  if (between 240 240 c && between 144 191 c1
                      || between 241 243 c && between 128 191 c1
                      || between 244 244 c && between 128 143 c1)
                     && between 128 191 c2 && between 128 191 c3 then 4%nat
                  else 0%nat
              | EmptyString => 0%nat
              end
        | EmptyString => 0%nat
        end
  | EmptyString => 0%nat
  end.

Definition escape (c : ascii) : option ascii :=
  let b := byte c in
  (if (b =? 34) || (b =? 92) || (b =? 47) then Some c
   else if b =? 98 then Some (chr 8)
   else if b =? 102 then Some (chr 12)
   else if b =? 110 then Some (chr 10)
   else if b =? 114 then Some (chr 13)
   else if b =? 116 then Some (chr 9)
   else None)%N.

Definition isSurrogate (r : N) : bool := ((55296 <=? r) && (r <? 57344))%N.

(** The low surrogate that completes [hi], when [s] starts with its
    escape: the code point of the pair and the rest. *)
Definition low_surrogate (hi : N) (s : string) : option (N * string) :=
  match s with
  | String b (String u (String h1 (String h2 (String h3 (String h4 r))))) =>
      if ((byte b =? 92) && (byte u =? 117) && (hi <? 56320))%N then
        match hex4 h1 h2 h3 h4 with
        | Some lo =>
            if ((56320 <=? lo) && (lo <? 57344))%N
            then Some (((hi - 55296) * 1024 + (lo - 56320) + 65536)%N, r)
            else None
        | None => None
        end
      else None
  | _ => None
  end.

(** The rest of a string literal, after its opening quote: the decoded
    contents ([unquote]) and what follows the closing quote. *)
Fixpoint chars (s : string) : option (string * string) :=
  match s with
  | EmptyString => None
  | String c r =>
      if (byte c =? 34)%N then Some ("", r)
      else if (byte c =? 92)%N then
        match r with
        | String e r1 =>
            if (byte e =? 117)%N then
              match r1 with
              | String h1 (String h2 (String h3 (String h4 r2))) =>
                  match hex4 h1 h2 h3 h4 with
                  | Some u =>
                      if isSurrogate u then
                        match low_surrogate u r2 with
                        | Some (p, _) =>
                            match r2 with
                            | String _ (String _ (String _ (String _
                                (String _ (String _ r3))))) =>
                                match chars r3 with
                                | Some (t, rest) => Some (utf8_encode p +:+ t, rest)
                                | None => None
                                end
                            | _ => None
                            end
                        | None =>
                            match chars r2 with
                            | Some (t, rest) => Some (replacement +:+ t, rest)
                            | None => None
                            end
                        end
                      else
                        match chars r2 with
                        | Some (t, rest) => Some (utf8_encode u +:+ t, rest)
                        | None => None
                        end
                  | None => None
                  end
              | _ => None
              end
            else
              match escape e with
              | Some x =>
                  match chars r1 with
                  | Some (t, rest) => Some (String x t, rest)
                  | None => None
                  end
              | None => None
              end
        | EmptyString => None
        end
      else if (byte c <? 32)%N then None
      else if (byte c <? 128)%N then
        match chars r with
        | Some (t, rest) => Some (String c t, rest)
        | None => None
        end
      else
        match utf8_len c r, r with
        | 2%nat, String c1 r1 =>
            match chars r1 with
            | Some (t, rest) => Some (String c (String c1 t), rest)
            | None => None
            end
        | 3%nat, String c1 (String c2 r2) =>
            match chars r2 with
            | Some (t, rest) => Some (String c (String c1 (String c2 t)), rest)
            | None => None
            end
        | 4%nat, String c1 (String c2 (String c3 r3)) =>
            match chars r3 with
            | Some (t, rest) =>
                Some (String c (String c1 (String c2 (String c3 t))), rest)
            | None => None
            end
        | _, _ =>
            match chars r with
            | Some (t, rest) => Some (replacement +:+ t, rest)
            | None => None
            end
        end
  end.

(** One JSON value at the head of [s], after leading white space, and what
    follows it.  [fuel] bounds the nesting depth and the number of items of
    an array or object; a value of [n] bytes needs no more than [n]. *)
Fixpoint parse (fuel : nat) (s : string) {struct fuel} : option (value * string) :=
  match fuel with
  | O => None
  | S fuel' =>
      let items :=
        fix items (n : nat) (s : string) (acc : list value) {struct n}
          : option (value * string) :=
          match n with
          | O => None
          | S n' =>
              match parse fuel' s with
              | Some (v, r) =>
                  match skip_space r with
                  | String c r' =>
                      if (byte c =? 44)%N then items n' r' (v :: acc)
                      else if (byte c =? 93)%N
                           then Some (Array (rev (v :: acc)), r')
                           else None
                  | EmptyString => None
                  end
              | None => None
              end
          end in
      let members :=
        fix members (n : nat) (s : string) (acc : list (string * value)) {struct n}
          : option (value * string) :=
          match n with
          | O => None
          | S n' =>
              match skip_space s with
              | String q r =>
                  if (byte q =? 34)%N then
                    match chars r with
                    | Some (k, r1) =>
                        match skip_space r1 with
                        | String col r2 =>
                            if (byte col =? 58)%N then
                              match parse fuel' r2 with
                              | Some (v, r3) =>
                                  match skip_space r3 with
                                  | String c r4 =>
                                      if (byte c =? 44)%N
                                      then members n' r4 ((k, v) :: acc)
                                      else if (byte c =? 125)%N
                                           then Some (Object (rev ((k, v) :: acc)), r4)
                                           else None
                                  | EmptyString => None
                                  end
                              | None => None
                              end
                            else None
                        | EmptyString => None
                        end
                    | None => None
                    end
                  else None
              | EmptyString => None
              end
          end in
      match skip_space s with
      | EmptyString => None
      | String c r =>
          let b := byte c in
          if (b =? 123)%N then
            match skip_space r with
            | String c' r' =>
                if (byte c' =? 125)%N then Some (Object [], r')
                else members fuel' r []
            | EmptyString => None
            end
          else if (b =? 91)%N then
            match skip_space r with
            | String c' r' =>
                if (byte c' =? 93)%N then Some (Array [], r')
                else items fuel' r []
            | EmptyString => None
            end
          else if (b =? 34)%N then
            match chars r with
            | Some (t, rest) => Some (Str t, rest)
            | None => None
            end
          else if (b =? 116)%N then
            match strip "rue" r with
            | Some rest => Some (Bool true, rest)
            | None => None
            end
          else if (b =? 102)%N then
            match strip "alse" r with
            | Some rest => Some (Bool false, rest)
            | None => None
            end
          else if (b =? 110)%N then
            match strip "ull" r with
            | Some rest => Some (Null, rest)
            | None => None
            end
          else
            match number (String c r) with
            | Some (lit, rest) => Some (Number lit, rest)
            | None => None
            end
      end
  end.

(** The first value of the stream. *)
Definition first_value (body : string) : option (value * string) :=
  parse (S (String.length body)) body.

(** The body is one JSON text: a value, then white space only. *)
Definition valid (body : string) : bool :=
  match first_value body with
  | Some (_, rest) => String.eqb (skip_space rest) ""
  | None => false
  end.

Definition upper (c : ascii) : ascii :=
  if between 97 122 c then chr (byte c - 32) else c.

(** [foldName]: names are compared after folding case; the Kelvin sign
    and the long s are the two runes outside ASCII that fold to a letter. *)
Fixpoint foldName (s : string) : string :=
  match s with
  | EmptyString => ""
  | String c r =>
      match r with
      | String c1 r1 =>
          if ((byte c =? 197) && (byte c1 =? 191))%N
          then String (chr 83) (foldName r1)
          else
            match r1 with
            | String c2 r2 =>
                if ((byte c =? 226) && (byte c1 =? 132) && (byte c2 =? 170))%N
                then String (chr 75) (foldName r2)
                else String (upper c) (foldName r)
            | EmptyString => String (upper c) (foldName r)
            end
      | EmptyString => String (upper c) ""
      end
  end.

Definition names (key name : string) : bool :=
  String.eqb (foldName key) (foldName name).

Definition zero : credResponse :=
  {| resp_AccessKeyID := ""; resp_SecretAccessKey := "";
     resp_Token := ""; resp_Expiration := "" |}.

(** Store the string [s] in the field that the member name [key] selects. *)
Definition store (key s : string) (r : credResponse) : credResponse :=
  if names key "AccessKeyId" then
    {| resp_AccessKeyID := s; resp_SecretAccessKey := resp_SecretAccessKey r;
       resp_Token := resp_Token r; resp_Expiration := resp_Expiration r |}
  else if names key "SecretAccessKey" then
    {| resp_AccessKeyID := resp_AccessKeyID r; resp_SecretAccessKey := s;
       resp_Token := resp_Token r; resp_Expiration := resp_Expiration r |}
  else if names key "Token" then
    {| resp_AccessKeyID := resp_AccessKeyID r;
       resp_SecretAccessKey := resp_SecretAccessKey r;
       resp_Token := s; resp_Expiration := resp_Expiration r |}
  else if names key "Expiration" then
    {| resp_AccessKeyID := resp_AccessKeyID r;
       resp_SecretAccessKey := resp_SecretAccessKey r;
       resp_Token := resp_Token r; resp_Expiration := s |}
  else r.

Definition known (key : string) : bool :=
  names key "AccessKeyId" || names key "SecretAccessKey"
  || names key "Token" || names key "Expiration".

(** One member of the object: a string is stored, [null] and members of
    unknown name are skipped, anything else is a type error (decoding goes
    on, the error is returned at the end). *)
Definition member (st : credResponse * bool) (kv : string * value)
  : credResponse * bool :=
  let '(r, ok) := st in
  let '(k, v) := kv in
  if known k then
    match v with
    | Str s => (store k s r, ok)
    | Null => (r, ok)
    | _ => (r, false)
    end
  else (r, ok).

Definition unmarshal (v : value) : option credResponse :=
  match v with
  | Null => Some zero
  | Object ms =>
      let '(r, ok) := fold_left member ms (zero, true) in
      if ok then Some r else None
  | _ => None
  end.

(** [json.NewDecoder(body).Decode(&credResponse)] *)
Definition Decode (body : string) : option credResponse :=
  match first_value body with
  | Some (v, _) => unmarshal v
  | None => None
  end.

(** Bodies are written with apostrophes where JSON has double quotes. *)
Fixpoint dq (s : string) : string :=
  match s with
  | String c r => String (if (byte c =? 39)%N then chr 34 else c) (dq r)
  | EmptyString => ""
  end.

End Json.

(** ** A reference model of [time.Parse] with the layout [time.RFC3339]

    The layout is [2006-01-02T15:04:05Z07:00].  As [time.Parse] does, the
    model takes an hour of one or two digits, a fraction of a second after a
    period or a comma although the layout has none, and a zone offset of up
    to 24 hours and 60 minutes. *)

Module GoTime.

Definition digit (c : ascii) : option Z :=
  if Json.isDigit c then Some (Z.of_N (Json.byte c) - 48) else None.

(** [getnum]: a number of two digits, or of one digit unless [fixed]. *)
Definition getnum (s : string) (fixed : bool) : option (Z * string) :=
  match s with
  | String a r =>
      match digit a with
      | Some x =>
          match r with
          | String b r' =>
              match digit b with
              | Some y => Some (x * 10 + y, r')
              | None => if fixed then None else Some (x, r)
              end
          | EmptyString => if fixed then None else Some (x, r)
          end
      | None => None
      end
  | EmptyString => None
  end.

(** The year: exactly four digits. *)
Definition year4 (s : string) : option (Z * string) :=
  match s with
  | String a (String b (String c (String d r))) =>
      match digit a, digit b, digit c, digit d with
      | Some x, Some y, Some z, Some t =>
          Some (((x * 10 + y) * 10 + z) * 10 + t, r)
      | _, _, _, _ => None
      end
  | _ => None
  end.

(** A byte of the layout that stands for itself. *)
Definition lit (b : N) (s : string) : option string :=
  match s with
  | String c r => if (Json.byte c =? b)%N then Some r else None
  | EmptyString => None
  end.

Fixpoint atoi (s : string) (acc : Z) : Z :=
  match s with
  | String c r =>
      match digit c with
      | Some d => atoi r (acc * 10 + d)
      | None => acc
      end
  | EmptyString => acc
  end.

Fixpoint take (n : nat) (s : string) : string :=
  match n, s with
  | S n', String c r => String c (take n' r)
  | _, _ => ""
  end.

(** [parseNanoseconds]: the first nine digits of the fraction count. *)
Definition nanoseconds (ds : string) : Z :=
  let ds := take 9 ds in
  atoi ds 0 * 10 ^ (9 - Z.of_nat (String.length ds)).

(** The fraction of a second, when the input has one. *)
Definition fraction (s : string) : Z * string :=
  match s with
  | String c (String d r) =>
      if ((Json.byte c =? 46) || (Json.byte c =? 44))%N && Json.isDigit d then
        let (ds, rest) := Json.digits (String d r) in (nanoseconds ds, rest)
      else (0, s)
  | _ => (0, s)
  end.

(** The zone, [Z07:00]: the offset in seconds. *)
Definition zone (s : string) : option (Z * string) :=
  match s with
  | String c r =>
      if (Json.byte c =? 90)%N then Some (0, r)
      else
        match r with
        | String h1 (String h2 (String col (String m1 (String m2 rest)))) =>
            if (Json.byte col =? 58)%N then
              match digit h1, digit h2, digit m1, digit m2 with
              | Some a, Some b, Some x, Some y =>
                  let hr := a * 10 + b in
                  let mm := x * 10 + y in
                  if (24 <? hr) || (60 <? mm) then None
                  else if (Json.byte c =? 43)%N then Some ((hr * 60 + mm) * 60, rest)
                  else if (Json.byte c =? 45)%N then Some (- ((hr * 60 + mm) * 60), rest)
                  else None
              | _, _, _, _ => None
              end
            else None
        | _ => None
        end
  | EmptyString => None
  end.

Definition isLeap (year : Z) : bool :=
  (year mod 4 =? 0) && (negb (year mod 100 =? 0) || (year mod 400 =? 0)).

Definition daysIn (month year : Z) : Z :=
  if month =? 2 then (if isLeap year then 29 else 28)
  else if (month =? 4) || (month =? 6) || (month =? 9) || (month =? 11) then 30
  else 31.

(** Days from January 1, 1970 to the given day of the proleptic Gregorian
    calendar. *)
Definition days (year month day : Z) : Z :=
  let y := if month <=? 2 then year - 1 else year in
  let era := y / 400 in
  let yoe := y - era * 400 in
  let doy := (153 * (if 2 <? month then month - 3 else month + 9) + 2) / 5 + day - 1 in
  let doe := yoe * 365 + yoe / 4 - yoe / 100 + doy in
  era * 146097 + doe - 719468.

Definition Parse_RFC3339 (s : string) : option Time :=
  '(year, s) ← year4 s;
  s ← lit 45 s;
  '(month, s) ← getnum s true;
  s ← lit 45 s;
  '(day, s) ← getnum s true;
  s ← lit 84 s;
  '(hour, s) ← getnum s false;
  s ← lit 58 s;
  '(minute, s) ← getnum s true;
  s ← lit 58 s;
  '(sec, s) ← getnum s true;
  let '(nsec, s) := fraction s in
  '(offset, s) ← zone s;
  if String.eqb s ""
     && (1 <=? month) && (month <=? 12)
     && (1 <=? day) && (day <=? daysIn month year)
     && (hour <? 24) && (minute <? 60) && (sec <? 60)
  then
    Some ((days year month day * 86400 + hour * 3600 + minute * 60 + sec - offset)
          * Second + nsec)
  else None.

End GoTime.

(** ** A timestamp of RFC 3339, in the words of the specification

    The specification speaks of a valid RFC 3339 timestamp.  This is the
    grammar of RFC 3339, section 5.6, with the ranges of its fields:
    [date-time = full-date "T" full-time], the date as [YYYY-MM-DD] with a
    day of the month, the time as [hh:mm:ss] with hours up to 23, minutes up
    to 59 and seconds up to 60 (a leap second, as in the example
    [1990-12-31T23:59:60Z] of section 5.8), an optional fraction after a
    period, and the offset [Z] or a sign with [hh:mm].  The letters [T] and
    [Z] may be in lower case.  It is not taken from the code. *)

Module Rfc3339.

Definition isT (c : ascii) : bool :=
  ((Json.byte c =? 84) || (Json.byte c =? 116))%N.

Definition isZ (c : ascii) : bool :=
  ((Json.byte c =? 90) || (Json.byte c =? 122))%N.

(** [time-secfrac], when there is one: a period and one digit or more. *)
Definition secfrac (s : string) : option string :=
  match s with
  | String c r =>
      if (Json.byte c =? 46)%N then
        match r with
        | String d _ => if Json.isDigit d then Some (Json.digits r).2 else None
        | EmptyString => None
        end
      else Some s
  | EmptyString => Some s
  end.

(** [time-offset] *)
Definition offset (s : string) : option string :=
  match s with
  | String c r =>
      if isZ c then Some r
      else if ((Json.byte c =? 43) || (Json.byte c =? 45))%N then
        '(hr, r) ← GoTime.getnum r true;
        r ← GoTime.lit 58 r;
        '(mm, r) ← GoTime.getnum r true;
        if (hr <? 24) && (mm <? 60) then Some r else None
      else None
  | EmptyString => None
  end.

Definition date_time (s : string) : option bool :=
  '(year, s) ← GoTime.year4 s;
  s ← GoTime.lit 45 s;
  '(month, s) ← GoTime.getnum s true;
  s ← GoTime.lit 45 s;
  '(day, s) ← GoTime.getnum s true;
  '(t, s) ← match s with String t s => Some (t, s) | EmptyString => None end;
  '(hour, s) ← GoTime.getnum s true;
  s ← GoTime.lit 58 s;
  '(minute, s) ← GoTime.getnum s true;
  s ← GoTime.lit 58 s;
  '(sec, s) ← GoTime.getnum s true;
  s ← secfrac s;
  s ← offset s;
  Some (isT t && String.eqb s ""
        && (1 <=? month) && (month <=? 12)
        && (1 <=? day) && (day <=? GoTime.daysIn month year)
        && (hour <? 24) && (minute <? 60) && (sec <=? 60)).

Definition valid (s : string) : bool := default false (date_time s).

End Rfc3339.

(** ** Reference models of [url.Parse] and [filepath.Join]

    [Url.valid]: what [url.Parse] checks in the text that the resolver
    appends to a fixed prefix, for a URL whose authority is a dotted
    address: no control byte, and well-formed percent escapes in the path
    and in the fragment.  [Path.Join]: [filepath.Join] of two clean Unix
    path elements. *)

Module Url.

Definition isCTL (c : ascii) : bool :=
  ((Json.byte c <? 32) || (Json.byte c =? 127))%N.

Fixpoint hasCTL (s : string) : bool :=
  match s with
  | String c r => isCTL c || hasCTL r
  | EmptyString => false
  end.

(** [strings.Cut]: the text before the first [sep], and the text after it. *)
Fixpoint cut (sep : N) (s : string) : string * string :=
  match s with
  | String c r =>
      if (Json.byte c =? sep)%N then ("", r)
      else let (a, b) := cut sep r in (String c a, b)
  | EmptyString => ("", "")
  end.

Fixpoint escapes_ok (s : string) : bool :=
  match s with
  | String c r =>
      if (Json.byte c =? 37)%N then
        match r with
        | String a (String b r') =>
            match Json.hexval a, Json.hexval b with
            | Some _, Some _ => escapes_ok r'
            | _, _ => false
            end
        | _ => false
        end
      else escapes_ok r
  | EmptyString => true
  end.

Definition valid (u : string) : bool :=
  let (rest, frag) := cut 35 u in
  let (path, _) := cut 63 rest in
  negb (hasCTL u) && escapes_ok path && escapes_ok frag.

End Url.

Module Path.

Definition Join (a b : string) : string :=
  if String.eqb a "" then b
  else if String.eqb b "" then a
  else a +:+ "/" +:+ b.

End Path.

(** [os.UserHomeDir] on Unix, its error dropped: the value of [HOME], the
    empty string when it is unset or empty. *)
Module Os.

Definition UserHomeDir (env : Env) : string := Getenv env "HOME".

End Os.


(** ** The resolver over the reference models, and networks to run it *)

Module Go.

Definition load : Env -> Config := LoadConfig Os.UserHomeDir Path.Join.
Definition resolve : Config -> Env -> M Credentials :=
  GetCredentials Url.valid Json.Decode GoTime.Parse_RFC3339.
Definition ecs : Env -> M Credentials :=
  getECSCredentials Url.valid Json.Decode GoTime.Parse_RFC3339.
Definition imdsv1 : M Credentials :=
  getIMDSv1Credentials Url.valid Json.Decode GoTime.Parse_RFC3339.
Definition imdsv2 : M Credentials :=
  getIMDSv2Credentials Url.valid Json.Decode GoTime.Parse_RFC3339.

(** A host that answers the listed requests, each after one millisecond,
    and is silent on every other one. *)
Fixpoint serve (routes : list (string * string * Response))
    (log : list Exchange) (req : Request) : Reply :=
  match routes with
  | [] => Hang
  | (method, url, resp) :: rest =>
      if String.eqb (Method req) method && String.eqb (URL req) url
      then Answer 1000000 resp
      else serve rest log req
  end.

(** No route to any metadata endpoint. *)
Definition unreachable (log : list Exchange) (req : Request) : Reply := Hang.

(** The world at 2023-11-14T22:13:20Z, nothing sent yet. *)
Definition world (net : list Exchange -> Request -> Reply) : World :=
  {| now := 1700000000 * Second; sent := []; network := net |}.

(** Bodies of a credentials response: complete, without [Expiration],
    with an [Expiration] that is no timestamp, and without any member. *)
Definition credentialsBody : string :=
  Json.dq "{'AccessKeyId':'ASIAEXAMPLE','SecretAccessKey':'secret','Token':'token','Expiration':'2030-01-01T00:00:00Z'}".
Definition noExpirationBody : string :=
  Json.dq "{'AccessKeyId':'ASIAEXAMPLE','SecretAccessKey':'secret','Token':'token'}".
Definition badExpirationBody : string :=
  Json.dq "{'AccessKeyId':'ASIAEXAMPLE','SecretAccessKey':'secret','Token':'token','Expiration':'tomorrow'}".
Definition emptyObjectBody : string := "{}".

(** Bodies whose [Expiration] is the leap second that RFC 3339 gives as an
    example, and a time with an hour of one digit. *)
Definition leapSecondBody : string :=
  Json.dq "{'AccessKeyId':'ASIAEXAMPLE','SecretAccessKey':'secret','Token':'token','Expiration':'1990-12-31T23:59:60Z'}".
Definition shortHourBody : string :=
  Json.dq "{'AccessKeyId':'ASIAEXAMPLE','SecretAccessKey':'secret','Token':'token','Expiration':'2030-01-01T0:00:00Z'}".

(** A task of the container service, as its agent sets the environment. *)
Definition taskEnv : Env :=
  {[ "AWS_CONTAINER_CREDENTIALS_RELATIVE_URI" := "/v2/credentials/task" ]}.

(** The same, with the variable [LoadConfig] looks at. *)
Definition ecsEnv : Env :=
  <[ "AWS_ECS_METADATA_ENDPOINT" := "http://169.254.170.2" ]> taskEnv.

(** Credentials in the environment. *)
Definition keysEnv : Env :=
  {[ "AWS_ACCESS_KEY_ID" := "AKIAEXAMPLE";
     "AWS_SECRET_ACCESS_KEY" := "secret";
     "AWS_SESSION_TOKEN" := "token" ]}.

(** The container-metadata host, answering with the given status and body. *)
Definition ecsServer (status : Z) (body : string)
  : list Exchange -> Request -> Reply :=
  serve [ ("GET", "http://169.254.170.2/v2/credentials/task",
           mkResponse status (Some body)) ].

(** The instance-metadata host: the token request gets the given status,
    the role listing and the credentials of the role are served to every
    GET, with or without a token. *)
Definition imdsServer (tokenStatus : Z) (body : string)
  : list Exchange -> Request -> Reply :=
  serve [ ("PUT", imdsTokenURL, mkResponse tokenStatus (Some "TOKEN"));
          ("GET", imdsRoleURL, mkResponse 200 (Some "role"));
          ("GET", imdsRoleURL +:+ "role", mkResponse 200 (Some body)) ].

(** Both metadata hosts: the container host answers with status 500 and
    the token request with status 403; the role listing and the credentials
    of the role are served. *)
Definition failingServer : list Exchange -> Request -> Reply :=
  serve [ ("GET", "http://169.254.170.2/v2/credentials/task",
           mkResponse 500 (Some ""));
          ("PUT", imdsTokenURL, mkResponse 403 (Some ""));
          ("GET", imdsRoleURL, mkResponse 200 (Some "role"));
          ("GET", imdsRoleURL +:+ "role", mkResponse 200 (Some credentialsBody)) ].

(** A task of the container service with [AWS_IMDS_VERSION] set to a value
    that is no version. *)
Definition autoEnv : Env := <[ "AWS_IMDS_VERSION" := "auto" ]> ecsEnv.

End Go.

(** * The DynamoDB client (package [db]) *)

Module Db.

(** A call returns a value, returns an error, or panics (a nil pointer is
    dereferenced, an index is out of range). *)
Inductive outcome (A : Type) :=
| Return (a : A)
| Fail (msg : string)
| Panic.
Arguments Return {A} a.
Arguments Fail {A} msg.
Arguments Panic {A}.

Record KeySchemaElement := mkKeySchemaElement {
  AttributeName : string;
  KeyType : string
}.

Record IndexInfo := mkIndexInfo {
  IndexName : string;
  index_KeySchema : list KeySchemaElement
}.

Record TableInfo := mkTableInfo {
  TableName : string;
  KeySchema : list KeySchemaElement;
  AttributeDefinitions : gmap string string;
  GSIs : list IndexInfo;
  LSIs : list IndexInfo
}.

(** ** The types of the SDK that the package reads

    Modelled from the SDK's declarations ([service/dynamodb/types]): the
    fields the package reads; a field of pointer type is an option, [None]
    for nil. *)

Record types_KeySchemaElement := {
  types_AttributeName : option string;
  types_KeyType : string
}.

Record types_AttributeDefinition := {
  def_AttributeName : option string;
  def_AttributeType : string
}.

Record types_SecondaryIndexDescription := {
  types_IndexName : option string;
  types_IndexKeySchema : list types_KeySchemaElement
}.

Record types_TableDescription := {
  types_TableName : option string;
  types_KeySchema : list types_KeySchemaElement;
  types_AttributeDefinitions : list types_AttributeDefinition;
  types_GlobalSecondaryIndexes : list types_SecondaryIndexDescription;
  types_LocalSecondaryIndexes : list types_SecondaryIndexDescription
}.

(** A [dynamodb.Client], as the service answers through it.
    [api_ListTables n start]: the answer to the [n]-th call of one listing,
    with [ExclusiveStartTableName] [start]: the names of the page and
    [LastEvaluatedTableName], or [None] for an error.
    [api_DescribeTable name]: the table of the response (nil or not), or
    [None] for an error. *)
Record dynamodb_Client := {
  api_ListTables : nat -> option string -> option (list string * option string);
  api_DescribeTable : string -> option (option types_TableDescription)
}.

Record DynamoClient := mkDynamoClient {
  client : option dynamodb_Client;
  cfg : option Config
}.

(** ** Helper functions *)

(** [convertKeySchema]; it panics on an element without a name. *)
Fixpoint convertKeySchema (schema : list types_KeySchemaElement)
  : option (list KeySchemaElement) :=
  match schema with
  | [] => Some []
  | key :: rest =>
      match types_AttributeName key with
      | Some name =>
          match convertKeySchema rest with
          | Some result =>
              Some ({| AttributeName := name; KeyType := types_KeyType key |} :: result)
          | None => None
          end
      | None => None
      end
  end.

(** The loop of [convertAttrDefinitions], from the map built so far. *)
Fixpoint convertAttrDefinitions_from (result : gmap string string)
    (attrs : list types_AttributeDefinition) : option (gmap string string) :=
  match attrs with
  | [] => Some result
  | attr :: rest =>
      match def_AttributeName attr with
      | Some name =>
          convertAttrDefinitions_from (<[name := def_AttributeType attr]> result) rest
      | None => None
      end
  end.

(** [convertAttrDefinitions]; it panics on a definition without a name. *)
Definition convertAttrDefinitions (attrs : list types_AttributeDefinition)
  : option (gmap string string) :=
  convertAttrDefinitions_from ∅ attrs.

(** The loops of [DescribeTable] over the indexes of the response. *)
Fixpoint convertIndexes (result : list IndexInfo)
    (indexes : list types_SecondaryIndexDescription) : option (list IndexInfo) :=
  match indexes with
  | [] => Some result
  | index :: rest =>
      match types_IndexName index with
      | Some name =>
          match convertKeySchema (types_IndexKeySchema index) with
          | Some schema =>
              convertIndexes
                (result ++ [{| IndexName := name; index_KeySchema := schema |}]) rest
          | None => None
          end
      | None => None
      end
  end.

(** What the conversions make of one element of a key schema, and of one
    index. *)
Definition converted (key : types_KeySchemaElement) (el : KeySchemaElement) : Prop :=
  types_AttributeName key = Some (AttributeName el)
  /\ types_KeyType key = KeyType el.

Definition convertedIndex (index : types_SecondaryIndexDescription)
    (info : IndexInfo) : Prop :=
  types_IndexName index = Some (IndexName info)
  /\ Forall2 converted (types_IndexKeySchema index) (index_KeySchema info).

(** ** Mock data *)

Definition mockTables : list string := ["Users"; "Products"; "Orders"].

Definition getMockTableInfo (tableName : string) : outcome TableInfo :=
  if String.eqb tableName "Users" then
    Return
      {| TableName := "Users";
         KeySchema :=
           [ {| AttributeName := "UserID"; KeyType := "HASH" |};
             {| AttributeName := "Email"; KeyType := "RANGE" |} ];
         AttributeDefinitions :=
           list_to_map
             [ ("UserID", "S"); ("Email", "S"); ("Username", "S"); ("CreatedAt", "N") ];
         GSIs :=
           [ {| IndexName := "UsernameIndex";
                index_KeySchema :=
                  [ {| AttributeName := "Username"; KeyType := "HASH" |} ] |} ];
         LSIs :=
           [ {| IndexName := "CreatedAtIndex";
                index_KeySchema :=
                  [ {| AttributeName := "UserID"; KeyType := "HASH" |};
                    {| AttributeName := "CreatedAt"; KeyType := "RANGE" |} ] |} ] |}
  else if String.eqb tableName "Products" then
    Return
      {| TableName := "Products";
         KeySchema := [ {| AttributeName := "ProductID"; KeyType := "HASH" |} ];
         AttributeDefinitions :=
           list_to_map
             [ ("ProductID", "S"); ("Category", "S"); ("Price", "N"); ("CreateDate", "S") ];
         GSIs :=
           [ {| IndexName := "CategoryPriceIndex";
                index_KeySchema :=
                  [ {| AttributeName := "Category"; KeyType := "HASH" |};
                    {| AttributeName := "Price"; KeyType := "RANGE" |} ] |} ];
         LSIs := [] |}
  else if String.eqb tableName "Orders" then
    Return
      {| TableName := "Orders";
         KeySchema :=
           [ {| AttributeName := "CustomerID"; KeyType := "HASH" |};
             {| AttributeName := "OrderID"; KeyType := "RANGE" |} ];
         AttributeDefinitions :=
           list_to_map
             [ ("CustomerID", "S"); ("OrderID", "S"); ("OrderDate", "S"); ("Status", "S") ];
         GSIs :=
           [ {| IndexName := "StatusOrderDateIndex";
                index_KeySchema :=
                  [ {| AttributeName := "Status"; KeyType := "HASH" |};
                    {| AttributeName := "OrderDate"; KeyType := "RANGE" |} ] |} ];
         LSIs :=
           [ {| IndexName := "OrderDateIndex";
                index_KeySchema :=
                  [ {| AttributeName := "CustomerID"; KeyType := "HASH" |};
                    {| AttributeName := "OrderDate"; KeyType := "RANGE" |} ] |} ] |}
  else Fail ("table not found: " +:+ tableName).

(** ** [ListTables] *)

(** The loop of [ListTables], at its [n]-th call, with the names gathered
    so far; [None] when [fuel] calls do not end it.  An error of the
    service ends it with the mock data. *)
Fixpoint ListTables_loop (c : dynamodb_Client) (fuel n : nat)
    (tableNames : list string) (nextToken : option string) : option (list string) :=
  match fuel with
  | O => None
  | S fuel' =>
      match api_ListTables c n nextToken with
      | None => Some mockTables
      | Some (names, last) =>
          let tableNames := tableNames ++ names in
          match last with
          | None => Some tableNames
          | Some _ => ListTables_loop c fuel' (S n) tableNames last
          end
      end
  end.

(** [DynamoClient.ListTables]; its error is always nil. *)
Definition ListTables (fuel : nat) (d : DynamoClient) : option (list string) :=
  match client d with
  | None => Some mockTables
  | Some c => ListTables_loop c fuel 0 [] None
  end.

(** The service answers the calls of one listing, from the [n]-th on, with
    the pages [pages], each but the last with a name to go on from. *)
Fixpoint serves (c : dynamodb_Client) (n : nat) (start : option string)
    (pages : list (list string)) : Prop :=
  match pages with
  | [] => False
  | page :: rest =>
      match rest with
      | [] => api_ListTables c n start = Some (page, None)
      | _ :: _ =>
          exists token,
            api_ListTables c n start = Some (page, Some token)
            /\ serves c (S n) (Some token) rest
      end
  end.

(** The service answers with the pages [pages], each with a name to go on
    from, and fails on the next call. *)
Fixpoint servesThenFails (c : dynamodb_Client) (n : nat) (start : option string)
    (pages : list (list string)) : Prop :=
  match pages with
  | [] => api_ListTables c n start = None
  | page :: rest =>
      exists token,
        api_ListTables c n start = Some (page, Some token)
        /\ servesThenFails c (S n) (Some token) rest
  end.

(** ** [DescribeTable] *)

Definition DescribeTable (d : DynamoClient) (tableName : string) : outcome TableInfo :=
  match client d with
  | None => getMockTableInfo tableName
  | Some c =>
      match api_DescribeTable c tableName with
      | None => getMockTableInfo tableName
      | Some None => Fail ("table not found: " +:+ tableName)
      | Some (Some table) =>
          match types_TableName table,
                convertKeySchema (types_KeySchema table),
                convertAttrDefinitions (types_AttributeDefinitions table) with
          | Some name, Some schema, Some attrs =>
              match convertIndexes [] (types_GlobalSecondaryIndexes table) with
              | Some gsis =>
                  match convertIndexes [] (types_LocalSecondaryIndexes table) with
                  | Some lsis =>
                      Return {| TableName := name; KeySchema := schema;
                                AttributeDefinitions := attrs;
                                GSIs := gsis; LSIs := lsis |}
                  | None => Panic
                  end
              | None => Panic
              end
          | _, _, _ => Panic
          end
      end
  end.

(** ** [createDynamoDBClient] and [NewDynamoClient] *)

(** The options handed to [config.LoadDefaultConfig]: the region, the
    resolver that sends every service to a fixed endpoint with a signing
    region, a static credentials provider. *)
Inductive LoadOption :=
| WithRegion (region : string)
| WithEndpointResolverWithOptions (url signingRegion : string)
| WithCredentialsProvider (accessKeyID secretAccessKey sessionToken : string).

Section Client.

Variable valid_url : string -> bool.
Variable json_Decode : string -> option credResponse.
Variable time_Parse_RFC3339 : string -> option Time.
Variable os_UserHomeDir : Env -> string.
Variable filepath_Join : string -> string -> string.

(** [config.LoadDefaultConfig(context.Background(), optFns...)], [None] for
    an error, and [dynamodb.NewFromConfig]. *)
Variable aws_Config : Type.
Variable config_LoadDefaultConfig : list LoadOption -> option aws_Config.
Variable dynamodb_NewFromConfig : aws_Config -> dynamodb_Client.

(** The first part of [createDynamoDBClient]: the list [optFns]. *)
Definition loadOptions (c : Config) (env : Env) : M (list LoadOption) :=
  fun w =>
    let optFns := [WithRegion (Region c)] in
    (* If using a custom endpoint (like DynamoDB Local) *)
    let optFns :=
      if negb (String.eqb (Endpoint c) "") then
        optFns ++ [WithEndpointResolverWithOptions (Endpoint c) (Region c)]
      else optFns in
    (* Try to get explicit credentials from metadata services if enabled *)
    if UseIMDS c || UseECSMetadata c then
      match GetCredentials valid_url json_Decode time_Parse_RFC3339 c env w with
      | (Ok creds, w') =>
          (Ok (optFns ++ [WithCredentialsProvider (AccessKeyID creds)
                            (SecretAccessKey creds) (SessionToken creds)]), w')
      | (Err _, w') => (Ok optFns, w')
      | (Hung, w') => (Hung, w')
      end
    else (Ok optFns, w).

Definition createDynamoDBClient (c : Config) (env : Env) : M dynamodb_Client :=
  optFns <- loadOptions c env ;;
  (* Load AWS SDK configuration *)
  match config_LoadDefaultConfig optFns with
  | Some awsConfig => ret (dynamodb_NewFromConfig awsConfig)
  | None => fail "failed to load AWS SDK config"
  end.

(** [NewDynamoClient]; [LoadConfig] returns no error. *)
Definition NewDynamoClient (env : Env) : M DynamoClient :=
  fun w =>
    let c := LoadConfig os_UserHomeDir filepath_Join env in
    match createDynamoDBClient c env w with
    | (Ok cl, w') => (Ok {| client := Some cl; cfg := Some c |}, w')
    | (Err _, w') => (Ok {| client := None; cfg := Some c |}, w')
    | (Hung, w') => (Hung, w')
    end.

End Client.

(** ** Clients to run the package with *)

(** A service with three tables on two pages; it describes [Events], in
    which two definitions name the same attribute, and fails on any other
    name. *)
Definition eventsTable : types_TableDescription :=
  {| types_TableName := Some "Events";
     types_KeySchema :=
       [ {| types_AttributeName := Some "ID"; types_KeyType := "HASH" |};
         {| types_AttributeName := Some "At"; types_KeyType := "RANGE" |} ];
     types_AttributeDefinitions :=
       [ {| def_AttributeName := Some "ID"; def_AttributeType := "N" |};
         {| def_AttributeName := Some "At"; def_AttributeType := "N" |};
         {| def_AttributeName := Some "ID"; def_AttributeType := "S" |} ];
     types_GlobalSecondaryIndexes :=
       [ {| types_IndexName := Some "ByTime";
            types_IndexKeySchema :=
              [ {| types_AttributeName := Some "At"; types_KeyType := "HASH" |} ] |} ];
     types_LocalSecondaryIndexes := [] |}.

Definition pagedService : dynamodb_Client :=
  {| api_ListTables := fun n start =>
       match n with
       | 0%nat => Some (["Events"; "Logs"], Some "Logs")
       | 1%nat => Some (["Users"], None)
       | _ => None
       end;
     api_DescribeTable := fun name =>
       if String.eqb name "Events" then Some (Some eventsTable) else None |}.

(** A service that fails on the second page of a listing. *)
Definition failingService : dynamodb_Client :=
  {| api_ListTables := fun n start =>
       match n with
       | 0%nat => Some (["Events"; "Logs"], Some "Logs")
       | _ => None
       end;
     api_DescribeTable := fun name => None |}.

(** A service whose listing never ends. *)
Definition endlessService : dynamodb_Client :=
  {| api_ListTables := fun n start => Some (["Events"], Some "Events");
     api_DescribeTable := fun name => Some None |}.

End Db.

(** * The terminal interface (package [ui]): the model and [Update] *)

Module Ui.

Inductive viewMode :=
| tableListMode
| tableViewMode
| indexViewMode.

Record Model := mkModel {
  tables : list string;
  selectedTable : Z;
  viewMode_ : viewMode;
  tableData : option Db.TableInfo;
  width : Z;
  height : Z;
  loading : bool;
  error : option string;
  client : option Db.DynamoClient
}.

(** The messages [Update] tells apart; [otherMsg] stands for any other. *)
Inductive Msg :=
| KeyMsg (key : string)
| WindowSizeMsg (Width Height : Z)
| tablesLoadedMsg (tables : list string)
| tableInfoLoadedMsg (tableInfo : option Db.TableInfo)
| errorMsg (err : option string)
| otherMsg.

(** The commands [Update] and [Init] return; [noCmd] is nil. *)
Inductive Cmd :=
| noCmd
| Quit
| loadTables
| loadTableInfo (tableName : string).

(** [l[i]]: [None] when the index is out of range (the program panics). *)
Definition index (l : list string) (i : Z) : option string :=
  if i <? 0 then None else l !! Z.to_nat i.

Definition len (l : list string) : Z := Z.of_nat (length l).

Definition setViewMode (m : Model) (v : viewMode) : Model :=
  {| tables := tables m; selectedTable := selectedTable m; viewMode_ := v;
     tableData := tableData m; width := width m; height := height m;
     loading := loading m; error := error m; client := client m |}.

Definition setSelectedTable (m : Model) (i : Z) : Model :=
  {| tables := tables m; selectedTable := i; viewMode_ := viewMode_ m;
     tableData := tableData m; width := width m; height := height m;
     loading := loading m; error := error m; client := client m |}.

(** [Init] *)
Definition Init (m : Model) : Cmd := loadTables.

(** [Update]; [Panic] when the selected index is out of range. *)
Definition Update (m : Model) (msg : Msg) : Db.outcome (Model * Cmd) :=
  match msg with
  | KeyMsg key =>
      if String.eqb key "ctrl+c" || String.eqb key "q" then Db.Return (m, Quit)
      else if String.eqb key "tab" then
        (* Cycle through view modes *)
        match viewMode_ m with
        | tableListMode =>
            if 0 <? len (tables m) then
              let m := setViewMode m tableViewMode in
              match index (tables m) (selectedTable m) with
              | Some name => Db.Return (m, loadTableInfo name)
              | None => Db.Panic
              end
            else Db.Return (m, noCmd)
        | tableViewMode => Db.Return (setViewMode m indexViewMode, noCmd)
        | indexViewMode => Db.Return (setViewMode m tableListMode, noCmd)
        end
      else if String.eqb key "up" || String.eqb key "k" then
        if 0 <? selectedTable m
        then Db.Return (setSelectedTable m (selectedTable m - 1), noCmd)
        else Db.Return (m, noCmd)
      else if String.eqb key "down" || String.eqb key "j" then
        if selectedTable m <? len (tables m) - 1
        then Db.Return (setSelectedTable m (selectedTable m + 1), noCmd)
        else Db.Return (m, noCmd)
      else if String.eqb key "enter" then
        match viewMode_ m with
        | tableListMode =>
            if 0 <? len (tables m) then
              let m := setViewMode m tableViewMode in
              match index (tables m) (selectedTable m) with
              | Some name => Db.Return (m, loadTableInfo name)
              | None => Db.Panic
              end
            else Db.Return (m, noCmd)
        | _ => Db.Return (m, noCmd)
        end
      else Db.Return (m, noCmd)
  | WindowSizeMsg w h =>
      Db.Return
        ({| tables := tables m; selectedTable := selectedTable m;
            viewMode_ := viewMode_ m; tableData := tableData m;
            width := w; height := h;
            loading := loading m; error := error m; client := client m |}, noCmd)
  | tablesLoadedMsg ts =>
      Db.Return
        ({| tables := ts; selectedTable := selectedTable m;
            viewMode_ := viewMode_ m; tableData := tableData m;
            width := width m; height := height m;
            loading := false; error := error m; client := client m |}, noCmd)
  | tableInfoLoadedMsg info =>
      Db.Return
        ({| tables := tables m; selectedTable := selectedTable m;
            viewMode_ := viewMode_ m; tableData := info;
            width := width m; height := height m;
            loading := false; error := error m; client := client m |}, noCmd)
  | errorMsg e =>
      Db.Return
        ({| tables := tables m; selectedTable := selectedTable m;
            viewMode_ := viewMode_ m; tableData := tableData m;
            width := width m; height := height m;
            loading := false; error := e; client := client m |}, noCmd)
  | otherMsg => Db.Return (m, noCmd)
  end.

(** The model that [NewModel] builds around the client it is given by
    [NewDynamoClient]. *)
Definition NewModel (cl : Db.DynamoClient) : Model :=
  {| tables := []; selectedTable := 0; viewMode_ := tableListMode;
     tableData := None; width := 0; height := 0;
     loading := true; error := None; client := Some cl |}.

(** The messages of a session, one after the other. *)
Fixpoint run (m : Model) (msgs : list Msg) : Db.outcome Model :=
  match msgs with
  | [] => Db.Return m
  | msg :: rest =>
      match Update m msg with
      | Db.Return (m', _) => run m' rest
      | Db.Fail e => Db.Fail e
      | Db.Panic => Db.Panic
      end
  end.

(** Messages other than a list of tables, and other than an error. *)
Definition notTablesLoaded (msg : Msg) : Prop :=
  match msg with tablesLoadedMsg _ => False | _ => True end.

Definition notErrorMsg (msg : Msg) : Prop :=
  match msg with errorMsg _ => False | _ => True end.

(** The selection is an index of the list, or zero when the list is
    empty. *)
Definition selectionInRange (m : Model) : Prop :=
  0 <= selectedTable m /\ (selectedTable m < len (tables m) \/ selectedTable m = 0).

(** ** [View] *)

(** The line feed. *)
Definition nl : string := String (Ascii.ascii_of_nat 10) "".

Section View.

(** What [lipgloss] renders: the style of the titles
    ([NewStyle().Bold(true).Foreground(Color("#FFFF00")).Render]) and the
    bold style ([NewStyle().Bold(true).Render]). *)
Variable titleStyle : string -> string.
Variable boldStyle : string -> string.

(** The entries of the attribute map in the order in which the [range] of
    this call goes through them; Go picks the order anew at every [range]. *)
Variable entries : list (string * string).

(** The rows of the list view, from row [i] on. *)
Fixpoint tableRows (content : string) (i selected : Z) (tables : list string) : string :=
  match tables with
  | [] => content
  | table :: rest =>
      let content :=
        if i =? selected then content +:+ "> " +:+ table +:+ nl
        else content +:+ "  " +:+ table +:+ nl in
      tableRows content (i + 1) selected rest
  end.

(** The lines of a key schema, each after [indent]. *)
Definition keyLines (content indent : string) (schema : list Db.KeySchemaElement) : string :=
  fold_left
    (fun content key =>
       content +:+ indent +:+ Db.AttributeName key +:+ " (" +:+ Db.KeyType key +:+ ")" +:+ nl)
    schema content.

Definition attributeLines (content : string) (attrs : list (string * string)) : string :=
  fold_left
    (fun content attr => content +:+ "  " +:+ fst attr +:+ ": " +:+ snd attr +:+ nl)
    attrs content.

Definition indexLines (content : string) (indexes : list Db.IndexInfo) : string :=
  match indexes with
  | [] => content +:+ "  None" +:+ nl
  | _ :: _ =>
      fold_left
        (fun content index =>
           let content := content +:+ "  " +:+ Db.IndexName index +:+ ":" +:+ nl in
           let content := keyLines content "    " (Db.index_KeySchema index) in
           content +:+ nl)
        indexes content
  end.

Definition View (m : Model) : string :=
  if loading m then "Loading..."
  else
    match error m with
    | Some e => "Error: " +:+ e
    | None =>
        match viewMode_ m with
        | tableListMode =>
            let content := titleStyle "DynamoDB Tables" +:+ nl +:+ nl in
            let content := tableRows content 0 (selectedTable m) (tables m) in
            content +:+ nl +:+ "[↑/↓]: Navigate [Enter]: Select [Tab]: Switch View [q]: Quit"
        | tableViewMode =>
            match tableData m with
            | None => "Loading table data..."
            | Some data =>
                let content := titleStyle ("Table: " +:+ Db.TableName data) +:+ nl +:+ nl in
                let content := content +:+ "Primary Key:" +:+ nl in
                let content := keyLines content "  " (Db.KeySchema data) in
                let content := content +:+ nl +:+ "Attributes:" +:+ nl in
                let content := attributeLines content entries in
                content +:+ nl +:+ "[Tab]: View Indexes [q]: Quit"
            end
        | indexViewMode =>
            match tableData m with
            | None => "Loading table data..."
            | Some data =>
                let content := titleStyle ("Indexes: " +:+ Db.TableName data) +:+ nl +:+ nl in
                (* GSIs *)
                let content := content +:+ boldStyle "Global Secondary Indexes:" +:+ nl in
                let content := indexLines content (Db.GSIs data) in
                (* LSIs *)
                let content := content +:+ boldStyle "Local Secondary Indexes:" +:+ nl in
                let content := indexLines content (Db.LSIs data) in
                content +:+ nl +:+ "[Tab]: View Tables [q]: Quit"
            end
        end
    end.

End View.

(** An order in which a [range] may go through the map [m]: any arrangement
    of its entries. *)
Definition rangeOrder (m : gmap string string) (entries : list (string * string)) : Prop :=
  entries ≡ₚ map_to_list m.

(** The screens that a call of [View] may return for the model [m]: one for
    each order in which the [range] may go through the attributes of the
    description held. *)
Definition renders (titleStyle boldStyle : string -> string)
    (m : Model) (screen : string) : Prop :=
  exists entries,
    (forall data,
       tableData m = Some data -> rangeOrder (Db.AttributeDefinitions data) entries)
    /\ View titleStyle boldStyle entries m = screen.

(** Messages that do not end the loading: keys, sizes and any other but the
    three that the commands send. *)
Definition keepsLoading (msg : Msg) : Prop :=
  match msg with
  | tablesLoadedMsg _ | tableInfoLoadedMsg _ | errorMsg _ => False
  | _ => True
  end.

End Ui.

(** * Properties *)

(** ** The monad and the transport *)

Lemma total_app (l1 l2 : list Exchange) : total (l1 ++ l2) = total l1 + total l2.
Proof.
  induction l1 as [|ex l1 IH]; simpl.
  - reflexivity.
  - unfold total in *. simpl. rewrite IH. lia.
Qed.

Lemma total_fiveSeconds (log : list Exchange) :
  Forall fiveSeconds log -> total log = 5 * Second * Z.of_nat (length log).
Proof.
  induction 1 as [|ex log Hex _ IH].
  - reflexivity.
  - unfold total in *. simpl foldr. rewrite IH, Hex. simpl default.
    rewrite length_cons, Nat2Z.inj_succ. lia.
Qed.

(** An exchange under a limit ends, within the limit. *)
Lemma roundTrip_limit (t : Duration) (rep : Reply) :
  0 <= t ->
  exists d r, roundTrip (Some t) rep = Some (d, r) /\ 0 <= d <= t.
Proof.
  intros Ht. destruct rep as [|after|after resp]; simpl.
  - exists t, None. split; [reflexivity | lia].
  - destruct (t <=? Z.of_N after) eqn:E.
    + exists t, None. split; [reflexivity | lia].
    + exists (Z.of_N after), None. split; [reflexivity | lia].
  - destruct (t <=? Z.of_N after) eqn:E.
    + exists t, None. split; [reflexivity | lia].
    + exists (Z.of_N after), (Some resp). split; [reflexivity | lia].
Qed.

Lemma runs_pure {A} (P : Exchange -> Prop) (n : nat) (m : M A) :
  (forall w, (m w).2 = w) -> (forall w, (m w).1 <> Hung) -> runs P n m.
Proof.
  intros Hw Hr w. rewrite Hw. split; [reflexivity|]. split; [apply Hr|].
  exists []. rewrite app_nil_r. unfold total. simpl.
  repeat split; try lia. constructor.
Qed.

Lemma runs_ret {A} (P : Exchange -> Prop) (n : nat) (a : A) : runs P n (ret a).
Proof. apply runs_pure; intros w; simpl; congruence. Qed.

Lemma runs_fail {A} (P : Exchange -> Prop) (n : nat) (msg : string) : runs P n (@fail A msg).
Proof. apply runs_pure; intros w; simpl; congruence. Qed.

Lemma runs_lift {A} (P : Exchange -> Prop) (n : nat) (r : result A) : r <> Hung -> runs P n (lift r).
Proof. intros H. apply runs_pure; intros w; simpl; congruence. Qed.

Lemma runs_le {A} (P : Exchange -> Prop) (n n' : nat) (m : M A) : (n <= n')%nat -> runs P n m -> runs P n' m.
Proof.
  intros Hn H w. destruct (H w) as (Hnet & Hr & log & Hs & HP & Hl & Ht).
  split; [exact Hnet|]. split; [exact Hr|].
  exists log. repeat split; try assumption; lia.
Qed.

Lemma runs_try {A} (P : Exchange -> Prop) (n : nat) (m : M A) (msg : string) : runs P n m -> runs P n (try m msg).
Proof.
  intros H w. specialize (H w). unfold try.
  destruct (m w) as [[a|e|] w']; simpl in *; try exact H.
  destruct H as (Hnet & _ & H). split; [exact Hnet|]. split; [congruence | exact H].
Qed.

(** Sequencing: the logs follow one another. *)
Lemma runs_seq {A B} (P : Exchange -> Prop) (n1 n2 : nat) (m : M A) (k : result A -> M B) (f : M B) :
  runs P n1 m ->
  (forall r, r <> Hung -> runs P n2 (k r)) ->
  (forall w, f w = k (m w).1 (m w).2) ->
  runs P (n1 + n2) f.
Proof.
  intros Hm Hk Hf w. rewrite Hf.
  destruct (Hm w) as (Hnet & Hr & log1 & Hs1 & HP1 & Hl1 & Ht1).
  destruct (Hk (m w).1 Hr (m w).2) as (Hnet2 & Hr2 & log2 & Hs2 & HP2 & Hl2 & Ht2).
  split; [congruence|]. split; [exact Hr2|].
  exists (log1 ++ log2). rewrite Hs2, Hs1, app_assoc, total_app, length_app.
  repeat split; try lia. apply Forall_app; split; assumption.
Qed.

Lemma runs_bind {A B} (P : Exchange -> Prop) (n1 n2 : nat) (m : M A) (k : A -> M B) :
  runs P n1 m -> (forall a, runs P n2 (k a)) -> runs P (n1 + n2) (bind m k).
Proof.
  intros Hm Hk.
  apply (runs_seq P n1 n2 m
           (fun r => match r with Ok a => k a | Err e => fail e | Hung => lift Hung end)).
  - exact Hm.
  - intros [a|e|] Hr; [apply Hk | apply runs_fail | congruence].
  - intros w. unfold bind. destruct (m w) as [[a|e|] w']; reflexivity.
Qed.

Lemma runs_bind0 {A B} (P : Exchange -> Prop) (n : nat) (m : M A) (k : A -> M B) :
  runs P 0 m -> (forall a, runs P n (k a)) -> runs P n (bind m k).
Proof. intros Hm Hk. apply (runs_bind P 0 n); assumption. Qed.

Lemma runs_bind1 {A B} (P : Exchange -> Prop) (n : nat) (m : M A) (k : A -> M B) :
  runs P 1 m -> (forall a, runs P n (k a)) -> runs P (S n) (bind m k).
Proof. intros Hm Hk. apply (runs_bind P 1 n); assumption. Qed.


Lemma runs_orElse {A} (P : Exchange -> Prop) (n1 n2 : nat) (m rest : M A) :
  runs P n1 m -> runs P n2 rest -> runs P (n1 + n2) (orElse m rest).
Proof.
  intros Hm Hk.
  apply (runs_seq P n1 n2 m
           (fun r => match r with Ok a => ret a | Err _ => rest | Hung => lift Hung end)).
  - exact Hm.
  - intros [a|e|] Hr; [apply runs_ret | exact Hk | congruence].
  - intros w. unfold orElse. destruct (m w) as [[a|e|] w']; reflexivity.
Qed.

Lemma runs_impl {A} (P Q : Exchange -> Prop) (n : nat) (m : M A) :
  (forall ex, P ex -> Q ex) -> runs P n m -> runs Q n m.
Proof.
  intros HPQ H w. destruct (H w) as (Hnet & Hr & log & Hs & HP & Hl & Ht).
  split; [exact Hnet|]. split; [exact Hr|].
  exists log. repeat split; try assumption; try lia.
  eapply Forall_impl; eassumption.
Qed.

Lemma runs_Do (P : Exchange -> Prop) (c : Client) (req : Request) (t : Duration) :
  limit c req = Some t -> 0 <= t -> P (mkExchange req (Some t)) ->
  runs P 1 (Do c req).
Proof.
  intros Hl Ht HP w. unfold Do. rewrite Hl.
  destruct (roundTrip_limit t (network w (sent w) req) Ht) as (d & r & Hrt & Hd).
  rewrite Hrt.
  assert (Hlog : Forall P [mkExchange req (Some t)]) by (constructor; [exact HP | constructor]).
  destruct r as [resp|]; simpl; (split; [reflexivity|]); (split; [congruence|]);
    exists [mkExchange req (Some t)]; repeat split; try assumption; simpl;
    unfold total; simpl; lia.
Qed.

(** ** The strategies *)

Section Properties.
Variable valid_url : string -> bool.
Variable json_Decode : string -> option credResponse.
Variable time_Parse_RFC3339 : string -> option Time.

Local Abbreviation ECS := (getECSCredentials valid_url json_Decode time_Parse_RFC3339).
Local Abbreviation V1 := (getIMDSv1Credentials valid_url json_Decode time_Parse_RFC3339).
Local Abbreviation V2 := (getIMDSv2Credentials valid_url json_Decode time_Parse_RFC3339).
Local Abbreviation IMDS := (imdsStrategy valid_url json_Decode time_Parse_RFC3339).
Local Abbreviation Get := (GetCredentials valid_url json_Decode time_Parse_RFC3339).

Lemma NewRequestWithContext_Ok (c : option Duration) (method url : string) (req : Request) :
  NewRequestWithContext valid_url c method url = Ok req ->
  valid_url url = true /\ req = mkRequest method url [] c.
Proof.
  unfold NewRequestWithContext. destruct (valid_url url); intros H.
  - injection H as <-. split; reflexivity.
  - discriminate.
Qed.

Lemma NewRequest_not_Hung (c : option Duration) (method url : string) :
  NewRequestWithContext valid_url c method url <> Hung.
Proof. unfold NewRequestWithContext. destruct (valid_url url); congruence. Qed.

Lemma ReadAll_not_Hung (resp : Response) : ReadAll resp <> Hung.
Proof. unfold ReadAll. destruct (Body resp); congruence. Qed.

Lemma Decode_not_Hung (body : option string) : Decode json_Decode body <> Hung.
Proof.
  unfold Decode. destruct body as [s|]; [destruct (json_Decode s)|]; congruence.
Qed.

(** The tail of every strategy: the expiration, then the credentials. *)
Lemma runs_expiration (P : Exchange -> Prop) (n : nat) (e : string) (k : Time -> M Credentials) :
  (forall t, runs P n (k t)) ->
  runs P n
    (bind match time_Parse_RFC3339 e with
          | Some t => ret t
          | None => bind Now (fun t => ret (time_Add t (1 * Hour)))
          end k).
Proof.
  intros Hk. apply runs_bind0; [|exact Hk].
  destruct (time_Parse_RFC3339 e).
  - apply runs_ret.
  - apply runs_pure; intros w; simpl; congruence.
Qed.

Lemma runs_ext {A} (P : Exchange -> Prop) (n : nat) (m m' : M A) :
  (forall w, m' w = m w) -> runs P n m -> runs P n m'.
Proof. intros H Hm w. rewrite H. apply Hm. Qed.

(** A step that does not touch the network. *)
Lemma runs_bind_lift {A B} (P : Exchange -> Prop) (n : nat)
    (r : result A) (msg : string) (k : A -> M B) :
  r <> Hung -> (forall a, r = Ok a -> runs P n (k a)) ->
  runs P n (bind (try (lift r) msg) k).
Proof.
  intros Hr Hk. destruct r as [a|e|].
  - apply (runs_ext P n (k a)); [reflexivity | apply Hk; reflexivity].
  - apply (runs_ext P n (fail msg)); [reflexivity | apply runs_fail].
  - congruence.
Qed.

(** A step that is one exchange. *)
Lemma runs_bind_Do {B} (P : Exchange -> Prop) (n : nat)
    (c : Client) (req : Request) (t : Duration) (msg : string) (k : Response -> M B) :
  limit c req = Some t -> 0 <= t -> P (mkExchange req (Some t)) ->
  (forall resp, runs P n (k resp)) ->
  runs P (S n) (bind (try (Do c req) msg) k).
Proof.
  intros Hl Ht HP Hk. apply runs_bind1; [|exact Hk].
  apply runs_try. apply (runs_Do P c req t); assumption.
Qed.

Lemma runs_bind_Get {B} (P : Exchange -> Prop) (n : nat)
    (url msg : string) (k : Response -> M B) :
  P (mkExchange (mkRequest "GET" url [] None) (Some (5 * Second))) ->
  (forall resp, runs P n (k resp)) ->
  runs P (S n) (bind (try (client_Get valid_url (mkClient (5 * Second)) url) msg) k).
Proof.
  intros HP Hk. unfold client_Get, NewRequest, NewRequestWithContext.
  destruct (valid_url url).
  - apply (runs_ext P (S n)
             (bind (try (Do (mkClient (5 * Second)) (mkRequest "GET" url [] None)) msg) k));
      [reflexivity|].
    apply (runs_bind_Do P n _ _ (5 * Second)); try assumption; [reflexivity | unfold Second; lia].
  - apply (runs_ext P (S n) (fail msg)); [reflexivity | apply runs_fail].
Qed.

Lemma runs_status {A} (P : Exchange -> Prop) (n : nat) (b : bool) (msg : string) (m : M A) :
  runs P n m -> runs P n (if b then fail msg else m).
Proof. intros H. destruct b; [apply runs_fail | exact H]. Qed.

Lemma v1_runs : runs ofV1 2 V1.
Proof.
  unfold getIMDSv1Credentials.
  apply runs_bind_Get; [exists ""; reflexivity | intros resp].
  apply runs_status.
  apply runs_bind_lift; [apply ReadAll_not_Hung | intros roleName _].
  apply runs_bind_Get; [exists roleName; reflexivity | intros resp'].
  apply runs_status.
  apply runs_bind_lift; [apply Decode_not_Hung | intros dec _].
  apply runs_expiration. intros t. apply runs_ret.
Qed.

Lemma v2_runs : runs ofV2 3 V2.
Proof.
  unfold getIMDSv2Credentials.
  apply runs_bind_lift; [apply NewRequest_not_Hung | intros req Hreq].
  apply NewRequestWithContext_Ok in Hreq as [_ ->].
  apply (runs_bind_Do ofV2 2 _ _ (5 * Second));
    [reflexivity | unfold Second; lia | left; reflexivity | intros resp].
  apply runs_status.
  apply runs_bind_lift; [apply ReadAll_not_Hung | intros token _].
  apply runs_bind_lift; [apply NewRequest_not_Hung | intros req Hreq].
  apply NewRequestWithContext_Ok in Hreq as [_ ->].
  apply (runs_bind_Do ofV2 1 _ _ (5 * Second));
    [reflexivity | unfold Second; lia | right; exists token, ""; reflexivity | intros resp'].
  apply runs_status.
  apply runs_bind_lift; [apply ReadAll_not_Hung | intros roleName _].
  apply runs_bind_lift; [apply NewRequest_not_Hung | intros req Hreq].
  apply NewRequestWithContext_Ok in Hreq as [_ ->].
  apply (runs_bind_Do ofV2 0 _ _ (5 * Second));
    [reflexivity | unfold Second; lia | right; exists token, roleName; reflexivity | intros resp''].
  apply runs_status.
  apply runs_bind_lift; [apply Decode_not_Hung | intros dec _].
  apply runs_expiration. intros t. apply runs_ret.
Qed.

Lemma ecs_runs (env : Env) : runs (ofECS env) 1 (ECS env).
Proof.
  unfold getECSCredentials.
  apply runs_status.
  apply runs_bind_lift; [apply NewRequest_not_Hung | intros req Hreq].
  apply NewRequestWithContext_Ok in Hreq as [_ ->].
  apply (runs_bind_Do (ofECS env) 0 _ _ (5 * Second));
    [reflexivity | unfold Second; lia | reflexivity | intros resp].
  apply runs_status.
  apply runs_bind_lift; [apply Decode_not_Hung | intros dec _].
  apply runs_expiration. intros t. apply runs_ret.
Qed.


Lemma ofECS_toECS (env : Env) (ex : Exchange) : ofECS env ex -> toECS ex = true.
Proof. intros ->. reflexivity. Qed.

Lemma ofV1_toIMDS (ex : Exchange) : ofV1 ex -> toIMDS ex = true.
Proof. intros [suffix ->]. reflexivity. Qed.

Lemma ofV2_toIMDS (ex : Exchange) : ofV2 ex -> toIMDS ex = true.
Proof. intros [-> | (token & suffix & ->)]; reflexivity. Qed.

Lemma ofV1_legacy (ex : Exchange) : ofV1 ex -> legacy ex = true.
Proof. intros [suffix ->]. reflexivity. Qed.

Lemma ofV2_secured (ex : Exchange) : ofV2 ex -> secured ex = true.
Proof. intros [-> | (token & suffix & ->)]; reflexivity. Qed.

Lemma imds_runs (c : Config) : runs (fun ex => ofV1 ex \/ ofV2 ex) 5 (IMDS c).
Proof.
  unfold imdsStrategy.
  destruct (String.eqb (IMDSVersion c) "v1").
  - apply (runs_le _ 2); [lia|]. apply (runs_impl ofV1); [tauto | apply v1_runs].
  - destruct (String.eqb (IMDSVersion c) "v2").
    + apply (runs_le _ 3); [lia|]. apply (runs_impl ofV2); [tauto | apply v2_runs].
    + apply (runs_orElse _ 3 2).
      * apply (runs_impl ofV2); [tauto | apply v2_runs].
      * apply (runs_impl ofV1); [tauto | apply v1_runs].
Qed.

(** [GetCredentials] is the resolver of the specification. *)
Lemma GetCredentials_Resolve (c : Config) (env : Env) (w : World) :
  Get c env w = Resolve valid_url json_Decode time_Parse_RFC3339 c env w.
Proof.
  unfold GetCredentials, Resolve, firstSuccess, envStrategy, imdsStrategy,
    hasEnvironmentCredentials, environmentCredentials; simpl.
  destruct (negb _ && negb _); [reflexivity|].
  unfold orElse at 1. simpl.
  destruct (UseECSMetadata c), (UseIMDS c); reflexivity.
Qed.


(** ** When a strategy succeeds *)

Lemma status_200 (resp : Response) :
  negb (StatusCode resp =? 200) = false <-> StatusCode resp = 200.
Proof. rewrite negb_false_iff. apply Z.eqb_eq. Qed.

Lemma nonempty (s : string) : String.eqb s "" = false <-> s <> "".
Proof. apply String.eqb_neq. Qed.

Lemma withHeader_Ok (req : result Request) (key value : string) (r : Request) :
  withHeader req key value = Ok r <-> exists r0, req = Ok r0 /\ r = Header_Set r0 key value.
Proof.
  destruct req as [r0|e|]; simpl; split.
  - intros [= <-]. exists r0. split; reflexivity.
  - intros (r1 & [= <-] & ->). reflexivity.
  - discriminate.
  - intros (r1 & [=] & _).
  - discriminate.
  - intros (r1 & [=] & _).
Qed.

Lemma bind_Ok {A B} (m : M A) (k : A -> M B) (w : World) (b : B) (w' : World) :
  bind m k w = (Ok b, w') <-> exists a w1, m w = (Ok a, w1) /\ k a w1 = (Ok b, w').
Proof.
  unfold bind. destruct (m w) as [[a|e|] w1]; split.
  - intros H. exists a, w1. split; [reflexivity | exact H].
  - intros (a' & w1' & [= <- <-] & H). exact H.
  - discriminate.
  - intros (a' & w1' & [=] & _).
  - discriminate.
  - intros (a' & w1' & [=] & _).
Qed.

Lemma try_Ok {A} (m : M A) (msg : string) (w : World) (a : A) (w' : World) :
  try m msg w = (Ok a, w') <-> m w = (Ok a, w').
Proof.
  unfold try. destruct (m w) as [[a'|e|] w1]; split; intros H;
    solve [exact H | discriminate H].
Qed.

Lemma lift_Ok {A} (r : result A) (w : World) (a : A) (w' : World) :
  lift r w = (Ok a, w') <-> r = Ok a /\ w' = w.
Proof.
  unfold lift. split.
  - intros [= -> ->]. split; reflexivity.
  - intros (-> & ->). reflexivity.
Qed.

Lemma pure_Ok {A} (r : result A) (msg : string) (w : World) (a : A) (w' : World) :
  try (lift r) msg w = (Ok a, w') <-> r = Ok a /\ w' = w.
Proof. rewrite try_Ok. apply lift_Ok. Qed.

Lemma check_Ok {A} (resp : Response) (msg : string) (m : M A)
    (w : World) (a : A) (w' : World) :
  (if negb (StatusCode resp =? 200) then fail msg else m) w = (Ok a, w') <->
  StatusCode resp = 200 /\ m w = (Ok a, w').
Proof.
  destruct (negb (StatusCode resp =? 200)) eqn:E.
  - split; [discriminate|]. intros (H & _). apply status_200 in H. congruence.
  - apply status_200 in E. split; [intros H; split; assumption | intros (_ & H); exact H].
Qed.

Lemma ReadAll_Ok (resp : Response) (s : string) :
  ReadAll resp = Ok s <-> Body resp = Some s.
Proof.
  unfold ReadAll. destruct (Body resp) as [b|]; split; intros H;
    solve [injection H as ->; reflexivity | discriminate H].
Qed.

Lemma Decode_Ok (body : option string) (dec : credResponse) :
  Decode json_Decode body = Ok dec <->
  exists s, body = Some s /\ json_Decode s = Some dec.
Proof.
  unfold Decode. destruct body as [s|].
  - destruct (json_Decode s) as [d|] eqn:E; split.
    + intros [= <-]. exists s. split; [reflexivity | exact E].
    + intros (s' & [= <-] & H). congruence.
    + discriminate.
    + intros (s' & [= <-] & H). congruence.
  - split; [discriminate | intros (s' & [=] & _)].
Qed.

Lemma client_Get_Ok (c : Client) (url : string) (w : World) (resp : Response) (w' : World) :
  client_Get valid_url c url w = (Ok resp, w') <->
  exists r, NewRequest valid_url "GET" url = Ok r /\ Do c r w = (Ok resp, w').
Proof.
  unfold client_Get. rewrite bind_Ok. split.
  - intros (r & w1 & H1 & H2). apply lift_Ok in H1 as (H1 & ->). exists r. split; assumption.
  - intros (r & H1 & H2). exists r, w. split; [apply lift_Ok; split; [exact H1 | reflexivity] | exact H2].
Qed.

(** The tail of every strategy. *)
Lemma expiration_Ok (dec : credResponse) (w : World) (cr : Credentials) (w' : World) :
  bind match time_Parse_RFC3339 (resp_Expiration dec) with
       | Some t => ret t
       | None => bind Now (fun t => ret (time_Add t (1 * Hour)))
       end
    (fun expiration =>
       ret {| AccessKeyID := resp_AccessKeyID dec;
              SecretAccessKey := resp_SecretAccessKey dec;
              SessionToken := resp_Token dec;
              Expiration := expiration |}) w = (Ok cr, w') <->
  cr = credentialsOf time_Parse_RFC3339 dec (now w) /\ w' = w.
Proof.
  unfold credentialsOf, bind, ret, Now.
  destruct (time_Parse_RFC3339 (resp_Expiration dec)); split.
  - intros [= <- <-]. split; reflexivity.
  - intros (-> & ->). reflexivity.
  - intros [= <- <-]. split; reflexivity.
  - intros (-> & ->). reflexivity.
Qed.

(** The last step of every strategy: the status, the body, the expiration. *)
Lemma decode_Ok (resp : Response) (msg1 msg2 : string)
    (w : World) (cr : Credentials) (w' : World) :
  (if negb (StatusCode resp =? 200) then fail msg1 else
   bind (try (lift (Decode json_Decode (Body resp))) msg2)
     (fun credResponse =>
        bind match time_Parse_RFC3339 (resp_Expiration credResponse) with
             | Some t => ret t
             | None => bind Now (fun t => ret (time_Add t (1 * Hour)))
             end
          (fun expiration =>
             ret {| AccessKeyID := resp_AccessKeyID credResponse;
                    SecretAccessKey := resp_SecretAccessKey credResponse;
                    SessionToken := resp_Token credResponse;
                    Expiration := expiration |}))) w = (Ok cr, w') <->
  exists body dec,
    StatusCode resp = 200 /\ Body resp = Some body /\ json_Decode body = Some dec
    /\ cr = credentialsOf time_Parse_RFC3339 dec (now w) /\ w' = w.
Proof.
  rewrite check_Ok, bind_Ok. split.
  - intros (Hst & dec & w1 & Hd & H).
    apply pure_Ok in Hd as (Hd & ->). apply Decode_Ok in Hd as (body & Hb & Hd).
    apply expiration_Ok in H as (-> & ->).
    exists body, dec. repeat split; assumption.
  - intros (body & dec & Hst & Hb & Hd & -> & ->). split; [exact Hst|].
    exists dec, w. split.
    + apply pure_Ok. split; [|reflexivity]. apply Decode_Ok. exists body. split; assumption.
    + apply expiration_Ok. split; reflexivity.
Qed.

(** A step whose body is read whole: the status, then the body. *)
Lemma read_Ok {A} (resp : Response) (msg1 msg2 : string) (k : string -> M A)
    (w : World) (a : A) (w' : World) :
  (if negb (StatusCode resp =? 200) then fail msg1 else
   bind (try (lift (ReadAll resp)) msg2) k) w = (Ok a, w') <->
  exists body, StatusCode resp = 200 /\ Body resp = Some body /\ k body w = (Ok a, w').
Proof.
  rewrite check_Ok, bind_Ok. split.
  - intros (Hst & body & w1 & Hr & H). apply pure_Ok in Hr as (Hr & ->).
    apply ReadAll_Ok in Hr. exists body. repeat split; assumption.
  - intros (body & Hst & Hb & H). split; [exact Hst|]. exists body, w. split; [|exact H].
    apply pure_Ok. split; [apply ReadAll_Ok; exact Hb | reflexivity].
Qed.

Lemma ecs_Ok_iff (env : Env) (w : World) (cr : Credentials) (w' : World) :
  ECS env w = (Ok cr, w') <->
  exists dec,
    ecs_decodes valid_url json_Decode env w dec w'
    /\ cr = credentialsOf time_Parse_RFC3339 dec (now w').
Proof.
  unfold ecs_decodes, exchange200, getECSCredentials.
  destruct (String.eqb (Getenv env "AWS_CONTAINER_CREDENTIALS_RELATIVE_URI") "") eqn:Hrel.
  { apply String.eqb_eq in Hrel. split; [discriminate|]. intros (dec & (Hne & _) & _). congruence. }
  apply nonempty in Hrel. rewrite bind_Ok. split.
  - intros (req & w0 & Hreq & H). apply pure_Ok in Hreq as (Hreq & ->).
    apply bind_Ok in H as (resp & w1 & HDo & H). apply try_Ok in HDo.
    apply decode_Ok in H as (body & dec & Hst & Hb & Hd & -> & ->).
    exists dec. split; [|reflexivity]. split; [exact Hrel|].
    exists body. split; [|exact Hd]. exists req, resp. repeat split; assumption.
  - intros (dec & (_ & body & (req & resp & Hreq & HDo & Hst & Hb) & Hd) & ->).
    exists req, w. split; [apply pure_Ok; split; [exact Hreq | reflexivity]|].
    apply bind_Ok. exists resp, w'. split; [apply try_Ok; exact HDo|].
    apply decode_Ok. exists body, dec. repeat split; assumption.
Qed.

Lemma v1_Ok_iff (w : World) (cr : Credentials) (w' : World) :
  V1 w = (Ok cr, w') <->
  exists dec,
    v1_decodes valid_url json_Decode w dec w'
    /\ cr = credentialsOf time_Parse_RFC3339 dec (now w').
Proof.
  unfold v1_decodes, exchange200, getIMDSv1Credentials. rewrite bind_Ok. split.
  - intros (resp1 & w1 & HG1 & H). apply try_Ok, client_Get_Ok in HG1 as (r1 & Hr1 & HDo1).
    apply read_Ok in H as (role & Hst1 & Hb1 & H).
    apply bind_Ok in H as (resp2 & w2 & HG2 & H).
    apply try_Ok, client_Get_Ok in HG2 as (r2 & Hr2 & HDo2).
    apply decode_Ok in H as (body & dec & Hst2 & Hb2 & Hd & -> & ->).
    exists dec. split; [|reflexivity]. exists role, w1, body.
    split; [exists r1, resp1; repeat split; assumption|].
    split; [exists r2, resp2; repeat split; assumption | exact Hd].
  - intros (dec & (role & w1 & body & (r1 & resp1 & Hr1 & HDo1 & Hst1 & Hb1)
                   & (r2 & resp2 & Hr2 & HDo2 & Hst2 & Hb2) & Hd) & ->).
    exists resp1, w1. split; [apply try_Ok, client_Get_Ok; exists r1; split; assumption|].
    apply read_Ok. exists role. split; [exact Hst1|]. split; [exact Hb1|].
    apply bind_Ok. exists resp2, w'.
    split; [apply try_Ok, client_Get_Ok; exists r2; split; assumption|].
    apply decode_Ok. exists body, dec. repeat split; assumption.
Qed.

Lemma v2_Ok_iff (w : World) (cr : Credentials) (w' : World) :
  V2 w = (Ok cr, w') <->
  exists dec,
    v2_decodes valid_url json_Decode w dec w'
    /\ cr = credentialsOf time_Parse_RFC3339 dec (now w').
Proof.
  unfold v2_decodes, exchange200, getIMDSv2Credentials. rewrite bind_Ok. split.
  - intros (q1 & w0 & Hq1 & H). apply pure_Ok in Hq1 as (Hq1 & ->).
    apply bind_Ok in H as (resp1 & w1 & HDo1 & H). apply try_Ok in HDo1.
    apply read_Ok in H as (token & Hst1 & Hb1 & H).
    apply bind_Ok in H as (q2 & w0 & Hq2 & H). apply pure_Ok in Hq2 as (Hq2 & ->).
    apply bind_Ok in H as (resp2 & w2 & HDo2 & H). apply try_Ok in HDo2.
    apply read_Ok in H as (role & Hst2 & Hb2 & H).
    apply bind_Ok in H as (q3 & w0 & Hq3 & H). apply pure_Ok in Hq3 as (Hq3 & ->).
    apply bind_Ok in H as (resp3 & w3 & HDo3 & H). apply try_Ok in HDo3.
    apply decode_Ok in H as (body & dec & Hst3 & Hb3 & Hd & -> & ->).
    exists dec. split; [|reflexivity]. exists token, w1, role, w2, body.
    split; [eexists _, resp1; split; [apply withHeader_Ok; exists q1; split; [exact Hq1 | reflexivity]|];
            repeat split; assumption|].
    split; [eexists _, resp2; split; [apply withHeader_Ok; exists q2; split; [exact Hq2 | reflexivity]|];
            repeat split; assumption|].
    split; [eexists _, resp3; split; [apply withHeader_Ok; exists q3; split; [exact Hq3 | reflexivity]|];
            repeat split; assumption | exact Hd].
  - intros (dec & (token & w1 & role & w2 & body
                   & (r1 & resp1 & Hr1 & HDo1 & Hst1 & Hb1)
                   & (r2 & resp2 & Hr2 & HDo2 & Hst2 & Hb2)
                   & (r3 & resp3 & Hr3 & HDo3 & Hst3 & Hb3) & Hd) & ->).
    apply withHeader_Ok in Hr1 as (q1 & Hq1 & ->).
    apply withHeader_Ok in Hr2 as (q2 & Hq2 & ->).
    apply withHeader_Ok in Hr3 as (q3 & Hq3 & ->).
    exists q1, w. split; [apply pure_Ok; split; [exact Hq1 | reflexivity]|].
    apply bind_Ok. exists resp1, w1. split; [apply try_Ok; exact HDo1|].
    apply read_Ok. exists token. split; [exact Hst1|]. split; [exact Hb1|].
    apply bind_Ok. exists q2, w1. split; [apply pure_Ok; split; [exact Hq2 | reflexivity]|].
    apply bind_Ok. exists resp2, w2. split; [apply try_Ok; exact HDo2|].
    apply read_Ok. exists role. split; [exact Hst2|]. split; [exact Hb2|].
    apply bind_Ok. exists q3, w2. split; [apply pure_Ok; split; [exact Hq3 | reflexivity]|].
    apply bind_Ok. exists resp3, w'. split; [apply try_Ok; exact HDo3|].
    apply decode_Ok. exists body, dec. repeat split; assumption.
Qed.

(** ** The resolver *)

Lemma GetCredentials_unfold (c : Config) (env : Env) (w : World) :
  Get c env w =
  if hasEnvironmentCredentials env then (Ok (environmentCredentials env), w)
  else
    (if UseECSMetadata c then orElse (ECS env) else id)
      ((if UseIMDS c then orElse (IMDS c) else id)
         (fail "unable to locate AWS credentials")) w.
Proof.
  unfold GetCredentials, hasEnvironmentCredentials, environmentCredentials, imdsStrategy.
  simpl. destruct (negb _ && negb _); reflexivity.
Qed.

(** The instance-metadata stage, from the world [w1] it starts in. *)
Lemma imds_stage (P : Exchange -> Prop) (n : nat) (c : Config) (w1 : World) :
  runs P n (IMDS c) ->
  let m := (if UseIMDS c then orElse (IMDS c) else id)
             (fail "unable to locate AWS credentials") in
  (m w1).1 <> Hung
  /\ (forall e, (m w1).1 = Err e -> e = "unable to locate AWS credentials")
  /\ network (m w1).2 = network w1
  /\ exists I,
       sent (m w1).2 = sent w1 ++ I
       /\ Forall P I
       /\ (UseIMDS c = false -> I = [])
       /\ (length I <= n)%nat
       /\ now w1 <= now (m w1).2 <= now w1 + total I.
Proof.
  intros Hruns m. subst m. destruct (UseIMDS c).
  - destruct (Hruns w1) as (Hnet & Hr & I & Hs & HP & Hl & Ht).
    unfold orElse, fail. destruct (IMDS c w1) as [[cr|e|] w2]; cbn [fst snd] in *.
    + split_and!; [congruence | congruence | assumption |].
      exists I. split_and!; [assumption | assumption | discriminate | lia | lia | lia].
    + split_and!; [congruence | congruence | assumption |].
      exists I. split_and!; [assumption | assumption | discriminate | lia | lia | lia].
    + congruence.
  - unfold id, fail. cbn [fst snd].
    split_and!; [congruence | congruence | reflexivity |].
    exists []. rewrite app_nil_r. unfold total. cbn [foldr].
    split_and!; [reflexivity | constructor | reflexivity | simpl; lia | lia | lia].
Qed.

(** The stages of [GetCredentials]: the exchanges of the container stage,
    then those of the instance-metadata stage. *)
Lemma GetCredentials_stages (P : Exchange -> Prop) (n : nat)
    (c : Config) (env : Env) (w : World) :
  runs P n (IMDS c) ->
  exists E I,
    sent (Get c env w).2 = sent w ++ E ++ I
    /\ Forall (ofECS env) E
    /\ Forall P I
    /\ (length E <= 1)%nat /\ (length I <= n)%nat
    /\ (hasEnvironmentCredentials env = true -> E = [] /\ I = [])
    /\ (UseECSMetadata c = false -> E = [])
    /\ (UseIMDS c = false -> I = [])
    /\ (forall cr w1,
          hasEnvironmentCredentials env = false -> UseECSMetadata c = true ->
          ECS env w = (Ok cr, w1) -> I = [])
    /\ (Get c env w).1 <> Hung
    /\ (forall e, (Get c env w).1 = Err e -> e = "unable to locate AWS credentials")
    /\ now w <= now (Get c env w).2 <= now w + total (E ++ I)
    /\ network (Get c env w).2 = network w.
Proof.
  intros Hruns. rewrite GetCredentials_unfold.
  destruct (hasEnvironmentCredentials env) eqn:Henv.
  { exists [], []. cbn [fst snd app length]. rewrite app_nil_r. unfold total. cbn [foldr].
    split_and!; try reflexivity; try constructor; try discriminate; try lia.
    all: reflexivity. }
  destruct (UseECSMetadata c) eqn:Hecs.
  - destruct (ecs_runs env w) as (Hnet & Hr & E & Hs & HP & Hl & Ht).
    set (K := (if UseIMDS c then orElse (IMDS c) else id)
                (fail "unable to locate AWS credentials")).
    change (orElse (ECS env) K w)
      with (match ECS env w with (Err _, w') => K w' | r => r end).
    destruct (ECS env w) as [[cr|e|] w1] eqn:HE; cbn [fst snd] in *; subst K.
    + exists E, []. rewrite !app_nil_r.
      split_and!; try assumption; try discriminate; try reflexivity; try lia;
        try (simpl; lia).
      constructor.
    + destruct (imds_stage P n c w1 Hruns) as (Hr2 & He2 & Hnet2 & I & Hs2 & HP2 & HI & Hl2 & Ht2).
      cbv zeta in *. exists E, I. rewrite app_assoc, <- Hs, total_app.
      split_and!; try assumption; try discriminate; try lia.
      congruence.
    + congruence.
  - destruct (imds_stage P n c w Hruns) as (Hr2 & He2 & Hnet2 & I & Hs2 & HP2 & HI & Hl2 & Ht2).
    cbv zeta in *.
    change (id ?f w) with (f w).
    exists [], I. cbn [app length].
    split_and!; try assumption; try discriminate; try reflexivity; try lia.
    constructor.
Qed.

Local Abbreviation Fetch := (fetch valid_url json_Decode time_Parse_RFC3339).
Local Abbreviation Decodes := (decodes valid_url json_Decode).
Local Abbreviation Selects := (selects valid_url json_Decode time_Parse_RFC3339).
Local Abbreviation Reaches := (reachesIMDS valid_url json_Decode time_Parse_RFC3339).

Lemma fetch_Ok_iff (s : Strategy) (env : Env) (w : World) (cr : Credentials) (w' : World) :
  Fetch s env w = (Ok cr, w') <->
  exists dec,
    Decodes s env w dec w' /\ cr = credentialsOf time_Parse_RFC3339 dec (now w').
Proof.
  destruct s; simpl; [apply ecs_Ok_iff | apply v1_Ok_iff | apply v2_Ok_iff].
Qed.

Lemma fetch_runs (s : Strategy) (env : Env) :
  runs (fun ex => ofECS env ex \/ ofV1 ex \/ ofV2 ex) 3 (Fetch s env).
Proof.
  destruct s; simpl.
  - apply (runs_le _ 1); [lia|]. apply (runs_impl (ofECS env)); [tauto | apply ecs_runs].
  - apply (runs_le _ 2); [lia|]. apply (runs_impl ofV1); [tauto | apply v1_runs].
  - apply (runs_impl ofV2); [tauto | apply v2_runs].
Qed.

Lemma eqb_v (s v : string) : s <> v -> String.eqb s v = false.
Proof. apply String.eqb_neq. Qed.

(** The world in which the instance-metadata stage starts. *)
Lemma GetCredentials_reaches (c : Config) (env : Env) (w w1 : World) :
  Reaches c env w w1 ->
  Get c env w =
  (if UseIMDS c then orElse (IMDS c) else id) (fail "unable to locate AWS credentials") w1.
Proof.
  intros (Henv & [(Hecs & ->) | (Hecs & e & HE)]);
    rewrite GetCredentials_unfold, Henv, Hecs.
  - reflexivity.
  - unfold orElse at 1. rewrite HE. reflexivity.
Qed.

(** The first strategy that succeeds gives the result. *)
Lemma selects_returns (c : Config) (env : Env) (w0 : World) (s : Strategy)
    (w : World) (cr : Credentials) (w' : World) :
  Selects c env w0 s w -> Fetch s env w = (Ok cr, w') ->
  Get c env w0 = (Ok cr, w').
Proof.
  destruct s; simpl.
  - intros (Henv & Hecs & ->) H.
    rewrite GetCredentials_unfold, Henv, Hecs. unfold orElse at 1. rewrite H. reflexivity.
  - intros (Himds & w1 & Hreach & Hsel) H.
    rewrite (GetCredentials_reaches c env w0 w1 Hreach), Himds.
    unfold imdsStrategy, orElse.
    destruct Hsel as [(Hv & ->) | (Hv1 & Hv2 & e & HV2)].
    + rewrite Hv. simpl. rewrite H. reflexivity.
    + rewrite (eqb_v _ _ Hv1), (eqb_v _ _ Hv2), HV2, H. reflexivity.
  - intros (Hreach & Himds & Hv1) H.
    rewrite (GetCredentials_reaches c env w0 w Hreach), Himds.
    unfold imdsStrategy, orElse. rewrite (eqb_v _ _ Hv1).
    destruct (String.eqb (IMDSVersion c) "v2"); rewrite H; reflexivity.
Qed.


(** ** Precedence *)

(** C1. For every environment and configuration, [GetCredentials] is the
    ordered fallback of the specification over the environment strategy,
    the container strategy and the instance-metadata strategy, in that
    order: it returns the result of the first applicable strategy that
    succeeds, and an error of a strategy only makes it go on to the next
    one.  Its exchanges are those of the container stage followed by those
    of the instance-metadata stage; none is started once the environment
    strategy has succeeded, and none of the instance-metadata stage once the
    container strategy has succeeded.

    The success of a strategy that [GetCredentials] runs, whichever it is,
    is the result of [GetCredentials].  A failure is not fatal: when the
    container strategy is skipped, or has failed, whatever it has sent, the
    instance-metadata stage runs next, in the world that is left; in that
    stage, with a version other than [v1] and [v2], a failure of the secured
    flow, whatever it has sent, is followed by the legacy flow.  Only when
    the last applicable strategy has failed does [GetCredentials] fail,
    with the error of exhaustion. *)
Theorem GetCredentials_precedence (c : Config) (env : Env) (w : World) :
  Get c env w = Resolve valid_url json_Decode time_Parse_RFC3339 c env w
  /\ (exists E I,
        sent (Get c env w).2 = sent w ++ E ++ I
        /\ Forall (fun ex => toECS ex = true) E
        /\ Forall (fun ex => toIMDS ex = true) I
        /\ (UseECSMetadata c = false -> E = [])
        /\ (UseIMDS c = false -> I = [])
        /\ (hasEnvironmentCredentials env = true ->
            Get c env w = (Ok (environmentCredentials env), w) /\ E = [] /\ I = [])
        /\ (forall cr w1,
              hasEnvironmentCredentials env = false -> UseECSMetadata c = true ->
              ECS env w = (Ok cr, w1) ->
              Get c env w = (Ok cr, w1) /\ I = []))
  /\ (forall s w1 cr w',
        Selects c env w s w1 -> Fetch s env w1 = (Ok cr, w') ->
        Get c env w = (Ok cr, w'))
  /\ (forall w1,
        hasEnvironmentCredentials env = false ->
        (UseECSMetadata c = false /\ w1 = w
         \/ UseECSMetadata c = true /\ exists e, ECS env w = (Err e, w1)) ->
        (UseIMDS c = false ->
         Get c env w = (Err "unable to locate AWS credentials", w1))
        /\ (UseIMDS c = true -> IMDSVersion c = "v1" ->
            (forall cr w', V1 w1 = (Ok cr, w') -> Get c env w = (Ok cr, w'))
            /\ (forall e w', V1 w1 = (Err e, w') ->
                Get c env w = (Err "unable to locate AWS credentials", w')))
        /\ (UseIMDS c = true -> IMDSVersion c <> "v1" ->
            (forall cr w', V2 w1 = (Ok cr, w') -> Get c env w = (Ok cr, w'))
            /\ (forall e w2,
                  V2 w1 = (Err e, w2) ->
                  (IMDSVersion c = "v2" ->
                   Get c env w = (Err "unable to locate AWS credentials", w2))
                  /\ (IMDSVersion c <> "v2" ->
                      (forall cr w', V1 w2 = (Ok cr, w') -> Get c env w = (Ok cr, w'))
                      /\ (forall e' w',
                            V1 w2 = (Err e', w') ->
                            Get c env w = (Err "unable to locate AWS credentials", w')))))).
Proof.
  split; [apply GetCredentials_Resolve|]. split_and!.
  - destruct (GetCredentials_stages _ 5 c env w (imds_runs c))
      as (E & I & Hs & HE & HI & _ & _ & Henv & Hecs & Himds & Hstop & _).
    exists E, I. split_and!; try assumption.
    + eapply Forall_impl; [exact HE | apply ofECS_toECS].
    + eapply Forall_impl; [exact HI|].
      intros ex [H|H]; [apply ofV1_toIMDS | apply ofV2_toIMDS]; exact H.
    + intros H. split; [|apply Henv; exact H].
      rewrite GetCredentials_unfold, H. reflexivity.
    + intros cr w1 H1 H2 H3. split; [|apply (Hstop cr w1); assumption].
      apply (selects_returns c env w ContainerMetadata w); [|exact H3].
      simpl. split_and!; [assumption | assumption | reflexivity].
  - intros s w1 cr w'. apply selects_returns.
  - intros w1 Henv Hreach.
    pose proof (GetCredentials_reaches c env w w1 (conj Henv Hreach)) as HG.
    split_and!.
    + intros Hi. rewrite HG, Hi. reflexivity.
    + intros Hi Hv. rewrite HG, Hi. unfold imdsStrategy, orElse.
      rewrite (proj2 (String.eqb_eq _ _) Hv).
      split; [intros cr w' ->; reflexivity | intros e w' ->; reflexivity].
    + intros Hi Hv1. rewrite HG, Hi. unfold imdsStrategy.
      rewrite (proj2 (String.eqb_neq _ _) Hv1). split.
      * intros cr w' H. unfold orElse.
        destruct (String.eqb (IMDSVersion c) "v2"); rewrite H; reflexivity.
      * intros e w2 H. split.
        -- intros Hv2. rewrite (proj2 (String.eqb_eq _ _) Hv2).
           unfold orElse. rewrite H. reflexivity.
        -- intros Hv2. rewrite (proj2 (String.eqb_neq _ _) Hv2).
           unfold orElse. rewrite H.
           split; [intros cr w' ->; reflexivity | intros e' w' ->; reflexivity].
Qed.

(** A result of [GetCredentials] that does not come from the environment
    is the result of a metadata strategy that it has selected. *)
Lemma imds_Ok_inv (c : Config) (env : Env) (w w1 : World) (cr : Credentials) (w' : World) :
  Reaches c env w w1 ->
  (if UseIMDS c then orElse (IMDS c) else id)
    (fail "unable to locate AWS credentials") w1 = (Ok cr, w') ->
  exists s w2, Selects c env w s w2 /\ Fetch s env w2 = (Ok cr, w').
Proof.
  intros Hreach. destruct (UseIMDS c) eqn:Himds; [|discriminate].
  unfold imdsStrategy, fail. unfold orElse.
  destruct (String.eqb (IMDSVersion c) "v1") eqn:E1.
  - apply String.eqb_eq in E1.
    destruct (V1 w1) as [[cr1|e|] w2] eqn:HV1; [|discriminate..].
    intros [= -> ->]. exists InstanceMetadataV1, w1. split; [|exact HV1].
    simpl. split; [exact Himds|]. exists w1. split; [exact Hreach|]. left. split; [exact E1 | reflexivity].
  - apply String.eqb_neq in E1.
    destruct (String.eqb (IMDSVersion c) "v2") eqn:E2.
    + destruct (V2 w1) as [[cr1|e|] w2] eqn:HV2; [|discriminate..].
      intros [= -> ->]. exists InstanceMetadataV2, w1. split; [|exact HV2].
      simpl. split_and!; assumption.
    + apply String.eqb_neq in E2.
      destruct (V2 w1) as [[cr1|e|] w2] eqn:HV2; [| |discriminate].
      * intros [= -> ->]. exists InstanceMetadataV2, w1. split; [|exact HV2].
        simpl. split_and!; assumption.
      * destruct (V1 w2) as [[cr1|e1|] w3] eqn:HV1; [|discriminate..].
        intros [= -> ->]. exists InstanceMetadataV1, w2. split; [|exact HV1].
        simpl. split; [exact Himds|]. exists w1. split; [exact Hreach|].
        right. split_and!; [assumption | assumption | exists e; exact HV2].
Qed.

Lemma GetCredentials_Ok_inv (c : Config) (env : Env) (w : World) (cr : Credentials) (w' : World) :
  hasEnvironmentCredentials env = false ->
  Get c env w = (Ok cr, w') ->
  exists s w1, Selects c env w s w1 /\ Fetch s env w1 = (Ok cr, w').
Proof.
  intros Henv. rewrite GetCredentials_unfold, Henv.
  destruct (UseECSMetadata c) eqn:Hecs.
  - change (orElse (ECS env) ?K w)
      with (match ECS env w with (Err _, w1) => K w1 | r => r end).
    destruct (ECS env w) as [[cr1|e|] w1] eqn:HE; [| |discriminate].
    + intros [= -> ->]. exists ContainerMetadata, w. split; [|exact HE].
      simpl. split_and!; [assumption | assumption | reflexivity].
    + apply imds_Ok_inv. split; [exact Henv|]. right. split; [exact Hecs | exists e; exact HE].
  - change (id ?f w) with (f w).
    apply imds_Ok_inv. split; [exact Henv|]. left. split; [exact Hecs | reflexivity].
Qed.

(** ** The environment strategy *)

Lemma hasEnvironmentCredentials_true (env : Env) :
  hasEnvironmentCredentials env = true <->
  Getenv env "AWS_ACCESS_KEY_ID" <> "" /\ Getenv env "AWS_SECRET_ACCESS_KEY" <> "".
Proof.
  unfold hasEnvironmentCredentials.
  rewrite andb_true_iff, !negb_true_iff, !nonempty. reflexivity.
Qed.

Lemma hasEnvironmentCredentials_false (env : Env) :
  hasEnvironmentCredentials env = false <->
  Getenv env "AWS_ACCESS_KEY_ID" = "" \/ Getenv env "AWS_SECRET_ACCESS_KEY" = "".
Proof.
  unfold hasEnvironmentCredentials.
  rewrite andb_false_iff, !negb_false_iff, !String.eqb_eq. reflexivity.
Qed.

(** C2. When both [AWS_ACCESS_KEY_ID] and [AWS_SECRET_ACCESS_KEY] are
    non-empty, [GetCredentials] returns exactly those values, with the value
    of [AWS_SESSION_TOKEN] (empty when it is not set), in the world it
    started in: no exchange, no time spent.  When one of the two is empty,
    the environment is passed over: the result is that of the ordered
    fallback over the remaining strategies, started in the same world, and
    it is not the environment's credentials unless a metadata strategy
    returns them. *)
Theorem environment_strategy (c : Config) (env : Env) (w : World) :
  (Getenv env "AWS_ACCESS_KEY_ID" <> "" -> Getenv env "AWS_SECRET_ACCESS_KEY" <> "" ->
   Get c env w =
   (Ok {| AccessKeyID := Getenv env "AWS_ACCESS_KEY_ID";
          SecretAccessKey := Getenv env "AWS_SECRET_ACCESS_KEY";
          SessionToken := default "" (env !! "AWS_SESSION_TOKEN");
          Expiration := time_zero |}, w))
  /\ (Getenv env "AWS_ACCESS_KEY_ID" = "" \/ Getenv env "AWS_SECRET_ACCESS_KEY" = "" ->
      Get c env w =
      firstSuccess [ (UseECSMetadata c, ECS env); (UseIMDS c, IMDS c) ] w
      /\ forall cr w',
           Get c env w = (Ok cr, w') ->
           exists s w1, Selects c env w s w1 /\ Fetch s env w1 = (Ok cr, w')).
Proof.
  split.
  - intros Hk Hs. rewrite GetCredentials_unfold.
    rewrite (proj2 (hasEnvironmentCredentials_true env) (conj Hk Hs)). reflexivity.
  - intros H. apply hasEnvironmentCredentials_false in H.
    split.
    + rewrite GetCredentials_unfold, H. simpl.
      destruct (UseECSMetadata c), (UseIMDS c); reflexivity.
    + intros cr w'. apply GetCredentials_Ok_inv. exact H.
Qed.


(** ** Timeouts *)

Lemma ofECS_fiveSeconds (env : Env) (ex : Exchange) : ofECS env ex -> fiveSeconds ex.
Proof. intros ->. reflexivity. Qed.

Lemma ofV1_fiveSeconds (ex : Exchange) : ofV1 ex -> fiveSeconds ex.
Proof. intros [suffix ->]. reflexivity. Qed.

Lemma ofV2_fiveSeconds (ex : Exchange) : ofV2 ex -> fiveSeconds ex.
Proof. intros [-> | (token & suffix & ->)]; reflexivity. Qed.

Lemma fetch_fiveSeconds (s : Strategy) (env : Env) : runs fiveSeconds 3 (Fetch s env).
Proof.
  apply (runs_impl (fun ex => ofECS env ex \/ ofV1 ex \/ ofV2 ex)); [|apply fetch_runs].
  intros ex [H | [H | H]];
    [apply (ofECS_fiveSeconds env) | apply ofV1_fiveSeconds | apply ofV2_fiveSeconds]; exact H.
Qed.

Lemma GetCredentials_fiveSeconds (c : Config) (env : Env) : runs fiveSeconds 6 (Get c env).
Proof.
  intros w.
  destruct (GetCredentials_stages _ 5 c env w (imds_runs c))
    as (E & I & Hs & HE & HI & HlE & HlI & _ & _ & _ & _ & Hr & _ & Ht & Hnet).
  split; [exact Hnet|]. split; [exact Hr|].
  exists (E ++ I). split_and!; try assumption; try lia.
  - apply Forall_app. split.
    + eapply Forall_impl; [exact HE | apply ofECS_fiveSeconds].
    + eapply Forall_impl; [exact HI|].
      intros ex [H|H]; [apply ofV1_fiveSeconds | apply ofV2_fiveSeconds]; exact H.
  - rewrite length_app. lia.
Qed.

(** What [runs fiveSeconds n] gives on the clock. *)
Lemma runs_deadline {A} (n : nat) (m : M A) (w : World) :
  runs fiveSeconds n m ->
  now w <= now (m w).2 <= now w + 5 * Second * Z.of_nat n.
Proof.
  intros H. destruct (H w) as (_ & _ & log & _ & HP & Hl & Ht).
  rewrite (total_fiveSeconds log HP) in Ht. unfold Second in *. nia.
Qed.

(** An exchange that never gets an answer ends when its limit is reached. *)
Lemma Do_Hang (c : Client) (req : Request) (t : Duration) (w : World) :
  network w (sent w) req = Hang -> limit c req = Some t ->
  Do c req w =
  (Err "transport",
   {| now := now w + t;
      sent := sent w ++ [mkExchange req (Some t)];
      network := network w |}).
Proof. intros Hn Hl. unfold Do. rewrite Hn, Hl. reflexivity. Qed.

Lemma fetch_Hang (s : Strategy) (env : Env) (w : World) :
  (forall log req, network w log req = Hang) ->
  exists e w', Fetch s env w = (Err e, w') /\ now w <= now w' <= now w + 5 * Second.
Proof.
  intros Hn. destruct s; simpl.
  - unfold getECSCredentials.
    destruct (String.eqb _ ""); [eexists _, _; split; [reflexivity | unfold Second; lia]|].
    unfold bind, try, lift, NewRequestWithContext.
    destruct (valid_url _); [|eexists _, _; split; [reflexivity | unfold Second; lia]].
    rewrite (Do_Hang _ _ (5 * Second)); [|apply Hn | reflexivity].
    eexists _, _. split; [reflexivity | simpl; unfold Second; lia].
  - unfold getIMDSv1Credentials, client_Get, bind, try, lift, NewRequest, NewRequestWithContext.
    destruct (valid_url _); [|eexists _, _; split; [reflexivity | unfold Second; lia]].
    rewrite (Do_Hang _ _ (5 * Second)); [|apply Hn | reflexivity].
    eexists _, _. split; [reflexivity | simpl; unfold Second; lia].
  - unfold getIMDSv2Credentials, bind, try, lift, NewRequest, NewRequestWithContext.
    destruct (valid_url _); [|eexists _, _; split; [reflexivity | unfold Second; lia]].
    rewrite (Do_Hang _ _ (5 * Second)); [|apply Hn | reflexivity].
    eexists _, _. split; [reflexivity | simpl; unfold Second; lia].
Qed.



(** ** What a strategy makes of the response *)

(** C5, as the code has it.  In each of the three metadata strategies,
    when every step goes through and the body of the credentials response
    decodes, the strategy succeeds whatever the [Expiration] field holds.  When [time.Parse]
    rejects the field (as it does the empty string of a missing or empty
    field), the expiration is the instant at which the strategy returns
    plus one hour; when [time.Parse] accepts it, the expiration is the
    parsed instant. *)
Theorem expiration_fallback (s : Strategy) (env : Env)
    (w : World) (dec : credResponse) (w' : World) :
  Decodes s env w dec w' ->
  exists cr,
    Fetch s env w = (Ok cr, w')
    /\ now w <= now w'
    /\ (time_Parse_RFC3339 (resp_Expiration dec) = None ->
        Expiration cr = now w' + 1 * Hour
        /\ now w' <= Expiration cr <= now w' + 1 * Hour)
    /\ (time_Parse_RFC3339 "" = None -> resp_Expiration dec = "" ->
        Expiration cr = now w' + 1 * Hour)
    /\ (forall t,
          time_Parse_RFC3339 (resp_Expiration dec) = Some t -> Expiration cr = t).
Proof.
  intros H. exists (credentialsOf time_Parse_RFC3339 dec (now w')).
  assert (HF : Fetch s env w = (Ok (credentialsOf time_Parse_RFC3339 dec (now w')), w'))
    by (apply fetch_Ok_iff; exists dec; split; [exact H | reflexivity]).
  split; [exact HF|]. split.
  { pose proof (runs_deadline 3 _ w (fetch_fiveSeconds s env)) as Ht.
    rewrite HF in Ht. simpl in Ht. lia. }
  unfold credentialsOf, time_Add. simpl. split_and!.
  - intros ->. unfold Hour, Second. lia.
  - intros He ->. rewrite He. reflexivity.
  - intros t ->. reflexivity.
Qed.

(** C8, as the code has it.  A strategy succeeds exactly when each of its
    HTTP steps goes through: the request is built, the exchange ends
    without a transport error, the status of the response is 200 — no other
    status is taken, of the 2xx class or not — and its body is read; and
    the body of the last response decodes.  Otherwise the strategy fails:
    it returns an error, it never blocks.  The failure does not abort the
    resolution: [GetCredentials] returns credentials or its own error of
    exhaustion, never the error of a strategy. *)
Theorem status_200_only :
  (forall s env w cr w',
     Fetch s env w = (Ok cr, w') <->
     exists dec,
       Decodes s env w dec w'
       /\ cr = credentialsOf time_Parse_RFC3339 dec (now w'))
  /\ (forall c req w body w',
        exchange200 c req w body w' <->
        exists r resp,
          req = Ok r /\ Do c r w = (Ok resp, w')
          /\ StatusCode resp = 200 /\ Body resp = Some body)
  /\ (forall s env w,
        (exists cr, (Fetch s env w).1 = Ok cr) \/ (exists e, (Fetch s env w).1 = Err e))
  /\ (forall c env w,
        (exists cr, (Get c env w).1 = Ok cr)
        \/ (Get c env w).1 = Err "unable to locate AWS credentials").
Proof.
  split_and!.
  - apply fetch_Ok_iff.
  - intros c req w body w'. reflexivity.
  - intros s env w. pose proof (fetch_fiveSeconds s env w) as (_ & Hr & _).
    destruct (Fetch s env w).1 as [cr|e|]; [left; exists cr | right; exists e | congruence]; reflexivity.
  - intros c env w.
    destruct (GetCredentials_stages _ 5 c env w (imds_runs c))
      as (E & I & _ & _ & _ & _ & _ & _ & _ & _ & _ & Hr & He & _).
    destruct (Get c env w).1 as [cr|e|]; [left; exists cr; reflexivity | right | congruence].
    rewrite (He e eq_refl). reflexivity.
Qed.

(** C9, as the code has it.  No metadata strategy looks at the decoded
    fields.  When [GetCredentials] runs a strategy whose steps all go
    through and whose last body decodes, the strategy succeeds and
    [GetCredentials] returns at once, in the world the strategy left, the
    credentials with the decoded fields as they are, empty or not. *)
Theorem no_validation (c : Config) (env : Env) (w0 : World) (s : Strategy)
    (w : World) (dec : credResponse) (w' : World) :
  Selects c env w0 s w -> Decodes s env w dec w' ->
  exists cr,
    Fetch s env w = (Ok cr, w')
    /\ Get c env w0 = (Ok cr, w')
    /\ AccessKeyID cr = resp_AccessKeyID dec
    /\ SecretAccessKey cr = resp_SecretAccessKey dec
    /\ SessionToken cr = resp_Token dec.
Proof.
  intros Hsel Hdec. exists (credentialsOf time_Parse_RFC3339 dec (now w')).
  assert (HF : Fetch s env w = (Ok (credentialsOf time_Parse_RFC3339 dec (now w')), w'))
    by (apply fetch_Ok_iff; exists dec; split; [exact Hdec | reflexivity]).
  split; [exact HF|]. split; [exact (selects_returns c env w0 s w _ w' Hsel HF)|].
  split_and!; reflexivity.
Qed.

(** ** What [LoadConfig] makes of the environment *)

Section Loaded.
Variable os_UserHomeDir : Env -> string.
Variable filepath_Join : string -> string -> string.

Local Abbreviation Load := (LoadConfig os_UserHomeDir filepath_Join).

(** ** Exhaustion *)

Lemma LoadConfig_UseIMDS (env : Env) :
  UseIMDS (Load env) = false <-> Getenv env "AWS_USE_IMDS" = "false".
Proof. simpl. rewrite negb_false_iff. apply String.eqb_eq. Qed.

Lemma LoadConfig_UseECSMetadata (env : Env) :
  UseECSMetadata (Load env) = false <-> Getenv env "AWS_ECS_METADATA_ENDPOINT" = "".
Proof. simpl. rewrite negb_false_iff. apply String.eqb_eq. Qed.

(** Without the relative URI the container strategy fails at once. *)
Lemma ecs_not_set (env : Env) (w : World) :
  Getenv env "AWS_CONTAINER_CREDENTIALS_RELATIVE_URI" = "" ->
  ECS env w = (Err "AWS_CONTAINER_CREDENTIALS_RELATIVE_URI not set", w).
Proof. intros H. unfold getECSCredentials. rewrite H. reflexivity. Qed.

(** C6. [GetCredentials] always returns: credentials, or the one error
    [unable to locate AWS credentials].  It returns the error exactly when
    every applicable strategy has failed or is inapplicable: the environment
    has no credentials, the container strategy is disabled or has failed,
    and the instance-metadata strategy is disabled or has failed.  IMDS is
    disabled by [LoadConfig] exactly when [AWS_USE_IMDS] is the string
    [false]; with that, no container metadata configured and no credentials
    in the environment, [GetCredentials] returns the error without any
    exchange. *)
Theorem exhaustion_error (c : Config) (env : Env) (w : World) :
  (Get c env w).1 <> Hung
  /\ (forall e, (Get c env w).1 = Err e -> e = "unable to locate AWS credentials")
  /\ (forall w',
        Get c env w = (Err "unable to locate AWS credentials", w') <->
        exhausted valid_url json_Decode time_Parse_RFC3339 c env w w')
  /\ (UseIMDS (Load env) = false <-> Getenv env "AWS_USE_IMDS" = "false")
  /\ (Getenv env "AWS_USE_IMDS" = "false" ->
      Getenv env "AWS_ECS_METADATA_ENDPOINT" = ""
      \/ Getenv env "AWS_CONTAINER_CREDENTIALS_RELATIVE_URI" = "" ->
      hasEnvironmentCredentials env = false ->
      Get (Load env) env w = (Err "unable to locate AWS credentials", w)).
Proof.
  destruct (GetCredentials_stages _ 5 c env w (imds_runs c))
    as (E & I & _ & _ & _ & _ & _ & _ & _ & _ & _ & Hr & He & _).
  split; [exact Hr|]. split; [exact He|]. split; [|split].
  - intros w'. unfold exhausted. split.
    + rewrite GetCredentials_unfold.
      destruct (hasEnvironmentCredentials env) eqn:Henv; [discriminate|].
      assert (Hstage : forall w1,
                Reaches c env w w1 ->
                (if UseIMDS c then orElse (IMDS c) else id)
                  (fail "unable to locate AWS credentials") w1
                = (Err "unable to locate AWS credentials", w') ->
                exists w1,
                  Reaches c env w w1 /\
                  (UseIMDS c = false /\ w' = w1
                   \/ UseIMDS c = true /\ exists e, IMDS c w1 = (Err e, w'))).
      { intros w1 Hreach. destruct (UseIMDS c).
        - unfold orElse, fail. destruct (IMDS c w1) as [[cr|e|] w2] eqn:HI; [discriminate| |discriminate].
          intros [= ->]. exists w1. split; [exact Hreach|]. right. split; [reflexivity | exists e; exact HI].
        - unfold id, fail. intros [= <-]. exists w1. split; [exact Hreach|]. left. split; reflexivity. }
      destruct (UseECSMetadata c) eqn:Hecs.
      * change (orElse (ECS env) ?K w)
          with (match ECS env w with (Err _, w1) => K w1 | r => r end).
        destruct (ECS env w) as [[cr|e|] w1] eqn:HE; [discriminate| |discriminate].
        apply Hstage. split; [exact Henv|]. right. split; [exact Hecs | exists e; exact HE].
      * change (id ?f w) with (f w).
        apply Hstage. split; [exact Henv|]. left. split; [exact Hecs | reflexivity].
    + intros (w1 & Hreach & H). rewrite (GetCredentials_reaches c env w w1 Hreach).
      destruct H as [(Himds & ->) | (Himds & e & HI)]; rewrite Himds.
      * reflexivity.
      * unfold orElse. rewrite HI. reflexivity.
  - apply LoadConfig_UseIMDS.
  - intros Himds Hecs Henv. rewrite GetCredentials_unfold, Henv.
    rewrite (proj2 (LoadConfig_UseIMDS env) Himds).
    destruct (UseECSMetadata (Load env)) eqn:HU.
    + destruct Hecs as [Hecs | Hrel].
      * apply LoadConfig_UseECSMetadata in Hecs. congruence.
      * unfold orElse. rewrite (ecs_not_set env w Hrel). reflexivity.
    + reflexivity.
Qed.


(** ** The version of the instance-metadata service *)

Lemma LoadConfig_IMDSVersion (env : Env) :
  IMDSVersion (Load env) =
  if String.eqb (Getenv env "AWS_IMDS_VERSION") "" then "v2"
  else Getenv env "AWS_IMDS_VERSION".
Proof. reflexivity. Qed.

Lemma imds_runs_v1 (c : Config) : IMDSVersion c = "v1" -> runs ofV1 2 (IMDS c).
Proof. intros H. unfold imdsStrategy. rewrite H. apply v1_runs. Qed.

Lemma imds_runs_v2 (c : Config) : IMDSVersion c = "v2" -> runs ofV2 3 (IMDS c).
Proof. intros H. unfold imdsStrategy. rewrite H. apply v2_runs. Qed.

Lemma ofECS_plain (env : Env) (ex : Exchange) :
  ofECS env ex -> secured ex = false /\ legacy ex = false.
Proof. intros ->. split; reflexivity. Qed.

Lemma ofV1_not_secured (ex : Exchange) : ofV1 ex -> secured ex = false.
Proof. intros [suffix ->]. reflexivity. Qed.

Lemma ofV2_not_legacy (ex : Exchange) : ofV2 ex -> legacy ex = false.
Proof. intros [-> | (token & suffix & ->)]; reflexivity. Qed.

(** With version [v1] no exchange belongs to the secured flow. *)
Lemma v1_only (c : Config) (env : Env) (w : World) :
  IMDSVersion c = "v1" ->
  exists log,
    sent (Get c env w).2 = sent w ++ log /\ Forall (fun ex => secured ex = false) log.
Proof.
  intros Hv.
  destruct (GetCredentials_stages _ 2 c env w (imds_runs_v1 c Hv))
    as (E & I & Hs & HE & HI & _).
  exists (E ++ I). split; [exact Hs|]. apply Forall_app. split.
  - eapply Forall_impl; [exact HE|]. intros ex H. apply (ofECS_plain env ex H).
  - eapply Forall_impl; [exact HI | apply ofV1_not_secured].
Qed.

(** With version [v2] no exchange belongs to the legacy flow. *)
Lemma v2_only (c : Config) (env : Env) (w : World) :
  IMDSVersion c = "v2" ->
  exists log,
    sent (Get c env w).2 = sent w ++ log /\ Forall (fun ex => legacy ex = false) log.
Proof.
  intros Hv.
  destruct (GetCredentials_stages _ 3 c env w (imds_runs_v2 c Hv))
    as (E & I & Hs & HE & HI & _).
  exists (E ++ I). split; [exact Hs|]. apply Forall_app. split.
  - eapply Forall_impl; [exact HE|]. intros ex H. apply (ofECS_plain env ex H).
  - eapply Forall_impl; [exact HI | apply ofV2_not_legacy].
Qed.

(** C10. After [LoadConfig] the field [IMDSVersion] is never empty: it is
    [v2] whenever [AWS_IMDS_VERSION] is unset or empty, and the value of the
    variable otherwise.  So the switch of [GetCredentials] reaches its
    default case, the one that falls back from the secured to the legacy
    flow, only when [AWS_IMDS_VERSION] is set to a non-empty value other
    than [v1] and [v2]; and a resolution that shows exchanges of both flows
    has such a value. *)
Theorem LoadConfig_version_never_empty (env : Env) :
  IMDSVersion (Load env) <> ""
  /\ (Getenv env "AWS_IMDS_VERSION" = "" -> IMDSVersion (Load env) = "v2")
  /\ (Getenv env "AWS_IMDS_VERSION" <> "" ->
      IMDSVersion (Load env) = Getenv env "AWS_IMDS_VERSION")
  /\ (String.eqb (IMDSVersion (Load env)) "v1" = false
      /\ String.eqb (IMDSVersion (Load env)) "v2" = false
      <-> Getenv env "AWS_IMDS_VERSION" <> ""
          /\ Getenv env "AWS_IMDS_VERSION" <> "v1"
          /\ Getenv env "AWS_IMDS_VERSION" <> "v2")
  /\ (forall env' w log ex1 ex2,
        sent (Get (Load env) env' w).2 = sent w ++ log ->
        ex1 ∈ log -> secured ex1 = true ->
        ex2 ∈ log -> legacy ex2 = true ->
        Getenv env "AWS_IMDS_VERSION" <> ""
        /\ Getenv env "AWS_IMDS_VERSION" <> "v1"
        /\ Getenv env "AWS_IMDS_VERSION" <> "v2").
Proof.
  rewrite LoadConfig_IMDSVersion.
  destruct (String.eqb (Getenv env "AWS_IMDS_VERSION") "") eqn:E.
  - apply String.eqb_eq in E. split_and!.
    + discriminate.
    + reflexivity.
    + intros H. congruence.
    + split; [intros (_ & H); vm_compute in H; discriminate H | intros (H & _); congruence].
    + intros env' w log ex1 ex2 Hs H1 Hs1 H2 Hl2. exfalso.
      assert (Hv : IMDSVersion (Load env) = "v2")
        by (rewrite LoadConfig_IMDSVersion, E; reflexivity).
      destruct (v2_only (Load env) env' w Hv) as (log' & Hs' & Hall).
      rewrite Hs in Hs'. apply app_inv_head in Hs'. subst log'.
      rewrite Forall_forall in Hall. specialize (Hall ex2 H2). congruence.
  - apply String.eqb_neq in E. split_and!.
    + exact E.
    + intros H. congruence.
    + reflexivity.
    + rewrite !String.eqb_neq. tauto.
    + intros env' w log ex1 ex2 Hs H1 Hs1 H2 Hl2.
      assert (Hl : IMDSVersion (Load env) = Getenv env "AWS_IMDS_VERSION")
        by (rewrite LoadConfig_IMDSVersion; apply String.eqb_neq in E; rewrite E; reflexivity).
      split_and!; [exact E | |].
      * intros Hv. rewrite Hv in Hl.
        destruct (v1_only (Load env) env' w Hl) as (log' & Hs' & Hall).
        rewrite Hs in Hs'. apply app_inv_head in Hs'. subst log'.
        rewrite Forall_forall in Hall. specialize (Hall ex1 H1). congruence.
      * intros Hv. rewrite Hv in Hl.
        destruct (v2_only (Load env) env' w Hl) as (log' & Hs' & Hall).
        rewrite Forall_forall in Hall.
        rewrite Hs in Hs'. apply app_inv_head in Hs'. subst log'.
        specialize (Hall ex2 H2). congruence.
Qed.


(** C4, as the code has it.  [LoadConfig] turns an unset or empty
    [AWS_IMDS_VERSION] into [v2], and with [v2] only the secured flow is
    attempted: when it fails, [GetCredentials] declares exhaustion in the
    world the secured flow left, and no exchange of the legacy flow is ever
    started.  With [v1] no exchange of the secured flow is ever started.
    The fallback belongs to the other values of [IMDSVersion]: with IMDS
    enabled, when the secured flow fails, at whatever step, the legacy flow
    is run in the world it left, and exhaustion is declared only if the
    legacy flow fails too. *)
Theorem imds_version_selection :
  (forall c env w,
     IMDSVersion c = "v1" ->
     exists log,
       sent (Get c env w).2 = sent w ++ log
       /\ Forall (fun ex => secured ex = false) log)
  /\ (forall c env w,
        IMDSVersion c = "v2" ->
        exists log,
          sent (Get c env w).2 = sent w ++ log
          /\ Forall (fun ex => legacy ex = false) log)
  /\ (forall c env w w1 e w2,
        IMDSVersion c = "v2" ->
        Reaches c env w w1 -> UseIMDS c = true -> V2 w1 = (Err e, w2) ->
        Get c env w = (Err "unable to locate AWS credentials", w2))
  /\ (forall env, Getenv env "AWS_IMDS_VERSION" = "" -> IMDSVersion (Load env) = "v2")
  /\ (forall c env w w1 e w2,
        IMDSVersion c <> "v1" -> IMDSVersion c <> "v2" ->
        Reaches c env w w1 -> UseIMDS c = true -> V2 w1 = (Err e, w2) ->
        Get c env w = orElse V1 (fail "unable to locate AWS credentials") w2).
Proof.
  split_and!.
  - apply v1_only.
  - apply v2_only.
  - intros c env w w1 e w2 Hv Hreach Himds HV2.
    rewrite (GetCredentials_reaches c env w w1 Hreach), Himds.
    unfold imdsStrategy. rewrite Hv. unfold orElse. simpl. rewrite HV2. reflexivity.
  - intros env H. rewrite LoadConfig_IMDSVersion, H. reflexivity.
  - intros c env w w1 e w2 Hv1 Hv2 Hreach Himds HV2.
    rewrite (GetCredentials_reaches c env w w1 Hreach), Himds.
    unfold imdsStrategy. rewrite (eqb_v _ _ Hv1), (eqb_v _ _ Hv2).
    unfold orElse. rewrite HV2. reflexivity.
Qed.


End Loaded.

End Properties.

(** * Runs of the resolver *)

(** C3.  The failing input: the environment of a task, in which
    [AWS_CONTAINER_CREDENTIALS_RELATIVE_URI] is set and
    [AWS_ECS_METADATA_ENDPOINT] is not.  The container strategy, if run,
    gets the credentials; [LoadConfig] leaves it disabled, because it looks
    at the other variable, and [GetCredentials] never asks the container
    host: its one exchange is the token request of the instance-metadata
    flow, and it ends in exhaustion. *)
Theorem relative_uri_alone_does_not_enable_ecs :
  let w := Go.world (Go.ecsServer 200 Go.credentialsBody) in
  Getenv Go.taskEnv "AWS_CONTAINER_CREDENTIALS_RELATIVE_URI" = "/v2/credentials/task"
  /\ UseECSMetadata (Go.load Go.taskEnv) = false
  /\ (Go.ecs Go.taskEnv w).1 =
     Ok {| AccessKeyID := "ASIAEXAMPLE"; SecretAccessKey := "secret";
           SessionToken := "token"; Expiration := 1893456000 * Second |}
  /\ (Go.resolve (Go.load Go.taskEnv) Go.taskEnv w).1 =
     Err "unable to locate AWS credentials"
  /\ sent (Go.resolve (Go.load Go.taskEnv) Go.taskEnv w).2 = [tokenExchange]
  /\ Forall (fun ex => toECS ex = false)
       (sent (Go.resolve (Go.load Go.taskEnv) Go.taskEnv w).2).
Proof.
  cbv zeta. split_and!; try (vm_compute; reflexivity).
  repeat constructor.
Qed.

(** C4 fails.  [AWS_IMDS_VERSION] is unset and IMDS is enabled; the token
    request of the secured flow gets status 403, and the legacy flow, if
    run, gets the credentials.  [GetCredentials] declares exhaustion after
    the token request alone: the legacy flow is not attempted. *)
Lemma unset_version_has_no_fallback :
  let env : Env := ∅ in
  let c := Go.load env in
  let w := Go.world (Go.imdsServer 403 Go.credentialsBody) in
  Getenv env "AWS_IMDS_VERSION" = ""
  /\ UseIMDS c = true
  /\ (Go.imdsv2 w).1 = Err "failed to get token from IMDSv2"
  /\ (Go.imdsv1 w).1 =
     Ok {| AccessKeyID := "ASIAEXAMPLE"; SecretAccessKey := "secret";
           SessionToken := "token"; Expiration := 1893456000 * Second |}
  /\ (Go.resolve c env w).1 = Err "unable to locate AWS credentials"
  /\ sent (Go.resolve c env w).2 = [tokenExchange]
  /\ Forall (fun ex => legacy ex = false) (sent (Go.resolve c env w).2).
Proof.
  cbv zeta. split_and!; try (vm_compute; reflexivity).
  repeat constructor.
Qed.

(** C5 fails.  The code takes for a timestamp what [time.Parse] accepts
    with the layout [time.RFC3339], which is not what RFC 3339 defines.
    The leap second [1990-12-31T23:59:60Z], an example of RFC 3339, is a
    valid timestamp: [time.Parse] rejects its second, and the strategy
    returns the instant of its return plus one hour, in 2023, not the
    timestamp.  [2030-01-01T0:00:00Z], with an hour of one digit, is no
    valid timestamp: [time.Parse] accepts it, and the strategy returns the
    parsed instant, not the instant of its return plus one hour. *)
Lemma valid_timestamp_that_is_not_parsed :
  let w := Go.world (Go.ecsServer 200 Go.leapSecondBody) in
  let w' := (Go.ecs Go.ecsEnv w).2 in
  let v := Go.world (Go.ecsServer 200 Go.shortHourBody) in
  let v' := (Go.ecs Go.ecsEnv v).2 in
  let creds := fun t =>
    {| AccessKeyID := "ASIAEXAMPLE"; SecretAccessKey := "secret";
       SessionToken := "token"; Expiration := t |} in
  Rfc3339.valid "2030-01-01T00:00:00Z" = true
  /\ Rfc3339.valid "1990-12-31T23:59:60Z" = true
  /\ option_map resp_Expiration (Json.Decode Go.leapSecondBody)
     = Some "1990-12-31T23:59:60Z"
  /\ GoTime.Parse_RFC3339 "1990-12-31T23:59:60Z" = None
  /\ Go.ecs Go.ecsEnv w = (Ok (creds (now w' + 1 * Hour)), w')
  /\ 1700000000 * Second <= now w'
  /\ Rfc3339.valid "2030-01-01T0:00:00Z" = false
  /\ option_map resp_Expiration (Json.Decode Go.shortHourBody)
     = Some "2030-01-01T0:00:00Z"
  /\ GoTime.Parse_RFC3339 "2030-01-01T0:00:00Z" = Some (1893456000 * Second)
  /\ Go.ecs Go.ecsEnv v = (Ok (creds (1893456000 * Second)), v')
  /\ 1893456000 * Second <> now v' + 1 * Hour.
Proof.
  cbv zeta. split_and!; try (vm_compute; reflexivity).
  - vm_compute. discriminate.
  - vm_compute. discriminate.
Qed.

(** C8 fails.  The container host answers the one request of the strategy
    with a status of the 2xx class, 201, and a body that holds the
    credentials: the step is not taken as a success, the strategy fails.
    With status 200 and the same body it succeeds. *)
Lemma status_201_is_rejected :
  let w := Go.world (Go.ecsServer 201 Go.credentialsBody) in
  let req := {| Method := "GET"; URL := "http://169.254.170.2/v2/credentials/task";
                Header := []; ctx := Some (5 * Second) |} in
  (Do (mkClient 0) req w).1 = Ok (mkResponse 201 (Some Go.credentialsBody))
  /\ (200 <= 201 < 300)
  /\ Json.Decode Go.credentialsBody <> None
  /\ (Go.ecs Go.ecsEnv w).1 = Err "failed to get credentials from ECS metadata"
  /\ (exists cr,
        (Go.ecs Go.ecsEnv (Go.world (Go.ecsServer 200 Go.credentialsBody))).1 = Ok cr).
Proof.
  cbv zeta. split_and!; try (vm_compute; reflexivity).
  - lia.
  - vm_compute. discriminate.
  - eexists. vm_compute. reflexivity.
Qed.

(** C9 fails.  The container host answers with status 200 and the body
    [[]], which is valid JSON.  The decoder does not take an array for the
    struct: the strategy fails, and [GetCredentials] goes on to the
    instance-metadata stage instead of returning. *)
Lemma valid_json_that_does_not_decode :
  let w := Go.world (Go.ecsServer 200 "[]") in
  let req := {| Method := "GET"; URL := "http://169.254.170.2/v2/credentials/task";
                Header := []; ctx := Some (5 * Second) |} in
  Json.valid "[]" = true
  /\ (Do (mkClient 0) req w).1 = Ok (mkResponse 200 (Some "[]"))
  /\ (Go.ecs Go.ecsEnv w).1 = Err "failed to decode credentials from ECS metadata"
  /\ (Go.resolve (Go.load Go.ecsEnv) Go.ecsEnv w).1 = Err "unable to locate AWS credentials"
  /\ sent (Go.resolve (Go.load Go.ecsEnv) Go.ecsEnv w).2 = [ecsExchange Go.ecsEnv; tokenExchange].
Proof.
  cbv zeta. split_and!; vm_compute; reflexivity.
Qed.

(** ** Instances of the theorems *)

Local Abbreviation go_valid_url := Url.valid.
Local Abbreviation go_Decode := Json.Decode.
Local Abbreviation go_Parse := GoTime.Parse_RFC3339.

(** The container host answers with status 500 and the token request gets
    status 403, with a version that is none: both failures are passed over
    and the credentials of the legacy flow are returned, after the
    exchanges of the three strategies in their order. *)
Lemma GetCredentials_precedence_witness :
  let env := Go.autoEnv in
  let c := Go.load env in
  let w := Go.world Go.failingServer in
  let w1 := (Go.ecs env w).2 in
  let w2 := (Go.imdsv2 w1).2 in
  let w3 := (Go.imdsv1 w2).2 in
  let cr := {| AccessKeyID := "ASIAEXAMPLE"; SecretAccessKey := "secret";
               SessionToken := "token"; Expiration := 1893456000 * Second |} in
  hasEnvironmentCredentials env = false
  /\ UseECSMetadata c = true /\ UseIMDS c = true
  /\ IMDSVersion c <> "v1" /\ IMDSVersion c <> "v2"
  /\ Go.ecs env w = (Err "failed to get credentials from ECS metadata", w1)
  /\ Go.imdsv2 w1 = (Err "failed to get token from IMDSv2", w2)
  /\ Go.imdsv1 w2 = (Ok cr, w3)
  /\ Go.resolve c env w = (Ok cr, w3)
  /\ sent w3 = [ecsExchange env; tokenExchange; v1Exchange ""; v1Exchange "role"].
Proof.
  cbv zeta.
  set (env := Go.autoEnv). set (c := Go.load env). set (w := Go.world Go.failingServer).
  assert (H0 : hasEnvironmentCredentials env = false) by (vm_compute; reflexivity).
  assert (H1 : UseECSMetadata c = true) by (vm_compute; reflexivity).
  assert (H2 : UseIMDS c = true) by (vm_compute; reflexivity).
  assert (H3 : IMDSVersion c <> "v1") by (vm_compute; discriminate).
  assert (H4 : IMDSVersion c <> "v2") by (vm_compute; discriminate).
  assert (H5 : Go.ecs env w
               = (Err "failed to get credentials from ECS metadata", (Go.ecs env w).2))
    by (vm_compute; reflexivity).
  assert (H6 : Go.imdsv2 (Go.ecs env w).2
               = (Err "failed to get token from IMDSv2", (Go.imdsv2 (Go.ecs env w).2).2))
    by (vm_compute; reflexivity).
  assert (H7 : Go.imdsv1 (Go.imdsv2 (Go.ecs env w).2).2
               = (Ok {| AccessKeyID := "ASIAEXAMPLE"; SecretAccessKey := "secret";
                        SessionToken := "token"; Expiration := 1893456000 * Second |},
                  (Go.imdsv1 (Go.imdsv2 (Go.ecs env w).2).2).2))
    by (vm_compute; reflexivity).
  split; [exact H0|]. split; [exact H1|]. split; [exact H2|].
  split; [exact H3|]. split; [exact H4|]. split; [exact H5|].
  split; [exact H6|]. split; [exact H7|]. split; [|vm_compute; reflexivity].
  destruct (GetCredentials_precedence go_valid_url go_Decode go_Parse c env w)
    as (_ & _ & _ & HF).
  destruct (HF (Go.ecs env w).2 H0 (or_intror (conj H1 (ex_intro _ _ H5))))
    as (_ & _ & HV2).
  destruct (HV2 H2 H3) as (_ & Hfail).
  destruct (Hfail _ _ H6) as (_ & Hauto).
  exact (proj1 (Hauto H4) _ _ H7).
Defined.

(** Credentials in the environment are returned as they are. *)
Lemma environment_strategy_witness :
  let w := Go.world Go.unreachable in
  Getenv Go.keysEnv "AWS_ACCESS_KEY_ID" <> ""
  /\ Getenv Go.keysEnv "AWS_SECRET_ACCESS_KEY" <> ""
  /\ Go.resolve (Go.load Go.keysEnv) Go.keysEnv w =
     (Ok {| AccessKeyID := "AKIAEXAMPLE"; SecretAccessKey := "secret";
            SessionToken := "token"; Expiration := time_zero |}, w).
Proof.
  cbv zeta.
  assert (H1 : Getenv Go.keysEnv "AWS_ACCESS_KEY_ID" <> "") by (vm_compute; discriminate).
  assert (H2 : Getenv Go.keysEnv "AWS_SECRET_ACCESS_KEY" <> "") by (vm_compute; discriminate).
  split; [exact H1|]. split; [exact H2|].
  exact (proj1 (environment_strategy go_valid_url go_Decode go_Parse
                  (Go.load Go.keysEnv) Go.keysEnv (Go.world Go.unreachable)) H1 H2).
Defined.

(** [AWS_IMDS_VERSION] is [auto]: the token request gets status 403 and the
    legacy flow is run next. *)
Lemma imds_version_selection_witness :
  let c := Go.load {[ "AWS_IMDS_VERSION" := "auto" ]} in
  let w := Go.world (Go.imdsServer 403 Go.credentialsBody) in
  let w2 := (Go.imdsv2 w).2 in
  IMDSVersion c <> "v1" /\ IMDSVersion c <> "v2"
  /\ reachesIMDS go_valid_url go_Decode go_Parse c ∅ w w
  /\ UseIMDS c = true
  /\ Go.imdsv2 w = (Err "failed to get token from IMDSv2", w2)
  /\ Go.resolve c ∅ w =
     orElse Go.imdsv1 (fail "unable to locate AWS credentials") w2.
Proof.
  cbv zeta.
  set (c := Go.load {[ "AWS_IMDS_VERSION" := "auto" ]}).
  set (w := Go.world (Go.imdsServer 403 Go.credentialsBody)).
  assert (H1 : IMDSVersion c <> "v1") by (vm_compute; discriminate).
  assert (H2 : IMDSVersion c <> "v2") by (vm_compute; discriminate).
  assert (H3 : reachesIMDS go_valid_url go_Decode go_Parse c ∅ w w).
  { split; [vm_compute; reflexivity|]. left. split; [vm_compute|]; reflexivity. }
  assert (H4 : UseIMDS c = true) by (vm_compute; reflexivity).
  assert (H5 : Go.imdsv2 w = (Err "failed to get token from IMDSv2", (Go.imdsv2 w).2))
    by (vm_compute; reflexivity).
  split_and!; try assumption.
  destruct (imds_version_selection go_valid_url go_Decode go_Parse Os.UserHomeDir Path.Join)
    as (_ & _ & _ & _ & H).
  exact (H c ∅ w w _ _ H1 H2 H3 H4 H5).
Defined.

(** A credentials response whose [Expiration] is parsed: the container
    strategy returns the parsed instant.  A credentials response without
    [Expiration]: it returns the instant of its return plus one hour. *)
Lemma expiration_fallback_witness :
  let w := Go.world (Go.ecsServer 200 Go.credentialsBody) in
  let w' := (Go.ecs Go.ecsEnv w).2 in
  let dec := {| resp_AccessKeyID := "ASIAEXAMPLE"; resp_SecretAccessKey := "secret";
                resp_Token := "token"; resp_Expiration := "2030-01-01T00:00:00Z" |} in
  let v := Go.world (Go.ecsServer 200 Go.noExpirationBody) in
  let v' := (Go.ecs Go.ecsEnv v).2 in
  let dec0 := {| resp_AccessKeyID := "ASIAEXAMPLE"; resp_SecretAccessKey := "secret";
                 resp_Token := "token"; resp_Expiration := "" |} in
  decodes go_valid_url go_Decode ContainerMetadata Go.ecsEnv w dec w'
  /\ go_Parse (resp_Expiration dec) = Some (1893456000 * Second)
  /\ (exists cr,
        Go.ecs Go.ecsEnv w = (Ok cr, w')
        /\ Expiration cr = 1893456000 * Second)
  /\ decodes go_valid_url go_Decode ContainerMetadata Go.ecsEnv v dec0 v'
  /\ go_Parse (resp_Expiration dec0) = None
  /\ exists cr,
       Go.ecs Go.ecsEnv v = (Ok cr, v')
       /\ Expiration cr = now v' + 1 * Hour.
Proof.
  cbv zeta.
  set (w := Go.world (Go.ecsServer 200 Go.credentialsBody)).
  set (dec := {| resp_AccessKeyID := "ASIAEXAMPLE"; resp_SecretAccessKey := "secret";
                 resp_Token := "token"; resp_Expiration := "2030-01-01T00:00:00Z" |}).
  set (v := Go.world (Go.ecsServer 200 Go.noExpirationBody)).
  set (dec0 := {| resp_AccessKeyID := "ASIAEXAMPLE"; resp_SecretAccessKey := "secret";
                  resp_Token := "token"; resp_Expiration := "" |}).
  assert (H1 : decodes go_valid_url go_Decode ContainerMetadata Go.ecsEnv w dec
                 (Go.ecs Go.ecsEnv w).2).
  { split; [vm_compute; discriminate|].
    exists Go.credentialsBody. split; [|vm_compute; reflexivity].
    eexists _, _. split_and!; [vm_compute; reflexivity | vm_compute; reflexivity | reflexivity | reflexivity]. }
  assert (H2 : go_Parse (resp_Expiration dec) = Some (1893456000 * Second))
    by (vm_compute; reflexivity).
  assert (H3 : decodes go_valid_url go_Decode ContainerMetadata Go.ecsEnv v dec0
                 (Go.ecs Go.ecsEnv v).2).
  { split; [vm_compute; discriminate|].
    exists Go.noExpirationBody. split; [|vm_compute; reflexivity].
    eexists _, _. split_and!; [vm_compute; reflexivity | vm_compute; reflexivity | reflexivity | reflexivity]. }
  assert (H4 : go_Parse (resp_Expiration dec0) = None) by (vm_compute; reflexivity).
  split; [exact H1|]. split; [exact H2|]. split; [|split; [exact H3|]; split; [exact H4|]].
  - destruct (expiration_fallback go_valid_url go_Decode go_Parse
                ContainerMetadata Go.ecsEnv w dec _ H1) as (cr & HF & _ & _ & _ & Hsome).
    exists cr. split; [exact HF | exact (Hsome _ H2)].
  - destruct (expiration_fallback go_valid_url go_Decode go_Parse
                ContainerMetadata Go.ecsEnv v dec0 _ H3) as (cr & HF & _ & Hnone & _).
    exists cr. split; [exact HF | exact (proj1 (Hnone H4))].
Defined.

(** IMDS disabled, no container metadata, no credentials in the
    environment: exhaustion, without any exchange. *)
Lemma exhaustion_error_witness :
  let env : Env := {[ "AWS_USE_IMDS" := "false" ]} in
  let w := Go.world Go.unreachable in
  Getenv env "AWS_USE_IMDS" = "false"
  /\ Getenv env "AWS_ECS_METADATA_ENDPOINT" = ""
  /\ hasEnvironmentCredentials env = false
  /\ Go.resolve (Go.load env) env w = (Err "unable to locate AWS credentials", w).
Proof.
  cbv zeta.
  set (env := ({[ "AWS_USE_IMDS" := "false" ]} : Env)).
  assert (H1 : Getenv env "AWS_USE_IMDS" = "false") by (vm_compute; reflexivity).
  assert (H2 : Getenv env "AWS_ECS_METADATA_ENDPOINT" = "") by (vm_compute; reflexivity).
  assert (H3 : hasEnvironmentCredentials env = false) by (vm_compute; reflexivity).
  split_and!; try assumption.
  destruct (exhaustion_error go_valid_url go_Decode go_Parse Os.UserHomeDir Path.Join
              (Go.load env) env (Go.world Go.unreachable)) as (_ & _ & _ & _ & H).
  exact (H H1 (or_introl H2) H3).
Defined.


(** The container strategy succeeds on status 200: its one step has gone
    through. *)
Lemma status_200_only_witness :
  let w := Go.world (Go.ecsServer 200 Go.credentialsBody) in
  let cr := {| AccessKeyID := "ASIAEXAMPLE"; SecretAccessKey := "secret";
               SessionToken := "token"; Expiration := 1893456000 * Second |} in
  Go.ecs Go.ecsEnv w = (Ok cr, (Go.ecs Go.ecsEnv w).2)
  /\ exists dec,
       decodes go_valid_url go_Decode ContainerMetadata Go.ecsEnv w dec (Go.ecs Go.ecsEnv w).2
       /\ cr = credentialsOf go_Parse dec (now (Go.ecs Go.ecsEnv w).2).
Proof.
  cbv zeta.
  match goal with |- ?A /\ _ => assert (H : A) by (vm_compute; reflexivity) end.
  split; [exact H|].
  destruct (status_200_only go_valid_url go_Decode go_Parse) as (Hiff & _).
  exact (proj1 (Hiff ContainerMetadata Go.ecsEnv _ _ _) H).
Defined.

(** The body [{}]: the container strategy succeeds and [GetCredentials]
    returns credentials whose access key and secret are empty. *)
Lemma no_validation_witness :
  let c := Go.load Go.ecsEnv in
  let w := Go.world (Go.ecsServer 200 Go.emptyObjectBody) in
  let w' := (Go.ecs Go.ecsEnv w).2 in
  selects go_valid_url go_Decode go_Parse c Go.ecsEnv w ContainerMetadata w
  /\ decodes go_valid_url go_Decode ContainerMetadata Go.ecsEnv w Json.zero w'
  /\ exists cr,
       Go.resolve c Go.ecsEnv w = (Ok cr, w')
       /\ AccessKeyID cr = "" /\ SecretAccessKey cr = "".
Proof.
  cbv zeta.
  set (c := Go.load Go.ecsEnv).
  set (w := Go.world (Go.ecsServer 200 Go.emptyObjectBody)).
  assert (H1 : selects go_valid_url go_Decode go_Parse c Go.ecsEnv w ContainerMetadata w).
  { split_and!; [vm_compute; reflexivity | vm_compute; reflexivity | reflexivity]. }
  assert (H2 : decodes go_valid_url go_Decode ContainerMetadata Go.ecsEnv w Json.zero
                 (Go.ecs Go.ecsEnv w).2).
  { split; [vm_compute; discriminate|].
    exists Go.emptyObjectBody. split; [|vm_compute; reflexivity].
    eexists _, _. split_and!; [vm_compute; reflexivity | vm_compute; reflexivity | reflexivity | reflexivity]. }
  split; [exact H1|]. split; [exact H2|].
  destruct (no_validation go_valid_url go_Decode go_Parse c Go.ecsEnv w ContainerMetadata w
              Json.zero _ H1 H2) as (cr & _ & HG & Ha & Hs & _).
  exists cr. split; [exact HG|]. split; [exact Ha | exact Hs].
Defined.

(** With [AWS_IMDS_VERSION] unset the version is [v2]. *)
Lemma LoadConfig_version_never_empty_witness :
  Getenv ∅ "AWS_IMDS_VERSION" = "" /\ IMDSVersion (Go.load ∅) = "v2".
Proof.
  assert (H : Getenv ∅ "AWS_IMDS_VERSION" = "") by reflexivity.
  split; [exact H|].
  destruct (LoadConfig_version_never_empty go_valid_url go_Decode go_Parse Os.UserHomeDir Path.Join ∅)
    as (_ & Hv & _).
  exact (Hv H).
Defined.


(** * The DynamoDB client *)

Module DbFacts.
Import Db.

(** ** Listing *)

Lemma ListTables_loop_serves (c : dynamodb_Client) (pages : list (list string)) :
  forall (fuel n : nat) (names : list string) (start : option string),
    serves c n start pages -> (length pages <= fuel)%nat ->
    ListTables_loop c fuel n names start = Some (names ++ concat pages).
Proof.
  induction pages as [|page rest IH]; intros fuel n names start Hs Hf.
  - destruct Hs.
  - destruct fuel as [|fuel]; [simpl in Hf; lia|].
    simpl in Hs. destruct rest as [|page' rest'].
    + simpl. rewrite Hs. rewrite app_nil_r. reflexivity.
    + destruct Hs as (token & Hapi & Hs). simpl ListTables_loop. rewrite Hapi.
      rewrite (IH fuel (S n) (names ++ page) (Some token) Hs); [|simpl in *; lia].
      rewrite <- app_assoc. reflexivity.
Qed.

(** X1. With a client, when the service answers the successive calls with
    pages, each but the last carrying a name to go on from, [ListTables]
    returns the names of all the pages, in the order of the pages, once it
    is given as many calls as there are pages. *)
Theorem ListTables_concatenates_pages (c : dynamodb_Client) (config : option Config)
    (pages : list (list string)) (fuel : nat) :
  serves c 0 None pages -> (length pages <= fuel)%nat ->
  ListTables fuel {| client := Some c; cfg := config |} = Some (concat pages).
Proof.
  intros Hs Hf. unfold ListTables. simpl.
  apply (ListTables_loop_serves c pages fuel 0 [] None Hs Hf).
Qed.

Lemma ListTables_loop_fails (c : dynamodb_Client) (pages : list (list string)) :
  forall (fuel n : nat) (names : list string) (start : option string),
    servesThenFails c n start pages -> (length pages < fuel)%nat ->
    ListTables_loop c fuel n names start = Some mockTables.
Proof.
  induction pages as [|page rest IH]; intros fuel n names start Hs Hf.
  - destruct fuel as [|fuel]; [simpl in Hf; lia|]. simpl in *. rewrite Hs. reflexivity.
  - destruct fuel as [|fuel]; [simpl in Hf; lia|].
    destruct Hs as (token & Hapi & Hs). simpl ListTables_loop. rewrite Hapi.
    apply IH; [exact Hs | simpl in Hf; lia].
Qed.

(** X2. [ListTables] never reports a failure of the service: when a call
    fails, on the first page or after any number of pages, the names
    gathered so far are dropped and the three mock names are returned; the
    same three names are returned when there is no client. *)
Theorem ListTables_falls_back_to_mock :
  (forall fuel config, ListTables fuel {| client := None; cfg := config |} = Some mockTables)
  /\ (forall c config pages fuel,
        servesThenFails c 0 None pages -> (length pages < fuel)%nat ->
        ListTables fuel {| client := Some c; cfg := config |} = Some mockTables).
Proof.
  split.
  - reflexivity.
  - intros c config pages fuel Hs Hf. unfold ListTables. simpl.
    apply (ListTables_loop_fails c pages fuel 0 [] None Hs Hf).
Qed.

Lemma ListTables_loop_endless (c : dynamodb_Client) :
  (forall n start, exists names token, api_ListTables c n start = Some (names, Some token)) ->
  forall fuel n names start, ListTables_loop c fuel n names start = None.
Proof.
  intros H. induction fuel as [|fuel IH]; intros n names start.
  - reflexivity.
  - simpl. destruct (H n start) as (page & token & ->). apply IH.
Qed.

(** X3. The loop of [ListTables] has no bound of its own: against a service
    that answers every call with a name to go on from, no number of calls
    ends it. *)
Theorem ListTables_has_no_page_limit (c : dynamodb_Client) (config : option Config) :
  (forall n start, exists names token, api_ListTables c n start = Some (names, Some token)) ->
  forall fuel, ListTables fuel {| client := Some c; cfg := config |} = None.
Proof.
  intros H fuel. unfold ListTables. simpl. apply ListTables_loop_endless. exact H.
Qed.

(** ** Mock data *)

Lemma getMockTableInfo_cases (tableName : string) :
  (tableName ∈ mockTables ->
   exists info, getMockTableInfo tableName = Return info /\ TableName info = tableName)
  /\ (tableName ∉ mockTables ->
      getMockTableInfo tableName = Fail ("table not found: " +:+ tableName))
  /\ getMockTableInfo tableName <> Panic.
Proof.
  unfold getMockTableInfo, mockTables.
  destruct (String.eqb tableName "Users") eqn:E1.
  { apply String.eqb_eq in E1. subst. split_and!.
    - intros _. eexists. split; reflexivity.
    - intros H. exfalso. apply H. rewrite !elem_of_cons. tauto.
    - discriminate. }
  destruct (String.eqb tableName "Products") eqn:E2.
  { apply String.eqb_eq in E2. subst. split_and!.
    - intros _. eexists. split; reflexivity.
    - intros H. exfalso. apply H. rewrite !elem_of_cons. tauto.
    - discriminate. }
  destruct (String.eqb tableName "Orders") eqn:E3.
  { apply String.eqb_eq in E3. subst. split_and!.
    - intros _. eexists. split; reflexivity.
    - intros H. exfalso. apply H. rewrite !elem_of_cons. tauto.
    - discriminate. }
  apply String.eqb_neq in E1, E2, E3. split_and!.
  - intros H. exfalso. rewrite !elem_of_cons, elem_of_nil in H.
    destruct H as [H|[H|[H|[]]]]; congruence.
  - reflexivity.
  - discriminate.
Qed.

(** X4. The mock data are consistent: [getMockTableInfo] knows exactly the
    names that the mock listing returns, answers with the table of that
    name, and fails with [table not found] on any other name, the empty
    one included. *)
Theorem mock_tables_are_described (tableName : string) :
  (tableName ∈ mockTables ->
   exists info, getMockTableInfo tableName = Return info /\ TableName info = tableName)
  /\ (tableName ∉ mockTables ->
      getMockTableInfo tableName = Fail ("table not found: " +:+ tableName))
  /\ getMockTableInfo tableName <> Panic.
Proof. apply getMockTableInfo_cases. Qed.

(** ** Conversions *)

Lemma convertKeySchema_spec (schema : list types_KeySchemaElement) :
  (forall result,
     convertKeySchema schema = Some result <-> Forall2 converted schema result)
  /\ (convertKeySchema schema = None <->
      Exists (fun key => types_AttributeName key = None) schema).
Proof.
  induction schema as [|key rest [IH1 IH2]]; simpl.
  - split.
    + intros result. split.
      * intros [= <-]. constructor.
      * intros H. inversion H. reflexivity.
    + split; [discriminate | intros H; inversion H].
  - destruct (types_AttributeName key) as [name|] eqn:Hname.
    + destruct (convertKeySchema rest) as [r|] eqn:Hrest; split.
      * intros result. split.
        -- intros [= <-]. constructor; [split; [exact Hname | reflexivity] | apply IH1; reflexivity].
        -- intros H. inversion H as [|? el ? r' [Hn Ht] Hr]; subst.
           apply IH1 in Hr. injection Hr as <-.
           rewrite Hname in Hn. injection Hn as ->. destruct el; simpl in *. subst. reflexivity.
      * split; [discriminate|]. intros H. inversion H as [? ? Hk|? ? Hr]; subst.
        -- congruence.
        -- apply IH2 in Hr. discriminate.
      * intros result. split; [discriminate|].
        intros H. inversion H as [|? el ? r' _ Hr]; subst. apply IH1 in Hr. discriminate.
      * split; [|reflexivity]. intros _. apply Exists_cons_tl. apply IH2. reflexivity.
    + split.
      * intros result. split; [discriminate|].
        intros H. inversion H as [|? el ? r' [Hn _] _]; subst. congruence.
      * split; [|reflexivity]. intros _. apply Exists_cons_hd. exact Hname.
Qed.

(** X5. [convertKeySchema] returns exactly when every element has a name,
    and then the result has the length of the schema and holds, at each
    position, the name and the key type of the element at that position;
    it panics when an element has no name. *)
Theorem convertKeySchema_keeps_order (schema : list types_KeySchemaElement) :
  (forall result,
     convertKeySchema schema = Some result <-> Forall2 converted schema result)
  /\ (convertKeySchema schema = None <->
      Exists (fun key => types_AttributeName key = None) schema).
Proof. apply convertKeySchema_spec. Qed.

Lemma convertAttrDefinitions_from_other (name : string)
    (attrs : list types_AttributeDefinition) :
  forall result m,
    convertAttrDefinitions_from result attrs = Some m ->
    Forall (fun attr => def_AttributeName attr <> Some name) attrs ->
    m !! name = result !! name.
Proof.
  induction attrs as [|attr rest IH]; intros result m H Hall; simpl in H.
  - injection H as <-. reflexivity.
  - inversion Hall as [|? ? Hattr Hrest]; subst.
    destruct (def_AttributeName attr) as [n|] eqn:Hn; [|discriminate].
    rewrite (IH _ _ H Hrest). apply lookup_insert_ne. congruence.
Qed.

Lemma convertAttrDefinitions_from_app (before after : list types_AttributeDefinition) :
  forall result m,
    convertAttrDefinitions_from result (before ++ after) = Some m ->
    exists r, convertAttrDefinitions_from result before = Some r
              /\ convertAttrDefinitions_from r after = Some m.
Proof.
  induction before as [|attr rest IH]; intros result m H; simpl in *.
  - exists result. split; [reflexivity | exact H].
  - destruct (def_AttributeName attr); [apply IH; exact H | discriminate].
Qed.

(** X6. In the map that [convertAttrDefinitions] returns, an attribute has
    the type of its last definition in the list, earlier definitions of the
    same name are overwritten, and an attribute without definition is
    absent; [convertAttrDefinitions] panics when a definition has no name. *)
Theorem convertAttrDefinitions_last_wins (attrs : list types_AttributeDefinition) :
  (forall m before attr after name,
     convertAttrDefinitions attrs = Some m ->
     attrs = before ++ attr :: after ->
     def_AttributeName attr = Some name ->
     Forall (fun a => def_AttributeName a <> Some name) after ->
     m !! name = Some (def_AttributeType attr))
  /\ (forall m name,
        convertAttrDefinitions attrs = Some m ->
        Forall (fun a => def_AttributeName a <> Some name) attrs ->
        m !! name = None)
  /\ (convertAttrDefinitions attrs = None <->
      Exists (fun a => def_AttributeName a = None) attrs).
Proof.
  unfold convertAttrDefinitions. split_and!.
  - intros m before attr after name H -> Hname Hafter.
    apply convertAttrDefinitions_from_app in H as (r & _ & H).
    simpl in H. rewrite Hname in H.
    rewrite (convertAttrDefinitions_from_other name after _ m H Hafter).
    apply lookup_insert_eq.
  - intros m name H Hall.
    rewrite (convertAttrDefinitions_from_other name attrs ∅ m H Hall).
    apply lookup_empty.
  - generalize (∅ : gmap string string) as result.
    induction attrs as [|attr rest IH]; intros result; simpl.
    + split; [discriminate | intros H; inversion H].
    + destruct (def_AttributeName attr) as [n|] eqn:Hn.
      * rewrite IH. split; [intros H; apply Exists_cons_tl; exact H|].
        intros H. inversion H; subst; [congruence | assumption].
      * split; [intros _; apply Exists_cons_hd; exact Hn | reflexivity].
Qed.

(** ** Describing a table *)

Lemma convertIndexes_spec (indexes : list types_SecondaryIndexDescription) :
  forall acc result,
    convertIndexes acc indexes = Some result <->
    exists infos, result = acc ++ infos /\ Forall2 convertedIndex indexes infos.
Proof.
  induction indexes as [|index rest IH]; intros acc result; simpl.
  - split.
    + intros [= <-]. exists []. rewrite app_nil_r. split; [reflexivity | constructor].
    + intros (infos & -> & H). inversion H. rewrite app_nil_r. reflexivity.
  - destruct (types_IndexName index) as [name|] eqn:Hname.
    + destruct (convertKeySchema (types_IndexKeySchema index)) as [schema|] eqn:Hschema.
      * rewrite IH. split.
        -- intros (infos & -> & H).
           exists ({| IndexName := name; index_KeySchema := schema |} :: infos).
           rewrite <- app_assoc. split; [reflexivity|].
           constructor; [|exact H]. split; [exact Hname|].
           apply (convertKeySchema_spec (types_IndexKeySchema index)). exact Hschema.
        -- intros (infos & -> & H). inversion H as [|? info ? infos' [Hn Hs] Hrest]; subst.
           exists infos'. split; [|exact Hrest].
           apply (convertKeySchema_spec (types_IndexKeySchema index)) in Hs.
           rewrite Hname in Hn. rewrite Hschema in Hs.
           injection Hn as ->. injection Hs as ->.
           destruct info. rewrite <- app_assoc. reflexivity.
      * split; [discriminate|]. intros (infos & -> & H).
        inversion H as [|? info ? infos' [Hn Hs] Hrest]; subst.
        apply (convertKeySchema_spec (types_IndexKeySchema index)) in Hs. congruence.
    + split; [discriminate|]. intros (infos & -> & H).
      inversion H as [|? info ? infos' [Hn Hs] Hrest]; subst. congruence.
Qed.

(** X7. [DescribeTable] never reports a failure of the service.  With a
    client, when the call fails, a name of the mock data is answered with
    the mock table of that name, and any other name, whether the table
    exists or not, with [table not found]; a response without table is
    [table not found] too. *)
Theorem DescribeTable_hides_service_errors (c : dynamodb_Client)
    (config : option Config) (tableName : string) :
  let d := {| client := Some c; cfg := config |} in
  (api_DescribeTable c tableName = None ->
   (tableName ∈ mockTables ->
    exists info, DescribeTable d tableName = Return info /\ TableName info = tableName)
   /\ (tableName ∉ mockTables ->
       DescribeTable d tableName = Fail ("table not found: " +:+ tableName)))
  /\ (api_DescribeTable c tableName = Some None ->
      DescribeTable d tableName = Fail ("table not found: " +:+ tableName)).
Proof.
  cbv zeta. unfold DescribeTable. simpl. split.
  - intros ->. destruct (getMockTableInfo_cases tableName) as (H1 & H2 & _).
    split; assumption.
  - intros ->. reflexivity.
Qed.

(** X8. With a client, when the service answers with a table,
    [DescribeTable] returns exactly the conversion of the response: the name
    of the response (whatever name was asked for), its key schema in order,
    the map of its attribute definitions, and its global and local
    secondary indexes in order, each with its name and key schema.  It
    returns no error; it panics when a name of the response is nil. *)
Theorem DescribeTable_converts_the_response (c : dynamodb_Client)
    (config : option Config) (tableName : string) (table : types_TableDescription) :
  api_DescribeTable c tableName = Some (Some table) ->
  let d := {| client := Some c; cfg := config |} in
  (forall info,
     DescribeTable d tableName = Return info <->
     types_TableName table = Some (TableName info)
     /\ Forall2 converted (types_KeySchema table) (KeySchema info)
     /\ convertAttrDefinitions (types_AttributeDefinitions table)
        = Some (AttributeDefinitions info)
     /\ Forall2 convertedIndex (types_GlobalSecondaryIndexes table) (GSIs info)
     /\ Forall2 convertedIndex (types_LocalSecondaryIndexes table) (LSIs info))
  /\ (forall msg, DescribeTable d tableName <> Fail msg).
Proof.
  intros Hapi. cbv zeta. unfold DescribeTable. simpl. rewrite Hapi.
  pose proof (proj1 (convertKeySchema_spec (types_KeySchema table))) as HK.
  pose proof (convertIndexes_spec (types_GlobalSecondaryIndexes table) []) as HG.
  pose proof (convertIndexes_spec (types_LocalSecondaryIndexes table) []) as HL.
  destruct (types_TableName table) as [name|];
    [|split; [intros info; split; [discriminate | intros ([=] & _)] | discriminate]].
  destruct (convertKeySchema (types_KeySchema table)) as [schema|];
    [|split; [intros info; split; [discriminate|] | discriminate];
      intros (_ & H & _); apply HK in H; discriminate].
  destruct (convertAttrDefinitions (types_AttributeDefinitions table)) as [attrs|];
    [|split; [intros info; split; [discriminate|] | discriminate];
      intros (_ & _ & [=] & _)].
  destruct (convertIndexes [] (types_GlobalSecondaryIndexes table)) as [gsis|];
    [|split; [intros info; split; [discriminate|] | discriminate];
      intros (_ & _ & _ & H & _);
      assert (None = Some (GSIs info)) by (apply HG; exists (GSIs info); split; [reflexivity | exact H]);
      discriminate].
  destruct (convertIndexes [] (types_LocalSecondaryIndexes table)) as [lsis|];
    [|split; [intros info; split; [discriminate|] | discriminate];
      intros (_ & _ & _ & _ & H);
      assert (None = Some (LSIs info)) by (apply HL; exists (LSIs info); split; [reflexivity | exact H]);
      discriminate].
  split; [|discriminate]. intros info. split.
  - intros [= <-]. simpl. split_and!; try reflexivity.
    + apply HK. reflexivity.
    + destruct (proj1 (HG gsis) eq_refl) as (infos & -> & H). exact H.
    + destruct (proj1 (HL lsis) eq_refl) as (infos & -> & H). exact H.
  - intros ([= ->] & Hs & [= ->] & Hg & Hl).
    apply HK in Hs. injection Hs as ->.
    assert (Eg : Some gsis = Some (GSIs info))
      by (apply HG; exists (GSIs info); split; [reflexivity | exact Hg]).
    assert (El : Some lsis = Some (LSIs info))
      by (apply HL; exists (LSIs info); split; [reflexivity | exact Hl]).
    injection Eg as ->. injection El as ->. destruct info. reflexivity.
Qed.

(** ** Creating the client *)

Section ClientFacts.
Variable valid_url : string -> bool.
Variable json_Decode : string -> option credResponse.
Variable time_Parse_RFC3339 : string -> option Time.

Local Abbreviation Get := (GetCredentials valid_url json_Decode time_Parse_RFC3339).
Local Abbreviation Options := (loadOptions valid_url json_Decode time_Parse_RFC3339).

(** The options that do not depend on the resolver. *)
Lemma loadOptions_cases (c : Config) (env : Env) (w : World) :
  let base :=
    WithRegion (Region c)
    :: (if String.eqb (Endpoint c) "" then []
        else [WithEndpointResolverWithOptions (Endpoint c) (Region c)]) in
  (UseIMDS c || UseECSMetadata c = false /\ Options c env w = (Ok base, w))
  \/ (UseIMDS c || UseECSMetadata c = true /\
      ((exists cr w',
          Get c env w = (Ok cr, w')
          /\ Options c env w =
             (Ok (base ++ [WithCredentialsProvider (AccessKeyID cr)
                             (SecretAccessKey cr) (SessionToken cr)]), w'))
       \/ (exists e w', Get c env w = (Err e, w') /\ Options c env w = (Ok base, w')))).
Proof.
  cbv zeta. unfold loadOptions.
  destruct (UseIMDS c || UseECSMetadata c).
  - right. split; [reflexivity|].
    pose proof (GetCredentials_fiveSeconds valid_url json_Decode time_Parse_RFC3339 c env w)
      as (_ & Hr & _).
    destruct (Get c env w) as [[cr|e|] w'] eqn:HG; simpl in Hr.
    + left. exists cr, w'. split; [reflexivity|].
      destruct (String.eqb (Endpoint c) ""); reflexivity.
    + right. exists e, w'. split; [reflexivity|].
      destruct (String.eqb (Endpoint c) ""); reflexivity.
    + congruence.
  - left. split; [reflexivity|]. destruct (String.eqb (Endpoint c) ""); reflexivity.
Qed.

(** X9. The options that [createDynamoDBClient] hands to the SDK always
    begin with the region; the endpoint resolver is among them exactly when
    the endpoint of the configuration is not empty, and it signs for the
    region of the configuration; a static credentials provider is among
    them exactly when IMDS or the container metadata is enabled and
    [GetCredentials] has succeeded, and it holds the access key, secret and
    session token that [GetCredentials] returned (the expiration is not
    passed on).  A failure of [GetCredentials] only leaves the provider
    out. *)
Theorem loadOptions_contents (c : Config) (env : Env) (w : World) :
  exists opts w',
    Options c env w = (Ok opts, w')
    /\ head opts = Some (WithRegion (Region c))
    /\ (forall url region,
          WithEndpointResolverWithOptions url region ∈ opts <->
          Endpoint c <> "" /\ url = Endpoint c /\ region = Region c)
    /\ (forall a s t,
          WithCredentialsProvider a s t ∈ opts <->
          UseIMDS c || UseECSMetadata c = true
          /\ exists cr,
               Get c env w = (Ok cr, w')
               /\ a = AccessKeyID cr /\ s = SecretAccessKey cr /\ t = SessionToken cr).
Proof.
  assert (Hend : forall url region,
            WithEndpointResolverWithOptions url region
            ∈ (if String.eqb (Endpoint c) "" then []
               else [WithEndpointResolverWithOptions (Endpoint c) (Region c)]) <->
            Endpoint c <> "" /\ url = Endpoint c /\ region = Region c).
  { intros url region. destruct (String.eqb (Endpoint c) "") eqn:E.
    - apply String.eqb_eq in E. rewrite elem_of_nil. tauto.
    - apply String.eqb_neq in E. rewrite list_elem_of_singleton.
      split; [intros [= -> ->]; tauto | intros (_ & -> & ->); reflexivity]. }
  assert (Hnocred : forall a s t,
            WithCredentialsProvider a s t
            ∉ WithRegion (Region c)
              :: (if String.eqb (Endpoint c) "" then []
                  else [WithEndpointResolverWithOptions (Endpoint c) (Region c)])).
  { intros a s t H. apply elem_of_cons in H as [H|H]; [discriminate|].
    destruct (String.eqb (Endpoint c) ""); [inversion H|].
    apply list_elem_of_singleton in H. discriminate. }
  destruct (loadOptions_cases c env w)
    as [(Hflag & HO) | (Hflag & [(cr & w' & HG & HO) | (e & w' & HG & HO)])];
    rewrite HO; eexists _, _; (split; [reflexivity|]); (split; [reflexivity|]); split.
  - intros url region. rewrite elem_of_cons, Hend.
    split; [intros [H|H]; [discriminate | exact H] | intros H; right; exact H].
  - intros a s t. split; [intros H; exfalso; exact (Hnocred a s t H)|].
    intros (H & _). congruence.
  - intros url region. rewrite elem_of_app, elem_of_cons, Hend, list_elem_of_singleton.
    split; [intros [[H|H]|H]; [discriminate | exact H | discriminate] | intros H; left; right; exact H].
  - intros a s t. rewrite elem_of_app, list_elem_of_singleton. split.
    + intros [H|H]; [exfalso; exact (Hnocred a s t H)|].
      injection H as -> -> ->. split; [exact Hflag|]. exists cr.
      split_and!; [exact HG | reflexivity..].
    + intros (_ & cr' & HG' & -> & -> & ->). right.
      rewrite HG in HG'. injection HG' as <-. reflexivity.
  - intros url region. rewrite elem_of_cons, Hend.
    split; [intros [H|H]; [discriminate | exact H] | intros H; right; exact H].
  - intros a s t. split; [intros H; exfalso; exact (Hnocred a s t H)|].
    intros (_ & cr' & HG' & _). rewrite HG in HG'. discriminate.
Qed.

(** X10. When neither IMDS nor the container metadata is enabled,
    [createDynamoDBClient] does not call [GetCredentials] at all: no
    exchange, no time spent, and no static provider among the options, even
    when the environment holds both keys, which [GetCredentials] would
    return; they are left to the SDK's own chain. *)
Theorem resolver_is_skipped_when_metadata_is_disabled
    (c : Config) (env : Env) (w : World) :
  UseIMDS c = false -> UseECSMetadata c = false ->
  exists opts,
    Options c env w = (Ok opts, w)
    /\ (forall a s t, WithCredentialsProvider a s t ∉ opts)
    /\ (hasEnvironmentCredentials env = true ->
        Get c env w = (Ok (environmentCredentials env), w)).
Proof.
  intros H1 H2.
  destruct (loadOptions_cases c env w) as [(_ & HO) | (Hflag & _)];
    [|rewrite H1, H2 in Hflag; discriminate].
  eexists. split; [exact HO|]. split.
  - intros a s t H. apply elem_of_cons in H as [H|H]; [discriminate|].
    destruct (String.eqb (Endpoint c) ""); [inversion H|].
    apply list_elem_of_singleton in H. discriminate.
  - intros Henv. rewrite GetCredentials_unfold, Henv. reflexivity.
Qed.

Section SdkFacts.
Variable os_UserHomeDir : Env -> string.
Variable filepath_Join : string -> string -> string.
Variable aws_Config : Type.
Variable config_LoadDefaultConfig : list LoadOption -> option aws_Config.
Variable dynamodb_NewFromConfig : aws_Config -> dynamodb_Client.

Local Abbreviation Create :=
  (createDynamoDBClient valid_url json_Decode time_Parse_RFC3339
     aws_Config config_LoadDefaultConfig dynamodb_NewFromConfig).
Local Abbreviation New :=
  (NewDynamoClient valid_url json_Decode time_Parse_RFC3339 os_UserHomeDir filepath_Join
     aws_Config config_LoadDefaultConfig dynamodb_NewFromConfig).

(** X11. [createDynamoDBClient] always returns, within 30 seconds; its
    only error is [failed to load AWS SDK config], returned exactly when the
    SDK rejects the options.  So [NewDynamoClient] always returns a client
    value, holding the configuration of [LoadConfig]; the value has no SDK
    client exactly when the SDK has rejected the options, and then it
    serves the mock data: the three mock names, and the mock tables. *)
Theorem NewDynamoClient_never_fails (env : Env) (w : World) :
  let c := LoadConfig os_UserHomeDir filepath_Join env in
  exists opts w',
    Options c env w = (Ok opts, w')
    /\ now w <= now w' <= now w + 30 * Second
    /\ Create c env w =
       match config_LoadDefaultConfig opts with
       | Some awsConfig => (Ok (dynamodb_NewFromConfig awsConfig), w')
       | None => (Err "failed to load AWS SDK config", w')
       end
    /\ exists d,
         New env w = (Ok d, w')
         /\ cfg d = Some c
         /\ (client d = None <-> config_LoadDefaultConfig opts = None)
         /\ (client d = None ->
             (forall fuel, ListTables fuel d = Some mockTables)
             /\ forall tableName, DescribeTable d tableName = getMockTableInfo tableName).
Proof.
  cbv zeta. set (c := LoadConfig os_UserHomeDir filepath_Join env).
  assert (HO : exists opts w',
             Options c env w = (Ok opts, w') /\ now w <= now w' <= now w + 30 * Second).
  { pose proof (runs_deadline 6 _ w
                  (GetCredentials_fiveSeconds valid_url json_Decode time_Parse_RFC3339 c env))
      as Ht.
    destruct (loadOptions_cases c env w)
      as [(_ & HO) | (_ & [(cr & w' & HG & HO) | (e & w' & HG & HO)])];
      rewrite HO; eexists _, _; (split; [reflexivity|]).
    - unfold Second. lia.
    - rewrite HG in Ht. simpl in Ht. unfold Second in *. lia.
    - rewrite HG in Ht. simpl in Ht. unfold Second in *. lia. }
  destruct HO as (opts & w' & HO & Ht). exists opts, w'.
  split; [exact HO|]. split; [exact Ht|].
  assert (HC : Create c env w =
               match config_LoadDefaultConfig opts with
               | Some awsConfig => (Ok (dynamodb_NewFromConfig awsConfig), w')
               | None => (Err "failed to load AWS SDK config", w')
               end).
  { unfold createDynamoDBClient, bind. rewrite HO.
    destruct (config_LoadDefaultConfig opts); reflexivity. }
  split; [exact HC|].
  unfold NewDynamoClient. fold c. rewrite HC.
  destruct (config_LoadDefaultConfig opts) as [awsConfig|]; eexists;
    (split; [reflexivity|]); simpl; (split; [reflexivity|]); split.
  - split; discriminate.
  - discriminate.
  - split; reflexivity.
  - intros _. split; reflexivity.
Qed.

End SdkFacts.

End ClientFacts.

(** ** Instances *)

(** Two pages are listed as one list. *)
Lemma ListTables_concatenates_pages_witness :
  serves pagedService 0 None [["Events"; "Logs"]; ["Users"]]
  /\ (length [["Events"; "Logs"]; ["Users"]] <= 2)%nat
  /\ ListTables 2 {| client := Some pagedService; cfg := None |}
     = Some ["Events"; "Logs"; "Users"].
Proof.
  assert (H1 : serves pagedService 0 None [["Events"; "Logs"]; ["Users"]])
    by (exists "Logs"; split; reflexivity).
  assert (H2 : (length [["Events"; "Logs"]; ["Users"]] <= 2)%nat) by (simpl; lia).
  split; [exact H1|]. split; [exact H2|].
  exact (ListTables_concatenates_pages pagedService None _ 2%nat H1 H2).
Defined.

(** The service fails on the second page: the first page is dropped. *)
Lemma ListTables_falls_back_to_mock_witness :
  servesThenFails failingService 0 None [["Events"; "Logs"]]
  /\ (length [["Events"; "Logs"]] < 2)%nat
  /\ ListTables 2 {| client := Some failingService; cfg := None |}
     = Some ["Users"; "Products"; "Orders"].
Proof.
  assert (H1 : servesThenFails failingService 0 None [["Events"; "Logs"]])
    by (exists "Logs"; split; reflexivity).
  assert (H2 : (length [["Events"; "Logs"]] < 2)%nat) by (simpl; lia).
  split; [exact H1|]. split; [exact H2|].
  exact (proj2 ListTables_falls_back_to_mock failingService None _ 2%nat H1 H2).
Defined.

(** A thousand calls do not end the listing of the endless service. *)
Lemma ListTables_has_no_page_limit_witness :
  (forall n start,
     exists names token, api_ListTables endlessService n start = Some (names, Some token))
  /\ ListTables 1000 {| client := Some endlessService; cfg := None |} = None.
Proof.
  assert (H : forall n start,
            exists names token,
              api_ListTables endlessService n start = Some (names, Some token))
    by (intros n start; exists ["Events"], "Events"; reflexivity).
  split; [exact H|].
  exact (ListTables_has_no_page_limit endlessService None H 1000%nat).
Defined.

(** [Users] is a mock table; [Events] is none. *)
Lemma mock_tables_are_described_witness :
  ("Users" ∈ mockTables) /\ ("Events" ∉ mockTables)
  /\ (exists info, getMockTableInfo "Users" = Return info /\ TableName info = "Users")
  /\ getMockTableInfo "Events" = Fail "table not found: Events".
Proof.
  assert (H1 : "Users" ∈ mockTables) by (apply elem_of_cons; left; reflexivity).
  assert (H2 : "Events" ∉ mockTables).
  { unfold mockTables. rewrite !elem_of_cons, elem_of_nil.
    intros [H|[H|[H|[]]]]; discriminate. }
  split; [exact H1|]. split; [exact H2|]. split.
  - exact (proj1 (mock_tables_are_described "Users") H1).
  - exact (proj1 (proj2 (mock_tables_are_described "Events")) H2).
Defined.

(** The key schema of [Events]. *)
Lemma convertKeySchema_keeps_order_witness :
  convertKeySchema (types_KeySchema eventsTable)
  = Some [ {| AttributeName := "ID"; KeyType := "HASH" |};
           {| AttributeName := "At"; KeyType := "RANGE" |} ]
  /\ Forall2 converted (types_KeySchema eventsTable)
       [ {| AttributeName := "ID"; KeyType := "HASH" |};
         {| AttributeName := "At"; KeyType := "RANGE" |} ].
Proof.
  assert (H : convertKeySchema (types_KeySchema eventsTable)
              = Some [ {| AttributeName := "ID"; KeyType := "HASH" |};
                       {| AttributeName := "At"; KeyType := "RANGE" |} ])
    by reflexivity.
  split; [exact H|].
  exact (proj1 (proj1 (convertKeySchema_keeps_order (types_KeySchema eventsTable)) _) H).
Defined.

(** [Events] defines [ID] twice, as [N] and then as [S]: it is [S]. *)
Lemma convertAttrDefinitions_last_wins_witness :
  exists m,
    convertAttrDefinitions (types_AttributeDefinitions eventsTable) = Some m
    /\ m !! "ID" = Some "S" /\ m !! "At" = Some "N".
Proof.
  eexists. split; [reflexivity|].
  destruct (convertAttrDefinitions_last_wins (types_AttributeDefinitions eventsTable))
    as (H & _).
  split.
  - apply (H _ [ {| def_AttributeName := Some "ID"; def_AttributeType := "N" |};
                 {| def_AttributeName := Some "At"; def_AttributeType := "N" |} ]
             {| def_AttributeName := Some "ID"; def_AttributeType := "S" |} [] "ID");
      [reflexivity | reflexivity | reflexivity | constructor].
  - apply (H _ [ {| def_AttributeName := Some "ID"; def_AttributeType := "N" |} ]
             {| def_AttributeName := Some "At"; def_AttributeType := "N" |}
             [ {| def_AttributeName := Some "ID"; def_AttributeType := "S" |} ] "At");
      [reflexivity | reflexivity | reflexivity |].
    constructor; [simpl; discriminate | constructor].
Defined.

(** The service fails: [Users] is described from the mock data, [Events]
    is not found. *)
Lemma DescribeTable_hides_service_errors_witness :
  let d := {| client := Some failingService; cfg := None |} in
  api_DescribeTable failingService "Users" = None
  /\ api_DescribeTable failingService "Events" = None
  /\ (exists info, DescribeTable d "Users" = Return info /\ TableName info = "Users")
  /\ DescribeTable d "Events" = Fail "table not found: Events".
Proof.
  cbv zeta.
  assert (H1 : api_DescribeTable failingService "Users" = None) by reflexivity.
  assert (H2 : api_DescribeTable failingService "Events" = None) by reflexivity.
  assert (H3 : "Users" ∈ mockTables) by (apply elem_of_cons; left; reflexivity).
  assert (H4 : "Events" ∉ mockTables).
  { unfold mockTables. rewrite !elem_of_cons, elem_of_nil.
    intros [H|[H|[H|[]]]]; discriminate. }
  split; [exact H1|]. split; [exact H2|]. split.
  - exact (proj1 (proj1 (DescribeTable_hides_service_errors failingService None "Users") H1) H3).
  - exact (proj2 (proj1 (DescribeTable_hides_service_errors failingService None "Events") H2) H4).
Defined.

(** The description of [Events]. *)
Lemma DescribeTable_converts_the_response_witness :
  let d := {| client := Some pagedService; cfg := None |} in
  api_DescribeTable pagedService "Events" = Some (Some eventsTable)
  /\ exists info,
       DescribeTable d "Events" = Return info
       /\ TableName info = "Events"
       /\ Forall2 converted (types_KeySchema eventsTable) (KeySchema info)
       /\ Forall2 convertedIndex (types_GlobalSecondaryIndexes eventsTable) (GSIs info)
       /\ LSIs info = [].
Proof.
  cbv zeta.
  assert (H : api_DescribeTable pagedService "Events" = Some (Some eventsTable))
    by reflexivity.
  split; [exact H|]. eexists. split; [reflexivity|].
  destruct (DescribeTable_converts_the_response pagedService None "Events" eventsTable H)
    as (Hiff & _).
  destruct (proj1 (Hiff _) eq_refl) as (_ & Hk & _ & Hg & _).
  split; [reflexivity|]. split; [exact Hk|]. split; [exact Hg | reflexivity].
Defined.

(** A task of the container service: the region comes first. *)
Lemma loadOptions_contents_witness :
  let c := Go.load Go.ecsEnv in
  let w := Go.world (Go.ecsServer 200 Go.credentialsBody) in
  exists opts w',
    loadOptions Url.valid Json.Decode GoTime.Parse_RFC3339 c Go.ecsEnv w = (Ok opts, w')
    /\ head opts = Some (WithRegion "us-east-1").
Proof.
  cbv zeta.
  destruct (loadOptions_contents Url.valid Json.Decode GoTime.Parse_RFC3339
              (Go.load Go.ecsEnv) Go.ecsEnv (Go.world (Go.ecsServer 200 Go.credentialsBody)))
    as (opts & w' & HO & Hh & _).
  exists opts, w'. split; [exact HO | exact Hh].
Defined.

(** Keys in the environment, IMDS switched off: no provider is set. *)
Lemma resolver_is_skipped_when_metadata_is_disabled_witness :
  let env : Env := <[ "AWS_USE_IMDS" := "false" ]> Go.keysEnv in
  let c := Go.load env in
  let w := Go.world Go.unreachable in
  UseIMDS c = false /\ UseECSMetadata c = false
  /\ exists opts,
       loadOptions Url.valid Json.Decode GoTime.Parse_RFC3339 c env w = (Ok opts, w)
       /\ forall a s t, WithCredentialsProvider a s t ∉ opts.
Proof.
  cbv zeta.
  set (env := (<[ "AWS_USE_IMDS" := "false" ]> Go.keysEnv : Env)).
  assert (H1 : UseIMDS (Go.load env) = false) by (vm_compute; reflexivity).
  assert (H2 : UseECSMetadata (Go.load env) = false) by (vm_compute; reflexivity).
  split; [exact H1|]. split; [exact H2|].
  destruct (resolver_is_skipped_when_metadata_is_disabled
              Url.valid Json.Decode GoTime.Parse_RFC3339
              (Go.load env) env (Go.world Go.unreachable) H1 H2) as (opts & HO & Hc & _).
  exists opts. split; [exact HO | exact Hc].
Defined.

(** The SDK rejects the options: the client value serves the mock data. *)
Lemma NewDynamoClient_never_fails_witness :
  exists d w',
    NewDynamoClient Url.valid Json.Decode GoTime.Parse_RFC3339 Os.UserHomeDir Path.Join
      unit (fun _ => None) (fun _ => pagedService) ∅ (Go.world Go.unreachable)
    = (Ok d, w')
    /\ client d = None
    /\ ListTables 0 d = Some mockTables.
Proof.
  destruct (NewDynamoClient_never_fails Url.valid Json.Decode GoTime.Parse_RFC3339
              Os.UserHomeDir Path.Join unit (fun _ => None) (fun _ => pagedService)
              ∅ (Go.world Go.unreachable))
    as (opts & w' & _ & _ & _ & d & HN & _ & Hcl & Hmock).
  exists d, w'. split; [exact HN|].
  assert (Hnone : client d = None) by (apply Hcl; reflexivity).
  split; [exact Hnone|]. exact (proj1 (Hmock Hnone) 0%nat).
Defined.

End DbFacts.


(** * The terminal interface *)

Module UiFacts.
Import Ui.

Lemma index_in_range (l : list string) (i : Z) :
  0 <= i < len l -> exists name, index l i = Some name /\ name ∈ l.
Proof.
  intros [H0 H1]. unfold index, len in *.
  destruct (i <? 0) eqn:E; [apply Z.ltb_lt in E; lia|].
  destruct (lookup_lt_is_Some_2 l (Z.to_nat i)) as [name Hname]; [lia|].
  exists name. split; [exact Hname|]. eapply list_elem_of_lookup_2. exact Hname.
Qed.

Lemma index_out_of_range (l : list string) (i : Z) :
  len l <= i -> index l i = None.
Proof.
  intros H. unfold index, len in *.
  destruct (i <? 0) eqn:E; [reflexivity|]. apply Z.ltb_ge in E.
  apply lookup_ge_None_2. lia.
Qed.

(** One message that does not replace the list keeps the selection in
    range, and [Update] does not panic. *)
Lemma Update_in_range (m : Model) (msg : Msg) :
  selectionInRange m -> notTablesLoaded msg ->
  exists m' cmd,
    Update m msg = Db.Return (m', cmd)
    /\ selectionInRange m' /\ tables m' = tables m.
Proof.
  intros [H0 Hr] Hmsg. unfold selectionInRange.
  destruct msg as [key|wd ht|ts|info|e|]; simpl in *; try contradiction;
    try (eexists _, _; split; [reflexivity|]; simpl; auto).
  assert (Hopen : 0 < len (tables m) ->
                  exists name, index (tables m) (selectedTable m) = Some name).
  { intros Hl.
    destruct (index_in_range (tables m) (selectedTable m)) as (name & Hn & _); [lia|].
    exists name. exact Hn. }
  destruct (String.eqb key "ctrl+c" || String.eqb key "q");
    [eexists _, _; split; [reflexivity|]; auto|].
  destruct (String.eqb key "tab").
  { destruct (viewMode_ m);
      try (eexists _, _; split; [reflexivity|]; simpl; auto).
    destruct (0 <? len (tables m)) eqn:Hl;
      [|eexists _, _; split; [reflexivity|]; auto].
    destruct (Hopen (proj1 (Z.ltb_lt _ _) Hl)) as (name & ->).
    eexists _, _. split; [reflexivity|]. simpl. auto. }
  destruct (String.eqb key "up" || String.eqb key "k").
  { destruct (0 <? selectedTable m) eqn:Hs;
      eexists _, _; (split; [reflexivity|]); simpl; [|auto].
    apply Z.ltb_lt in Hs. split; [split|reflexivity]; lia. }
  destruct (String.eqb key "down" || String.eqb key "j").
  { destruct (selectedTable m <? len (tables m) - 1) eqn:Hs;
      eexists _, _; (split; [reflexivity|]); simpl; [|auto].
    apply Z.ltb_lt in Hs. split; [split|reflexivity]; lia. }
  destruct (String.eqb key "enter"); [|eexists _, _; split; [reflexivity|]; auto].
  destruct (viewMode_ m);
    try (eexists _, _; split; [reflexivity|]; simpl; auto).
  destruct (0 <? len (tables m)) eqn:Hl;
    [|eexists _, _; split; [reflexivity|]; auto].
  destruct (Hopen (proj1 (Z.ltb_lt _ _) Hl)) as (name & ->).
  eexists _, _. split; [reflexivity|]. simpl. auto.
Qed.

Lemma run_in_range (msgs : list Msg) :
  forall m,
    selectionInRange m -> Forall notTablesLoaded msgs ->
    exists m', run m msgs = Db.Return m' /\ selectionInRange m' /\ tables m' = tables m.
Proof.
  induction msgs as [|msg rest IH]; intros m Hm Hall; simpl.
  - exists m. auto.
  - inversion Hall as [|? ? Hmsg Hrest]; subst.
    destruct (Update_in_range m msg Hm Hmsg) as (m1 & cmd & -> & Hm1 & Ht1).
    destruct (IH m1 Hm1 Hrest) as (m' & Hrun & Hm' & Ht').
    exists m'. split; [exact Hrun|]. split; [exact Hm' | congruence].
Qed.

(** X12. A session in which the list of tables is loaded once never
    panics: whatever keys and other messages come before and after the
    list, [Update] returns each time, the list stays as loaded, and the
    selection stays an index of the list (zero when the list is empty). *)
Theorem session_never_panics (cl : Db.DynamoClient) (ts : list string)
    (before after : list Msg) :
  Forall notTablesLoaded before -> Forall notTablesLoaded after ->
  exists m,
    run (NewModel cl) (before ++ tablesLoadedMsg ts :: after) = Db.Return m
    /\ tables m = ts
    /\ 0 <= selectedTable m
    /\ (selectedTable m < len ts \/ selectedTable m = 0).
Proof.
  intros Hb Ha.
  assert (H0 : selectionInRange (NewModel cl)) by (split; [simpl; lia | right; reflexivity]).
  destruct (run_in_range before (NewModel cl) H0 Hb) as (m0 & Hrun0 & [Hge Hr] & Ht0).
  assert (Hsel : selectedTable m0 = 0).
  { destruct Hr as [Hr|Hr]; [|exact Hr]. rewrite Ht0 in Hr. simpl in Hr. unfold len in Hr. simpl in Hr. lia. }
  assert (Happ : forall l1 l2 m1 m2,
            run m1 l1 = Db.Return m2 -> run m1 (l1 ++ l2) = run m2 l2).
  { induction l1 as [|msg l1 IH]; intros l2 m1 m2; simpl.
    - intros [= ->]. reflexivity.
    - destruct (Update m1 msg) as [[m3 cmd]|e|]; try discriminate. apply IH. }
  rewrite (Happ _ _ _ _ Hrun0). simpl.
  match goal with |- context [run ?m after] => set (m1 := m) end.
  assert (H1 : selectionInRange m1) by (split; [simpl; lia | right; exact Hsel]).
  destruct (run_in_range after m1 H1 Ha) as (m & Hrun & [H2 H3] & Ht).
  exists m. rewrite Ht in H3. split_and!; assumption.
Qed.

(** X13. [Update] does not reset the selection when a list of tables
    arrives.  When the new list is not empty and shorter than the selection
    reaches, the Enter key, and the Tab key as well, in the list view make
    it index the list out of range: the program panics. *)
Theorem shorter_reload_panics (m : Model) (ts : list string) (key : string) :
  viewMode_ m = tableListMode ->
  0 < len ts <= selectedTable m ->
  key = "enter" \/ key = "tab" ->
  run m [tablesLoadedMsg ts; KeyMsg key] = Db.Panic.
Proof.
  intros Hv [Hl Hs] Hkey. simpl. rewrite Hv.
  assert (Hlt : (0 <? len ts) = true) by (apply Z.ltb_lt; exact Hl).
  destruct Hkey as [-> | ->]; simpl; rewrite Hlt, (index_out_of_range ts _ Hs); reflexivity.
Qed.

(** X14. With a list that is not empty and a selection in range, the Tab
    key goes round the three views: pressed three times, from any view, it
    brings the model back as it was.  With an empty list, Tab leaves the
    list view as it is. *)
Theorem tab_cycles_the_views (m : Model) :
  (0 <= selectedTable m < len (tables m) ->
   run m [KeyMsg "tab"; KeyMsg "tab"; KeyMsg "tab"] = Db.Return m)
  /\ (tables m = [] -> viewMode_ m = tableListMode ->
      Update m (KeyMsg "tab") = Db.Return (m, noCmd)).
Proof.
  split.
  - intros Hr.
    destruct (index_in_range (tables m) (selectedTable m) Hr) as (name & Hn & _).
    assert (Hl : (0 <? len (tables m)) = true) by (apply Z.ltb_lt; lia).
    destruct m as [tbl sel v data wd ht ld er cl]. simpl in *.
    destruct v; simpl; rewrite Hl; simpl; rewrite Hn; reflexivity.
  - intros Ht Hv. simpl. rewrite Hv, Ht. reflexivity.
Qed.

(** X15. [Update] asks for the description of a table only from the list
    view, on Tab or Enter, and only for the table under the selection, a
    name of the list; the view is then the table view. *)
Theorem loadTableInfo_is_for_the_selected_table (m : Model) (msg : Msg)
    (m' : Model) (name : string) :
  Update m msg = Db.Return (m', loadTableInfo name) ->
  (msg = KeyMsg "tab" \/ msg = KeyMsg "enter")
  /\ viewMode_ m = tableListMode
  /\ viewMode_ m' = tableViewMode
  /\ index (tables m) (selectedTable m) = Some name
  /\ name ∈ tables m
  /\ tables m' = tables m /\ selectedTable m' = selectedTable m.
Proof.
  assert (Hin : forall l i n, index l i = Some n -> n ∈ l).
  { intros l i n. unfold index. destruct (i <? 0); [discriminate|].
    apply list_elem_of_lookup_2. }
  destruct msg as [key|wd ht|ts|info|e|]; simpl; try discriminate.
  destruct (String.eqb key "ctrl+c" || String.eqb key "q"); [discriminate|].
  destruct (String.eqb key "tab") eqn:Etab.
  { apply String.eqb_eq in Etab. subst key.
    destruct (viewMode_ m) eqn:Hv; try discriminate.
    destruct (0 <? len (tables m)); [|discriminate].
    destruct (index (tables m) (selectedTable m)) as [n|] eqn:Hn; [|discriminate].
    intros [= <- <-]. simpl. split_and!; auto. eapply Hin. exact Hn. }
  destruct (String.eqb key "up" || String.eqb key "k");
    [destruct (0 <? selectedTable m); discriminate|].
  destruct (String.eqb key "down" || String.eqb key "j");
    [destruct (selectedTable m <? len (tables m) - 1); discriminate|].
  destruct (String.eqb key "enter") eqn:Eenter; [|discriminate].
  apply String.eqb_eq in Eenter. subst key.
  destruct (viewMode_ m) eqn:Hv; try discriminate.
  destruct (0 <? len (tables m)); [|discriminate].
  destruct (index (tables m) (selectedTable m)) as [n|] eqn:Hn; [|discriminate].
  intros [= <- <-]. simpl. split_and!; auto. eapply Hin. exact Hn.
Qed.

Lemma Update_keeps_error (m : Model) (msg : Msg) (m' : Model) (cmd : Cmd) :
  notErrorMsg msg -> Update m msg = Db.Return (m', cmd) -> error m' = error m.
Proof.
  intros Hmsg. destruct msg as [key|wd ht|ts|info|e|]; simpl in *; try contradiction;
    try (intros [= <- <-]; reflexivity).
  destruct (String.eqb key "ctrl+c" || String.eqb key "q"); [intros [= <- <-]; reflexivity|].
  destruct (String.eqb key "tab").
  { destruct (viewMode_ m); try (intros [= <- <-]; reflexivity).
    destruct (0 <? len (tables m)); [|intros [= <- <-]; reflexivity].
    destruct (index _ _); [intros [= <- <-]; reflexivity | discriminate]. }
  destruct (String.eqb key "up" || String.eqb key "k");
    [destruct (0 <? selectedTable m); intros [= <- <-]; reflexivity|].
  destruct (String.eqb key "down" || String.eqb key "j");
    [destruct (selectedTable m <? len (tables m) - 1); intros [= <- <-]; reflexivity|].
  destruct (String.eqb key "enter"); [|intros [= <- <-]; reflexivity].
  destruct (viewMode_ m); try (intros [= <- <-]; reflexivity).
  destruct (0 <? len (tables m)); [|intros [= <- <-]; reflexivity].
  destruct (index _ _); [intros [= <- <-]; reflexivity | discriminate].
Qed.

(** X16. An error, once recorded in the model, stays: no key, no resize,
    no list of tables and no table description that arrives later clears
    or changes it; only another error message replaces it. *)
Theorem error_is_sticky (msgs : list Msg) :
  forall m m',
    Forall notErrorMsg msgs -> run m msgs = Db.Return m' -> error m' = error m.
Proof.
  induction msgs as [|msg rest IH]; intros m m' Hall; simpl.
  - intros [= <-]. reflexivity.
  - inversion Hall as [|? ? Hmsg Hrest]; subst.
    destruct (Update m msg) as [[m1 cmd]|e|] eqn:HU; try discriminate.
    intros Hrun. rewrite (IH m1 m' Hrest Hrun).
    apply (Update_keeps_error m msg m1 cmd Hmsg HU).
Qed.

(** ** The screen *)

Lemma Update_keeps_loaded (m : Model) (msg : Msg) (m' : Model) (cmd : Cmd) :
  loading m = false -> Update m msg = Db.Return (m', cmd) -> loading m' = false.
Proof.
  intros Hl. destruct msg as [key|wd ht|ts|info|e|]; simpl;
    try (intros [= <- <-]; simpl; auto).
  destruct (String.eqb key "ctrl+c" || String.eqb key "q"); [intros [= <- <-]; exact Hl|].
  destruct (String.eqb key "tab").
  { destruct (viewMode_ m); try (intros [= <- <-]; exact Hl).
    destruct (0 <? len (tables m)); [|intros [= <- <-]; exact Hl].
    destruct (index _ _); [intros [= <- <-]; exact Hl | discriminate]. }
  destruct (String.eqb key "up" || String.eqb key "k");
    [destruct (0 <? selectedTable m); intros [= <- <-]; exact Hl|].
  destruct (String.eqb key "down" || String.eqb key "j");
    [destruct (selectedTable m <? len (tables m) - 1); intros [= <- <-]; exact Hl|].
  destruct (String.eqb key "enter"); [|intros [= <- <-]; exact Hl].
  destruct (viewMode_ m); try (intros [= <- <-]; exact Hl).
  destruct (0 <? len (tables m)); [|intros [= <- <-]; exact Hl].
  destruct (index _ _); [intros [= <- <-]; exact Hl | discriminate].
Qed.

(** Before anything is loaded, a key or a resize changes nothing but the
    size. *)
Lemma Update_keeps_loading (m : Model) (msg : Msg) :
  keepsLoading msg ->
  loading m = true -> tables m = [] -> selectedTable m = 0 ->
  viewMode_ m = tableListMode ->
  exists m' cmd,
    Update m msg = Db.Return (m', cmd)
    /\ loading m' = true /\ tables m' = [] /\ selectedTable m' = 0
    /\ viewMode_ m' = tableListMode
    /\ tableData m' = tableData m /\ error m' = error m.
Proof.
  intros Hmsg Hl Ht Hs Hv.
  destruct msg as [key|wd ht|ts|info|e|]; simpl in *; try contradiction;
    try (eexists _, _; split; [reflexivity|]; simpl; split_and!; auto; fail).
  rewrite Hv, Ht, Hs. simpl.
  destruct (String.eqb key "ctrl+c" || String.eqb key "q");
    [eexists _, _; split; [reflexivity|]; split_and!; auto|].
  destruct (String.eqb key "tab");
    [eexists _, _; split; [reflexivity|]; split_and!; auto|].
  destruct (String.eqb key "up" || String.eqb key "k");
    [eexists _, _; split; [reflexivity|]; split_and!; auto|].
  destruct (String.eqb key "down" || String.eqb key "j");
    [eexists _, _; split; [reflexivity|]; split_and!; auto|].
  destruct (String.eqb key "enter");
    eexists _, _; (split; [reflexivity|]); split_and!; auto.
Qed.

(** Once loaded, the model stays loaded, and keeps its error until the
    next one. *)
Lemma run_after_loading (msgs : list Msg) :
  forall m m',
    loading m = false -> Forall notErrorMsg msgs -> run m msgs = Db.Return m' ->
    loading m' = false /\ error m' = error m.
Proof.
  induction msgs as [|msg rest IH]; intros m m' Hl Hall; simpl.
  - intros [= <-]. auto.
  - inversion Hall as [|? ? Hmsg Hrest]; subst.
    destruct (Update m msg) as [[m1 cmd]|?|] eqn:HU; try discriminate.
    intros Hrun.
    destruct (IH m1 m' (Update_keeps_loaded m msg m1 cmd Hl HU) Hrest Hrun) as [Hl' He'].
    split; [exact Hl'|]. rewrite He'. apply (Update_keeps_error m msg m1 cmd Hmsg HU).
Qed.

Section ViewFacts.
Variable titleStyle : string -> string.
Variable boldStyle : string -> string.

Local Abbreviation Renders := (renders titleStyle boldStyle).

Section OneRender.
Variable entries : list (string * string).

Local Abbreviation Screen := (View titleStyle boldStyle entries).

(** X17. Until the first answer of a command arrives, the screen is
    [Loading...] and the keys do nothing: whatever keys are pressed and
    whatever sizes arrive, [Update] returns, the list stays empty, the
    selection zero, the view the list view, and nothing is described. *)
Theorem loading_screen_until_loaded (cl : Db.DynamoClient) (msgs : list Msg) :
  Forall keepsLoading msgs ->
  exists m,
    run (NewModel cl) msgs = Db.Return m
    /\ Screen m = "Loading..."
    /\ tables m = [] /\ selectedTable m = 0 /\ viewMode_ m = tableListMode
    /\ tableData m = None /\ error m = None.
Proof.
  intros Hall.
  assert (H : forall m,
            loading m = true -> tables m = [] -> selectedTable m = 0 ->
            viewMode_ m = tableListMode ->
            exists m',
              run m msgs = Db.Return m'
              /\ loading m' = true /\ tables m' = [] /\ selectedTable m' = 0
              /\ viewMode_ m' = tableListMode
              /\ tableData m' = tableData m /\ error m' = error m).
  { induction Hall as [|msg rest Hmsg _ IH]; intros m Hl Ht Hs Hv; simpl.
    - exists m. split_and!; auto.
    - destruct (Update_keeps_loading m msg Hmsg Hl Ht Hs Hv)
        as (m1 & cmd & -> & Hl1 & Ht1 & Hs1 & Hv1 & Hd1 & He1).
      destruct (IH m1 Hl1 Ht1 Hs1 Hv1) as (m' & Hrun & Hl' & Ht' & Hs' & Hv' & Hd' & He').
      exists m'. split_and!; auto; congruence. }
  destruct (H (NewModel cl)) as (m & Hrun & Hl & Ht & Hs & Hv & Hd & He);
    try reflexivity.
  exists m. split_and!; auto. unfold View. rewrite Hl. reflexivity.
Qed.

(** X18. The error screen is final: once an error has arrived, the screen
    is [Error: ] followed by its text after every later key, resize, list
    of tables and table description; nothing brings the views back. *)
Theorem error_screen_is_final (m : Model) (e : string) (msgs : list Msg) (m' : Model) :
  Forall notErrorMsg msgs ->
  run m (errorMsg (Some e) :: msgs) = Db.Return m' ->
  Screen m' = "Error: " +:+ e.
Proof.
  intros Hall. simpl. intros Hrun.
  apply run_after_loading in Hrun as [Hl He]; [|reflexivity | exact Hall].
  unfold View. rewrite Hl, He. reflexivity.
Qed.

End OneRender.

(** X19. Choosing a table does not clear the description held.  When a
    table is chosen in the list view while a description is held, the
    command asks for the chosen table, and the screen is the table view of
    the description held, whatever table was chosen: for each order in
    which the attributes may be gone through, it is the screen of every
    model that holds this description, so the screens that [View] may
    return are the same for both. *)
Theorem chosen_table_shows_the_description_held (m : Model) (data : Db.TableInfo)
    (key : string) :
  loading m = false -> error m = None -> viewMode_ m = tableListMode ->
  tableData m = Some data ->
  0 <= selectedTable m < len (tables m) ->
  key = "enter" \/ key = "tab" ->
  exists m' name,
    Update m (KeyMsg key) = Db.Return (m', loadTableInfo name)
    /\ index (tables m) (selectedTable m) = Some name
    /\ forall m2,
         loading m2 = false -> error m2 = None -> viewMode_ m2 = tableViewMode ->
         tableData m2 = Some data ->
         (forall entries,
            View titleStyle boldStyle entries m' = View titleStyle boldStyle entries m2)
         /\ (forall screen, Renders m' screen <-> Renders m2 screen).
Proof.
  intros Hl He Hv Hd Hr Hkey.
  destruct (index_in_range (tables m) (selectedTable m) Hr) as (name & Hn & _).
  assert (Hlt : (0 <? len (tables m)) = true) by (apply Z.ltb_lt; lia).
  exists (setViewMode m tableViewMode), name. split_and!.
  - destruct Hkey as [-> | ->]; simpl; rewrite Hv, Hlt, Hn; reflexivity.
  - exact Hn.
  - intros m2 Hl2 He2 Hv2 Hd2.
    assert (HV : forall entries,
              View titleStyle boldStyle entries (setViewMode m tableViewMode)
              = View titleStyle boldStyle entries m2).
    { intros entries. unfold View. simpl.
      rewrite Hl, He, Hd, Hl2, He2, Hv2, Hd2. reflexivity. }
    split; [exact HV|]. intros screen. unfold renders. simpl. rewrite Hd, Hd2.
    split; intros (entries & Ho & <-); exists entries; (split; [exact Ho|]);
      [symmetry|]; apply HV.
Qed.

(** X20. The size of the window is recorded and never read.  A resize
    returns no command and leaves every other field of the model as it is;
    for each order in which the attributes may be gone through, the screen
    after the resize is the screen before it, so the screens that [View]
    may return are the same before and after. *)
Theorem resize_leaves_the_screen (m : Model) (w h : Z) :
  exists m',
    Update m (WindowSizeMsg w h) = Db.Return (m', noCmd)
    /\ width m' = w /\ height m' = h
    /\ (forall entries,
          View titleStyle boldStyle entries m' = View titleStyle boldStyle entries m)
    /\ (forall screen, Renders m' screen <-> Renders m screen).
Proof.
  eexists. split; [reflexivity|].
  split_and!; [reflexivity | reflexivity | intros entries; reflexivity |].
  intros screen. unfold renders. simpl. reflexivity.
Qed.

End ViewFacts.

(** ** Instances *)

(** The mock client, and a model with three tables, the last selected. *)
Local Abbreviation mock := {| Db.client := None; Db.cfg := None |}.
Local Abbreviation threeTables :=
  {| tables := ["Users"; "Products"; "Orders"]; selectedTable := 2;
     viewMode_ := tableListMode; tableData := None; width := 80; height := 24;
     loading := false; error := None; client := Some mock |}.
Local Abbreviation plain := (fun s : string => s).
Local Abbreviation noEntries := (@nil (string * string)).

(** Keys before the list arrives, then the list, then keys that go past
    the end of the list. *)
Lemma session_never_panics_witness :
  let before := [KeyMsg "down"; KeyMsg "enter"; WindowSizeMsg 80 24] in
  let after := [KeyMsg "down"; KeyMsg "down"; KeyMsg "down"; KeyMsg "enter"] in
  Forall notTablesLoaded before /\ Forall notTablesLoaded after
  /\ exists m,
       run (NewModel mock) (before ++ tablesLoadedMsg ["Users"; "Orders"] :: after)
       = Db.Return m
       /\ tables m = ["Users"; "Orders"]
       /\ 0 <= selectedTable m.
Proof.
  cbv zeta.
  assert (H1 : Forall notTablesLoaded [KeyMsg "down"; KeyMsg "enter"; WindowSizeMsg 80 24])
    by (repeat constructor).
  assert (H2 : Forall notTablesLoaded
                 [KeyMsg "down"; KeyMsg "down"; KeyMsg "down"; KeyMsg "enter"])
    by (repeat constructor).
  split; [exact H1|]. split; [exact H2|].
  destruct (session_never_panics mock ["Users"; "Orders"] _ _ H1 H2)
    as (m & Hrun & Ht & Hs & _).
  exists m. split; [exact Hrun|]. split; [exact Ht | exact Hs].
Defined.

(** The third of three tables is selected, a list of one table arrives,
    Enter is pressed. *)
Lemma shorter_reload_panics_witness :
  viewMode_ threeTables = tableListMode
  /\ 0 < len ["Users"] <= selectedTable threeTables
  /\ run threeTables [tablesLoadedMsg ["Users"]; KeyMsg "enter"] = Db.Panic.
Proof.
  assert (H1 : viewMode_ threeTables = tableListMode) by reflexivity.
  assert (H2 : 0 < len ["Users"] <= selectedTable threeTables)
    by (unfold len; simpl; lia).
  split; [exact H1|]. split; [exact H2|].
  exact (shorter_reload_panics threeTables ["Users"] "enter" H1 H2 (or_introl eq_refl)).
Defined.

(** Three times Tab, from the list view. *)
Lemma tab_cycles_the_views_witness :
  0 <= selectedTable threeTables < len (tables threeTables)
  /\ run threeTables [KeyMsg "tab"; KeyMsg "tab"; KeyMsg "tab"] = Db.Return threeTables.
Proof.
  assert (H : 0 <= selectedTable threeTables < len (tables threeTables))
    by (unfold len; simpl; lia).
  split; [exact H|].
  exact (proj1 (tab_cycles_the_views threeTables) H).
Defined.

(** Enter on the third table asks for [Orders]. *)
Lemma loadTableInfo_is_for_the_selected_table_witness :
  Update threeTables (KeyMsg "enter")
  = Db.Return (setViewMode threeTables tableViewMode, loadTableInfo "Orders")
  /\ index (tables threeTables) (selectedTable threeTables) = Some "Orders"
  /\ "Orders" ∈ tables threeTables.
Proof.
  assert (H : Update threeTables (KeyMsg "enter")
              = Db.Return (setViewMode threeTables tableViewMode, loadTableInfo "Orders"))
    by reflexivity.
  split; [exact H|].
  destruct (loadTableInfo_is_for_the_selected_table _ _ _ _ H) as (_ & _ & _ & Hi & Hin & _).
  split; [exact Hi | exact Hin].
Defined.

(** An error, then a list of tables and keys: the error is still there. *)
Lemma error_is_sticky_witness :
  let msgs := [tablesLoadedMsg ["Users"]; KeyMsg "enter"; tableInfoLoadedMsg None] in
  Forall notErrorMsg msgs
  /\ exists m',
       run (mkModel [] 0 tableListMode None 0 0 false (Some "timeout") None) msgs
       = Db.Return m'
       /\ error m' = Some "timeout".
Proof.
  cbv zeta.
  assert (H : Forall notErrorMsg
                [tablesLoadedMsg ["Users"]; KeyMsg "enter"; tableInfoLoadedMsg None])
    by (repeat constructor).
  split; [exact H|]. eexists. split; [reflexivity|].
  change (Some "timeout")
    with (error (mkModel [] 0 tableListMode None 0 0 false (Some "timeout") None)).
  apply (error_is_sticky _ _ _ H). reflexivity.
Defined.

(** Keys and a resize before anything has arrived. *)
Lemma loading_screen_until_loaded_witness :
  let msgs := [KeyMsg "down"; KeyMsg "enter"; KeyMsg "tab"; WindowSizeMsg 80 24] in
  Forall keepsLoading msgs
  /\ exists m,
       run (NewModel mock) msgs = Db.Return m
       /\ View plain plain noEntries m = "Loading...".
Proof.
  cbv zeta.
  assert (H : Forall keepsLoading
                [KeyMsg "down"; KeyMsg "enter"; KeyMsg "tab"; WindowSizeMsg 80 24])
    by (repeat constructor).
  split; [exact H|].
  destruct (loading_screen_until_loaded plain plain noEntries mock _ H)
    as (m & Hrun & Hv & _).
  exists m. split; [exact Hrun | exact Hv].
Defined.

(** An error, then the list of tables and keys. *)
Lemma error_screen_is_final_witness :
  let msgs := [tablesLoadedMsg ["Users"]; KeyMsg "enter"; tableInfoLoadedMsg None] in
  Forall notErrorMsg msgs
  /\ exists m',
       run (NewModel mock) (errorMsg (Some "timeout") :: msgs) = Db.Return m'
       /\ View plain plain noEntries m' = "Error: timeout".
Proof.
  cbv zeta.
  assert (H : Forall notErrorMsg
                [tablesLoadedMsg ["Users"]; KeyMsg "enter"; tableInfoLoadedMsg None])
    by (repeat constructor).
  split; [exact H|]. eexists. split; [reflexivity|].
  apply (error_screen_is_final plain plain noEntries (NewModel mock) "timeout" _ _ H).
  reflexivity.
Defined.

(** [Orders] is chosen while the description of [Users], with two
    attributes, is held. *)
Lemma chosen_table_shows_the_description_held_witness :
  let users :=
    {| Db.TableName := "Users"; Db.KeySchema := [];
       Db.AttributeDefinitions := {[ "UserID" := "S"; "Email" := "S" ]};
       Db.GSIs := []; Db.LSIs := [] |} in
  let m :=
    {| tables := ["Users"; "Products"; "Orders"]; selectedTable := 2;
       viewMode_ := tableListMode; tableData := Some users; width := 80; height := 24;
       loading := false; error := None; client := Some mock |} in
  let m2 := mkModel [] 0 tableViewMode (Some users) 0 0 false None None in
  0 <= selectedTable m < len (tables m)
  /\ exists m',
       Update m (KeyMsg "enter") = Db.Return (m', loadTableInfo "Orders")
       /\ forall screen, renders plain plain m' screen <-> renders plain plain m2 screen.
Proof.
  cbv zeta.
  match goal with |- ?A /\ _ => assert (H : A) by (unfold len; simpl; lia) end.
  split; [exact H|].
  match type of H with
  | _ <= selectedTable ?model < _ =>
      destruct (chosen_table_shows_the_description_held plain plain model _ "enter"
                  eq_refl eq_refl eq_refl eq_refl H (or_introl eq_refl))
        as (m' & name & HU & Hn & Hscreen)
  end.
  exists m'. split.
  - rewrite HU. injection Hn as <-. reflexivity.
  - apply Hscreen; reflexivity.
Defined.

(** A resize of the list view. *)
Lemma resize_leaves_the_screen_witness :
  exists m',
    Update threeTables (WindowSizeMsg 132 43) = Db.Return (m', noCmd)
    /\ width m' = 132
    /\ forall screen, renders plain plain m' screen <-> renders plain plain threeTables screen.
Proof.
  destruct (resize_leaves_the_screen plain plain threeTables 132 43)
    as (m' & HU & Hw & _ & _ & Hv).
  exists m'. split; [exact HU|]. split; [exact Hw | exact Hv].
Defined.

End UiFacts.


(** * More of the package [config] *)

Section ConfigFacts.
Variable valid_url : string -> bool.
Variable json_Decode : string -> option credResponse.
Variable time_Parse_RFC3339 : string -> option Time.

Local Abbreviation ECS := (getECSCredentials valid_url json_Decode time_Parse_RFC3339).
Local Abbreviation V1 := (getIMDSv1Credentials valid_url json_Decode time_Parse_RFC3339).
Local Abbreviation V2 := (getIMDSv2Credentials valid_url json_Decode time_Parse_RFC3339).
Local Abbreviation IMDS := (imdsStrategy valid_url json_Decode time_Parse_RFC3339).
Local Abbreviation Get := (GetCredentials valid_url json_Decode time_Parse_RFC3339).

(** An exchange that ends with a response: what the network has answered,
    and what is logged. *)
Lemma Do_Ok (c : Client) (req : Request) (w : World) (resp : Response) (w' : World) :
  Do c req w = (Ok resp, w') ->
  (exists after, network w (sent w) req = Answer after resp)
  /\ sent w' = sent w ++ [mkExchange req (limit c req)]
  /\ network w' = network w.
Proof.
  unfold Do, roundTrip.
  destruct (network w (sent w) req) as [|after|after r].
  - destruct (limit c req); discriminate.
  - destruct (expired (limit c req) after); discriminate.
  - destruct (expired (limit c req) after); [discriminate|].
    intros [= -> <-]. split_and!; [exists after; reflexivity | reflexivity..].
Qed.

Lemma exchange200_Ok (c : Client) (req : Request) (w : World) (body : string) (w' : World) :
  exchange200 c (Ok req) w body w' ->
  (exists after, network w (sent w) req = Answer after (mkResponse 200 (Some body)))
  /\ sent w' = sent w ++ [mkExchange req (limit c req)]
  /\ network w' = network w.
Proof.
  intros (r & resp & [= <-] & HDo & Hst & Hb).
  destruct (Do_Ok c req w resp w' HDo) as ((after & Hn) & Hs & Hnet).
  split_and!; [|exact Hs | exact Hnet]. exists after. rewrite Hn.
  destruct resp as [st b]. simpl in *. subst. reflexivity.
Qed.

Lemma exchange200_request (c : Client) (req : result Request)
    (w : World) (body : string) (w' : World) :
  exchange200 c req w body w' -> exists r, req = Ok r.
Proof. intros (r & resp & -> & _). exists r. reflexivity. Qed.

Lemma NewRequest_shape (method url : string) (r : Request) :
  NewRequest valid_url method url = Ok r -> r = mkRequest method url [] None.
Proof. intros H. apply NewRequestWithContext_Ok in H as [_ ->]. reflexivity. Qed.

(** X21. When the secured flow succeeds it has made exactly three
    exchanges, in this order: the PUT of the token request, with the header
    that asks for a token of 21600 seconds; the GET of the role listing; the
    GET of the listing's address followed by the body of the second
    response, as it is.  Both GETs carry, in their token header, the body of
    the first response, as it is. *)
Theorem secured_flow_requests (w : World) (cr : Credentials) (w' : World) :
  V2 w = (Ok cr, w') ->
  exists token role after1 after2,
    network w (sent w) (ex_request tokenExchange)
    = Answer after1 (mkResponse 200 (Some token))
    /\ network w (sent w ++ [tokenExchange]) (ex_request (v2Exchange token ""))
       = Answer after2 (mkResponse 200 (Some role))
    /\ sent w' = sent w ++ [tokenExchange; v2Exchange token ""; v2Exchange token role].
Proof.
  intros H. apply v2_Ok_iff in H as (dec & (token & w1 & role & w2 & body & H1 & H2 & H3 & _) & _).
  destruct (exchange200_request _ _ _ _ _ H1) as (r1 & Hr1).
  destruct (exchange200_request _ _ _ _ _ H2) as (r2 & Hr2).
  destruct (exchange200_request _ _ _ _ _ H3) as (r3 & Hr3).
  rewrite Hr1 in H1. rewrite Hr2 in H2. rewrite Hr3 in H3.
  apply withHeader_Ok in Hr1 as (q1 & Hq1 & ->).
  apply withHeader_Ok in Hr2 as (q2 & Hq2 & ->).
  apply withHeader_Ok in Hr3 as (q3 & Hq3 & ->).
  apply NewRequest_shape in Hq1, Hq2, Hq3. subst q1 q2 q3.
  apply exchange200_Ok in H1 as ((after1 & Hn1) & Hs1 & Hnet1).
  apply exchange200_Ok in H2 as ((after2 & Hn2) & Hs2 & _).
  apply exchange200_Ok in H3 as (_ & Hs3 & _).
  exists token, role, after1, after2. split_and!.
  - exact Hn1.
  - rewrite <- Hnet1. change [tokenExchange] with
      [mkExchange (Header_Set (mkRequest "PUT" imdsTokenURL [] None)
                     "X-aws-ec2-metadata-token-ttl-seconds" "21600")
         (limit (mkClient (5 * Second))
            (Header_Set (mkRequest "PUT" imdsTokenURL [] None)
               "X-aws-ec2-metadata-token-ttl-seconds" "21600"))].
    rewrite <- Hs1. exact Hn2.
  - rewrite Hs3, Hs2, Hs1, <- !app_assoc. reflexivity.
Qed.

(** X22. When the legacy flow succeeds it has made exactly two exchanges,
    both GETs without any header: the role listing, then the listing's
    address followed by the body of the first response, as it is (nothing
    is trimmed from it). *)
Theorem legacy_flow_requests (w : World) (cr : Credentials) (w' : World) :
  V1 w = (Ok cr, w') ->
  exists role after1,
    network w (sent w) (ex_request (v1Exchange ""))
    = Answer after1 (mkResponse 200 (Some role))
    /\ sent w' = sent w ++ [v1Exchange ""; v1Exchange role].
Proof.
  intros H. apply v1_Ok_iff in H as (dec & (role & w1 & body & H1 & H2 & _) & _).
  destruct (exchange200_request _ _ _ _ _ H1) as (r1 & Hr1).
  destruct (exchange200_request _ _ _ _ _ H2) as (r2 & Hr2).
  rewrite Hr1 in H1. rewrite Hr2 in H2.
  apply NewRequest_shape in Hr1, Hr2. subst r1 r2.
  apply exchange200_Ok in H1 as ((after1 & Hn1) & Hs1 & _).
  apply exchange200_Ok in H2 as (_ & Hs2 & _).
  exists role, after1. split; [exact Hn1|].
  rewrite Hs2, Hs1, <- app_assoc. reflexivity.
Qed.

(** X23. When the container strategy succeeds it has made exactly one
    exchange: a GET of the fixed host followed by the value of
    [AWS_CONTAINER_CREDENTIALS_RELATIVE_URI], as it is, without any header,
    under a context of five seconds.  Without that variable, or with an
    empty value, the strategy fails at once with
    [AWS_CONTAINER_CREDENTIALS_RELATIVE_URI not set], in the world it
    started in, and [GetCredentials], when it has the container strategy
    enabled, goes on to the instance-metadata stage from that same world. *)
Theorem container_strategy_request (env : Env) (w : World) :
  (forall cr w',
     ECS env w = (Ok cr, w') ->
     Getenv env "AWS_CONTAINER_CREDENTIALS_RELATIVE_URI" <> ""
     /\ sent w' = sent w ++ [ecsExchange env])
  /\ (Getenv env "AWS_CONTAINER_CREDENTIALS_RELATIVE_URI" = "" ->
      ECS env w = (Err "AWS_CONTAINER_CREDENTIALS_RELATIVE_URI not set", w)
      /\ forall c,
           hasEnvironmentCredentials env = false -> UseECSMetadata c = true ->
           Get c env w =
           (if UseIMDS c then orElse (IMDS c) else id)
             (fail "unable to locate AWS credentials") w).
Proof.
  split.
  - intros cr w' H. apply ecs_Ok_iff in H as (dec & (Hrel & body & H1 & _) & _).
    split; [exact Hrel|].
    destruct (exchange200_request _ _ _ _ _ H1) as (r1 & Hr1). rewrite Hr1 in H1.
    apply NewRequestWithContext_Ok in Hr1 as [_ ->].
    apply exchange200_Ok in H1 as (_ & Hs1 & _). exact Hs1.
  - intros Hrel.
    assert (HE : ECS env w = (Err "AWS_CONTAINER_CREDENTIALS_RELATIVE_URI not set", w))
      by (unfold getECSCredentials; rewrite Hrel; reflexivity).
    split; [exact HE|]. intros c Henv Hecs.
    apply GetCredentials_reaches. split; [exact Henv|]. right.
    split; [exact Hecs|]. eexists. exact HE.
Qed.

(** X24. The secured flow goes no further than a token request that is not
    answered, in time, with status 200: it returns
    [failed to get token from IMDSv2] and the token request is its only
    exchange; no request carries a token that was not received. *)
Theorem token_failure_ends_secured_flow (w : World) :
  valid_url imdsTokenURL = true ->
  (forall after resp,
     network w (sent w) (ex_request tokenExchange) = Answer after resp ->
     Z.of_N after < 5 * Second -> StatusCode resp <> 200) ->
  exists w',
    V2 w = (Err "failed to get token from IMDSv2", w')
    /\ sent w' = sent w ++ [tokenExchange]
    /\ now w <= now w' <= now w + 5 * Second.
Proof.
  intros Hurl Hrep.
  unfold getIMDSv2Credentials, bind, try, lift, NewRequest, NewRequestWithContext.
  rewrite Hurl.
  change (Header_Set (mkRequest "PUT" imdsTokenURL [] None)
            "X-aws-ec2-metadata-token-ttl-seconds" "21600")
    with (ex_request tokenExchange).
  unfold Do.
  change (limit (mkClient (5 * Second)) (ex_request tokenExchange))
    with (Some (5 * Second)).
  destruct (network w (sent w) (ex_request tokenExchange)) as [|after|after resp] eqn:Hn;
    simpl roundTrip.
  - eexists. split_and!; [reflexivity | reflexivity | simpl; unfold Second; lia..].
  - destruct (5 * Second <=? Z.of_N after) eqn:E;
      eexists; (split_and!; [reflexivity | reflexivity | simpl; unfold Second in *; lia..]).
  - destruct (5 * Second <=? Z.of_N after) eqn:E.
    + eexists. split_and!; [reflexivity | reflexivity | simpl; unfold Second in *; lia..].
    + apply Z.leb_gt in E. specialize (Hrep after resp eq_refl E).
      apply Z.eqb_neq in Hrep. rewrite Hrep. simpl.
      eexists. split_and!; [reflexivity | reflexivity | simpl; unfold Second in *; lia..].
Qed.

End ConfigFacts.

Section LoadConfigFacts.
Variable os_UserHomeDir : Env -> string.
Variable filepath_Join : string -> string -> string.

Local Abbreviation Load := (LoadConfig os_UserHomeDir filepath_Join).

(** X25. For every environment [LoadConfig] gives a region and a profile
    that are not empty.  The region is [AWS_REGION]; when that is unset or
    empty, [AWS_DEFAULT_REGION]; when that is unset or empty too,
    [us-east-1].  The profile is [AWS_PROFILE], [default] when unset or
    empty.  The endpoint is [AWS_DYNAMODB_ENDPOINT] as it is, empty when
    unset. *)
Theorem LoadConfig_defaults (env : Env) :
  Region (Load env) <> "" /\ Profile (Load env) <> ""
  /\ (Getenv env "AWS_REGION" <> "" -> Region (Load env) = Getenv env "AWS_REGION")
  /\ (Getenv env "AWS_REGION" = "" -> Getenv env "AWS_DEFAULT_REGION" <> "" ->
      Region (Load env) = Getenv env "AWS_DEFAULT_REGION")
  /\ (Getenv env "AWS_REGION" = "" -> Getenv env "AWS_DEFAULT_REGION" = "" ->
      Region (Load env) = "us-east-1")
  /\ (Getenv env "AWS_PROFILE" <> "" -> Profile (Load env) = Getenv env "AWS_PROFILE")
  /\ (Getenv env "AWS_PROFILE" = "" -> Profile (Load env) = "default")
  /\ Endpoint (Load env) = default "" (env !! "AWS_DYNAMODB_ENDPOINT").
Proof.
  unfold LoadConfig. simpl.
  destruct (String.eqb (Getenv env "AWS_REGION") "") eqn:E1;
    destruct (String.eqb (Getenv env "AWS_DEFAULT_REGION") "") eqn:E2;
    destruct (String.eqb (Getenv env "AWS_PROFILE") "") eqn:E3;
    rewrite ?E1, ?E2;
    repeat match goal with
           | H : String.eqb _ _ = true |- _ => apply String.eqb_eq in H
           | H : String.eqb _ _ = false |- _ => apply String.eqb_neq in H
           end;
    split_and!; try reflexivity; try assumption; try discriminate; try congruence.
Qed.

End LoadConfigFacts.

(** ** Instances *)

(** The instance-metadata host serves the secured flow. *)
Lemma secured_flow_requests_witness :
  let w := Go.world (Go.imdsServer 200 Go.credentialsBody) in
  let cr := {| AccessKeyID := "ASIAEXAMPLE"; SecretAccessKey := "secret";
               SessionToken := "token"; Expiration := 1893456000 * Second |} in
  Go.imdsv2 w = (Ok cr, (Go.imdsv2 w).2)
  /\ sent (Go.imdsv2 w).2
     = [tokenExchange; v2Exchange "TOKEN" ""; v2Exchange "TOKEN" "role"].
Proof.
  cbv zeta.
  match goal with |- ?A /\ _ => assert (H : A) by (vm_compute; reflexivity) end.
  split; [exact H|].
  destruct (secured_flow_requests Url.valid Json.Decode GoTime.Parse_RFC3339 _ _ _ H)
    as (token & role & after1 & after2 & Hn1 & Hn2 & Hs).
  vm_compute in Hn1. injection Hn1 as _ <-.
  vm_compute in Hn2. injection Hn2 as _ <-.
  exact Hs.
Defined.

(** The same host serves the legacy flow. *)
Lemma legacy_flow_requests_witness :
  let w := Go.world (Go.imdsServer 200 Go.credentialsBody) in
  let cr := {| AccessKeyID := "ASIAEXAMPLE"; SecretAccessKey := "secret";
               SessionToken := "token"; Expiration := 1893456000 * Second |} in
  Go.imdsv1 w = (Ok cr, (Go.imdsv1 w).2)
  /\ sent (Go.imdsv1 w).2 = [v1Exchange ""; v1Exchange "role"].
Proof.
  cbv zeta.
  match goal with |- ?A /\ _ => assert (H : A) by (vm_compute; reflexivity) end.
  split; [exact H|].
  destruct (legacy_flow_requests Url.valid Json.Decode GoTime.Parse_RFC3339 _ _ _ H)
    as (role & after1 & Hn1 & Hs).
  vm_compute in Hn1. injection Hn1 as _ <-.
  exact Hs.
Defined.

(** A task of the container service; and an environment without the
    relative URI. *)
Lemma container_strategy_request_witness :
  let w := Go.world (Go.ecsServer 200 Go.credentialsBody) in
  let cr := {| AccessKeyID := "ASIAEXAMPLE"; SecretAccessKey := "secret";
               SessionToken := "token"; Expiration := 1893456000 * Second |} in
  Go.ecs Go.ecsEnv w = (Ok cr, (Go.ecs Go.ecsEnv w).2)
  /\ sent (Go.ecs Go.ecsEnv w).2 = [ecsExchange Go.ecsEnv]
  /\ Getenv ∅ "AWS_CONTAINER_CREDENTIALS_RELATIVE_URI" = ""
  /\ Go.ecs ∅ w = (Err "AWS_CONTAINER_CREDENTIALS_RELATIVE_URI not set", w).
Proof.
  cbv zeta.
  match goal with |- ?A /\ _ => assert (H : A) by (vm_compute; reflexivity) end.
  assert (H0 : Getenv ∅ "AWS_CONTAINER_CREDENTIALS_RELATIVE_URI" = "") by reflexivity.
  split; [exact H|]. split; [|split; [exact H0|]].
  - exact (proj2 (proj1 (container_strategy_request Url.valid Json.Decode
                           GoTime.Parse_RFC3339 Go.ecsEnv _) _ _ H)).
  - exact (proj1 (proj2 (container_strategy_request Url.valid Json.Decode
                           GoTime.Parse_RFC3339 ∅ _) H0)).
Defined.

(** The token request gets status 403. *)
Lemma token_failure_ends_secured_flow_witness :
  let w := Go.world (Go.imdsServer 403 Go.credentialsBody) in
  Url.valid imdsTokenURL = true
  /\ (forall after resp,
        network w (sent w) (ex_request tokenExchange) = Answer after resp ->
        Z.of_N after < 5 * Second -> StatusCode resp <> 200)
  /\ exists w',
       Go.imdsv2 w = (Err "failed to get token from IMDSv2", w')
       /\ sent w' = [tokenExchange].
Proof.
  cbv zeta.
  assert (H1 : Url.valid imdsTokenURL = true) by (vm_compute; reflexivity).
  assert (H2 : forall after resp,
            network (Go.world (Go.imdsServer 403 Go.credentialsBody))
              (sent (Go.world (Go.imdsServer 403 Go.credentialsBody)))
              (ex_request tokenExchange) = Answer after resp ->
            Z.of_N after < 5 * Second -> StatusCode resp <> 200).
  { intros after resp Hn _. vm_compute in Hn. injection Hn as _ <-. discriminate. }
  split; [exact H1|]. split; [exact H2|].
  destruct (token_failure_ends_secured_flow Url.valid Json.Decode GoTime.Parse_RFC3339
              _ H1 H2) as (w' & HV & Hs & _).
  exists w'. split; [exact HV | exact Hs].
Defined.

(** Only [AWS_DEFAULT_REGION] is set. *)
Lemma LoadConfig_defaults_witness :
  let env : Env := {[ "AWS_DEFAULT_REGION" := "eu-west-1" ]} in
  Getenv env "AWS_REGION" = "" /\ Getenv env "AWS_DEFAULT_REGION" <> ""
  /\ Getenv env "AWS_PROFILE" = ""
  /\ Region (Go.load env) = "eu-west-1" /\ Profile (Go.load env) = "default".
Proof.
  cbv zeta.
  set (env := ({[ "AWS_DEFAULT_REGION" := "eu-west-1" ]} : Env)).
  assert (H1 : Getenv env "AWS_REGION" = "") by (vm_compute; reflexivity).
  assert (H2 : Getenv env "AWS_DEFAULT_REGION" <> "") by (vm_compute; discriminate).
  assert (H3 : Getenv env "AWS_PROFILE" = "") by (vm_compute; reflexivity).
  split_and!; try assumption.
  - destruct (LoadConfig_defaults Os.UserHomeDir Path.Join env) as (_ & _ & _ & H & _).
    transitivity (Getenv env "AWS_DEFAULT_REGION"); [exact (H H1 H2) | vm_compute; reflexivity].
  - destruct (LoadConfig_defaults Os.UserHomeDir Path.Join env) as (_ & _ & _ & _ & _ & _ & H & _).
    exact (H H3).
Defined.
